(** * AlgoCrypto: the position and order lifecycle of the trading bot

    A shallow embedding of [Backend/Connection/config.py] and of the classes
    [TradingBot] and [LiveTradingBot] of
    [Backend/Connection/trading_implementation.py], with the signal columns
    of [Backend/Strategy/bb_strategy.py] and of the moving-average strategy
    of [Backend/Connection/analyzer.py].

    Numbers.  Python floats are modelled by exact rationals ([Q]): the
    comparisons, the divisions and the roundings are those of the source,
    computed without the representation error of IEEE doubles; NaN appears
    only in the columns of the strategies' frames.  Python's [==] on
    numbers is [Qeq_bool], and a division by zero raises.  The quantity that
    the direct API posts is text, and is modelled as text: the digits that
    the formatting prints and what the two [rstrip] calls leave of them.

    Ledger.  [self.positions] is a dict from symbols to Python values.  Every
    value the code stores there is [None] or a dict, and a position record is
    itself a dict, so [isinstance(v, dict)] holds for every value but [None].
*)

From Stdlib Require Import QArith Qabs Qround Qminmax Lqa Ascii.
From stdpp Require Import gmap strings list fin_maps.

Local Open Scope Q_scope.

(** ** Python numbers *)

Module Py.

Definition le (a b : Q) : bool := Qle_bool a b.
Definition lt (a b : Q) : bool := negb (Qle_bool b a).
Definition ge (a b : Q) : bool := le b a.
Definition gt (a b : Q) : bool := lt b a.
Definition eq (a b : Q) : bool := Qeq_bool a b.

(** [round(x)] with one argument: to the nearest integer, a tie going to
    the even neighbour. *)
Definition round (x : Q) : Z :=
  let f := Qfloor x in
  let r := x - inject_Z f in
  match Qcompare r (1 # 2) with
  | Lt => f
  | Gt => (f + 1)%Z
  | Eq => if Z.even f then f else (f + 1)%Z
  end.

(** [round(x, n)]: to [n] decimal places. *)
Definition round_to (x : Q) (n : nat) : Q :=
  inject_Z (round (x * inject_Z (10 ^ Z.of_nat n))) / inject_Z (10 ^ Z.of_nat n).

(** [int(x)] on a finite float: truncation toward zero. *)
Definition int (x : Q) : Z := Z.quot (Qnum x) (Zpos (Qden x)).

(** *** Numbers as text *)

(** The character of the decimal digit [d]. *)
Definition digit (d : Z) : Ascii.ascii := Ascii.ascii_of_nat (48 + Z.to_nat d).

(** The [k] lowest decimal digits of [m], the highest first. *)
Fixpoint low_digits (k : nat) (m : Z) : list Ascii.ascii :=
  match k with
  | O => []
  | S k' => low_digits k' (m / 10) ++ [digit (m mod 10)]
  end.

(** The decimal digits of [m >= 0] without leading zeros; [fuel] bounds
    their number. *)
Fixpoint int_digits (fuel : nat) (m : Z) : list Ascii.ascii :=
  match fuel with
  | O => [digit (m mod 10)]
  | S fuel' =>
      if (m <? 10)%Z then [digit m]
      else int_digits fuel' (m / 10) ++ [digit (m mod 10)]
  end.

Definition str_int (m : Z) : list Ascii.ascii := int_digits (Z.to_nat (Z.log2 m)) m.

(** [f"{x:.{n}f}"]: [x] in fixed-point notation with [n] digits after the
    point, rounded to the nearest, a tie going to the even neighbour; no
    point when [n] is 0. *)
Definition format_fixed (x : Q) (n : nat) : string :=
  let scaled := Z.abs (round (x * inject_Z (10 ^ Z.of_nat n))) in
  let sign := if lt x 0 then ["-"%char] else [] in
  let whole := str_int (scaled / 10 ^ Z.of_nat n) in
  let point :=
    match n with
    | O => []
    | S _ => "."%char :: low_digits n (scaled mod 10 ^ Z.of_nat n)
    end in
  String.string_of_list_ascii (sign ++ whole ++ point).

(** The list without the characters [c] at its front. *)
Fixpoint lstrip_chars (c : Ascii.ascii) (l : list Ascii.ascii) : list Ascii.ascii :=
  match l with
  | [] => []
  | x :: rest => if Ascii.eqb x c then lstrip_chars c rest else l
  end.

Definition rstrip_chars (c : Ascii.ascii) (l : list Ascii.ascii) : list Ascii.ascii :=
  rev (lstrip_chars c (rev l)).

(** [s.rstrip(c)] for a single character [c]: [s] without the characters
    [c] at its end. *)
Definition rstrip (c : Ascii.ascii) (s : string) : string :=
  String.string_of_list_ascii (rstrip_chars c (String.list_ascii_of_string s)).

(** The digit characters. *)
Definition is_digit (c : Ascii.ascii) : Prop :=
  exists d, (0 <= d < 10)%Z /\ c = digit d.

(** The value of a digit character. *)
Definition digit_value (c : Ascii.ascii) : option Z :=
  let n := Z.of_nat (Ascii.nat_of_ascii c) in
  if ((48 <=? n) && (n <=? 57))%Z then Some (n - 48)%Z else None.

(** The number that a run of digits denotes, after the digits of [acc]. *)
Fixpoint digits_value (acc : Z) (l : list Ascii.ascii) : option Z :=
  match l with
  | [] => Some acc
  | c :: rest =>
      match digit_value c with
      | Some d => digits_value (10 * acc + d) rest
      | None => None
      end
  end.

(** The text before the first point and, if there is a point, the text
    after it. *)
Fixpoint split_point (l : list Ascii.ascii) : list Ascii.ascii * option (list Ascii.ascii) :=
  match l with
  | [] => ([], None)
  | c :: rest =>
      if Ascii.eqb c "."%char then ([], Some rest)
      else let '(whole, frac) := split_point rest in (c :: whole, frac)
  end.

(** The number that a decimal text denotes: an optional minus sign, digits,
    and optionally a point and more digits.  Any other text, the empty
    one included, denotes no number. *)
Definition number_of (s : string) : option Q :=
  let l := String.list_ascii_of_string s in
  let '(negative, l) :=
    match l with
    | c :: rest => if Ascii.eqb c "-"%char then (true, rest) else (false, l)
    | [] => (false, l)
    end in
  let '(whole, frac) := split_point l in
  let frac := default [] frac in
  match whole with
  | [] => None
  | _ :: _ =>
      match digits_value 0 whole, digits_value 0 frac with
      | Some w, Some f =>
          let v := inject_Z w + inject_Z f / inject_Z (10 ^ Z.of_nat (length frac)) in
          Some (if negative then - v else v)
      | _, _ => None
      end
  end.

End Py.

(** ** config.py *)

Module config.

(** The module constants that the lifecycle code reads. *)
Record t := {
  TOTAL_PORTFOLIO_CAPITAL_USD : Q;
  RISK_PER_TRADE_PERCENT : Q;
  MAX_CONCURRENT_TRADES : Z;
  GLOBAL_DRAWDOWN_LIMIT_PERCENT : Q;
  TRADEABLE_ASSETS : list string
}.

(** The values written in the source. *)
Definition source : t := {|
  TOTAL_PORTFOLIO_CAPITAL_USD := 100000;
  RISK_PER_TRADE_PERCENT := 1 # 100;
  MAX_CONCURRENT_TRADES := 5;
  GLOBAL_DRAWDOWN_LIMIT_PERCENT := 20 # 100;
  TRADEABLE_ASSETS := ["BTC/USDT"%string]
|}.

(** What [load_trading_config()] returns, as far as the bot reads it:
    [trading_config.get('hedge_mode', False)] and
    [trading_config.get('quantity_btc')]. *)
Record trading := {
  hedge_mode : bool;
  quantity_btc : option Q
}.

(** [calculate_position_size(symbol, entry_price, stop_loss_price)].  The
    division is reached only with a non-zero distance. *)
Definition calculate_position_size (c : t) (symbol : string)
    (entry_price stop_loss_price : Q) : Q :=
  if negb (bool_decide (symbol ∈ TRADEABLE_ASSETS c)) then 0
  else if Py.le entry_price 0 || Py.le stop_loss_price 0 then 0
  else
    let risk_amount_usd := TOTAL_PORTFOLIO_CAPITAL_USD c * RISK_PER_TRADE_PERCENT c in
    let sl_distance_usd_per_coin := Qabs (entry_price - stop_loss_price) in
    if Py.eq sl_distance_usd_per_coin 0 then 0
    else risk_amount_usd / sl_distance_usd_per_coin.

End config.

(** ** The ledger: [TradingBot.positions] *)

(** The keys ['long'] and ['short'] of a hedge-mode entry. *)
Inductive side_key := long | short.

(** [position_data], the record written when an order is confirmed. *)
Record position := {
  side : Z;
  size : Q;
  entry_price : Q;
  stop_loss_price : Q;
  take_profit_price : Q
}.

(** A dict stored under a symbol.  The five keys of a position record are
    always written together ([fields]).  The keys ['long'] and ['short'] are
    read through [.get(key)] and tested against [None] only, so a key that is
    missing and a key bound to [None] are one case ([None] here).  The values
    under ['long'] and ['short'] are position records as they were created. *)
Record pydict := {
  fields : option position;
  slot_long : option position;
  slot_short : option position
}.

(** A ledger value: [None] is Python's [None], [Some d] a dict. *)
Abbreviation entry := (option pydict).

(** [position_data] stored directly (one-way mode). *)
Definition record_of (p : position) : pydict :=
  {| fields := Some p; slot_long := None; slot_short := None |}.

(** [{'long': None, 'short': None}] *)
Definition empty_slots : pydict :=
  {| fields := None; slot_long := None; slot_short := None |}.

(** [d.get(key)] *)
Definition dict_get (d : pydict) (k : side_key) : option position :=
  match k with long => slot_long d | short => slot_short d end.

(** [d[key] = v] *)
Definition dict_set (d : pydict) (k : side_key) (v : option position) : pydict :=
  match k with
  | long => {| fields := fields d; slot_long := v; slot_short := slot_short d |}
  | short => {| fields := fields d; slot_long := slot_long d; slot_short := v |}
  end.

(** The conversion "from hedge mode structure" that the one-way branches
    apply to every dict: the long slot, else the short slot, else [None]. *)
Definition one_way_view (d : pydict) : option position :=
  match dict_get d long with
  | Some p => Some p
  | None => dict_get d short
  end.

(** ** The exchange *)

Inductive order_side := buy | sell.

(** [positionIdx]: ['0'] one-way, ['1'] long hedge, ['2'] short hedge. *)
Inductive position_idx := idx0 | idx1 | idx2.

(** The [lotSizeFilter] of [_get_instrument_info]; a missing key is [None]. *)
Record instrument := {
  qtyStep : option Q;
  minOrderQty : option Q
}.

(** What the exchange answers to one call of [place_market_order]:
    [create_market_order] returns an order, or raises; when it raises the
    demo error 10032 the direct API is used, which fetches the price and the
    instrument and posts the order. *)
Inductive reply :=
| Filled
| Failed
| Demo (price : option Q) (info : option instrument) (accepted : bool).

(** The order requests made, oldest first: through [create_market_order]
    of the exchange object, and through the direct API. *)
Inductive request :=
| CcxtOrder (s : order_side) (amount : Q) (idx : position_idx)
| DirectOrder (s : order_side) (qty : string) (idx : position_idx).

(** ** State and effects *)

Inductive exn := ZeroDivisionError | TypeError.

Inductive outcome (A : Type) :=
| Ret (a : A)
| Raise (e : exn).
Arguments Ret {A} a.
Arguments Raise {A} e.

(** The mutable part of a [TradingBot] and the world it talks to:
    [exchange] holds the answers to the orders still to come (every order
    beyond the list fails), [sent] the requests made so far. *)
Record bot := {
  positions : gmap string entry;
  peak_portfolio_value : Q;
  exchange : list reply;
  sent : list request
}.

(** What a call reads and never writes: the constants of [config.py], the
    trading configuration as loaded during the call, and the attributes set
    by [__init__]. *)
Record env := {
  cfg : config.t;
  trading_config : config.trading;
  symbol : string;
  stop_loss_pct : Q;
  take_profit_pct : Q;
  max_concurrent_trades : Z;
  global_drawdown_limit : Q
}.

Definition M (A : Type) : Type := bot -> outcome A * bot.

Definition ret {A} (a : A) : M A := fun st => (Ret a, st).
Definition raise {A} (e : exn) : M A := fun st => (Raise e, st).
Definition bind {A B} (m : M A) (k : A -> M B) : M B :=
  fun st => match m st with
            | (Ret a, st') => k a st'
            | (Raise e, st') => (Raise e, st')
            end.

Notation "'let*' x ':=' m 'in' k" := (bind m (fun x => k))
  (at level 10, x name, m at level 100, k at level 200).
Notation "m ';;' k" := (bind m (fun _ => k))
  (at level 100, k at level 200, right associativity).

Definition with_positions (m : gmap string entry) (st : bot) : bot :=
  {| positions := m;
     peak_portfolio_value := peak_portfolio_value st;
     exchange := exchange st;
     sent := sent st |}.

Definition with_peak (v : Q) (st : bot) : bot :=
  {| positions := positions st;
     peak_portfolio_value := v;
     exchange := exchange st;
     sent := sent st |}.

Definition with_exchange (rs : list reply) (st : bot) : bot :=
  {| positions := positions st;
     peak_portfolio_value := peak_portfolio_value st;
     exchange := rs;
     sent := sent st |}.

Definition with_sent (l : list request) (st : bot) : bot :=
  {| positions := positions st;
     peak_portfolio_value := peak_portfolio_value st;
     exchange := exchange st;
     sent := l |}.

(** [self.positions[symbol] = v] as a change of the state. *)
Definition with_entry (sym : string) (v : entry) (st : bot) : bot :=
  with_positions (<[sym := v]> (positions st)) st.

Definition get_positions : M (gmap string entry) := fun st => (Ret (positions st), st).

Definition set_entry (sym : string) (v : entry) : M unit :=
  fun st => (Ret tt, with_entry sym v st).

Definition get_peak : M Q := fun st => (Ret (peak_portfolio_value st), st).

Definition set_peak (v : Q) : M unit :=
  fun st => (Ret tt, with_peak v st).

Definition send (r : request) : M unit :=
  fun st => (Ret tt, with_sent (sent st ++ [r]) st).

(** The exchange's answer to the next order. *)
Definition next_reply : M reply :=
  fun st => match exchange st with
            | [] => (Ret Failed, st)
            | r :: rs => (Ret r, with_exchange rs st)
            end.

(** ** class TradingBot *)

Module TradingBot.
Section WithEnv.

Variable E : env.

Let hedge_mode : bool := config.hedge_mode (trading_config E).

(** [__init__]: an empty ledger, the peak at the configured capital. *)
Definition init (c : config.t) (replies : list reply) : bot :=
  {| positions := ∅;
     peak_portfolio_value := config.TOTAL_PORTFOLIO_CAPITAL_USD c;
     exchange := replies;
     sent := [] |}.

(** [calculate_position_size(entry_price, stop_loss_price)] *)
Definition calculate_position_size (entry_price stop_loss_price : Q) : Q :=
  config.calculate_position_size (cfg E) (symbol E) entry_price stop_loss_price.

(** [check_global_drawdown(current_portfolio_value)] *)
Definition check_global_drawdown (current_portfolio_value : Q) : M bool :=
  let* peak := get_peak in
  (if Py.gt current_portfolio_value peak then set_peak current_portfolio_value
   else ret tt) ;;
  let* peak := get_peak in
  if Py.eq peak 0 then raise ZeroDivisionError
  else
    let drawdown := (peak - current_portfolio_value) / peak in
    if Py.ge drawdown (global_drawdown_limit E) then ret true
    else ret false.

(** [if balance is not None: if self.check_global_drawdown(balance): ...] *)
Definition drawdown_gate (balance : option Q) : M bool :=
  match balance with
  | Some b => check_global_drawdown b
  | None => ret false
  end.

(** The slots that one ledger value adds to [active_count].  In hedge mode
    a dict counts its non-[None] long and short slots (the [elif] for a
    value that is neither a dict nor [None] is never taken); in one-way
    mode every value that is not [None] counts once. *)
Definition slots (hedge : bool) (v : entry) : Z :=
  if hedge then
    match v with
    | Some d =>
        ((if dict_get d long is Some _ then 1 else 0)
         + (if dict_get d short is Some _ then 1 else 0))%Z
    | None => 0%Z
    end
  else
    match v with Some _ => 1%Z | None => 0%Z end.

Definition active_count (hedge : bool) (m : gmap string entry) : Z :=
  map_fold (fun _ v n => (n + slots hedge v)%Z) 0%Z m.

(** [can_open_new_position(hedge_mode)] *)
Definition can_open_new_position (hedge : bool) : M bool :=
  let* m := get_positions in
  if (active_count hedge m >=? max_concurrent_trades E)%Z then ret false
  else ret true.

(** The decimal places used to print the quantity. *)
Definition decimal_places (qty_step : Q) : nat :=
  if Py.ge qty_step 1 then 0%nat
  else if Py.ge qty_step (1 # 10) then 1%nat
  else if Py.ge qty_step (1 # 100) then 2%nat
  else if Py.ge qty_step (1 # 1000) then 3%nat
  else 8%nat.

Definition qty_step_of (info : option instrument) : Q :=
  match info with
  | Some i => default (1 # 1000) (qtyStep i)
  | None => 1 # 1000
  end.

Definition min_qty_of (info : option instrument) : Q :=
  match info with
  | Some i => default (1 # 1000) (minOrderQty i)
  | None => 1 # 1000
  end.

(** [btc_amount_rounded] of [_place_order_direct_api], after the rounding
    to the step and after the minimum is enforced. *)
Definition round_to_step (qty_step amount : Q) : Q :=
  if Py.gt qty_step 0 then inject_Z (Py.round (amount / qty_step)) * qty_step
  else Py.round_to amount 8.

Definition btc_amount_rounded (qty_step min_qty amount : Q) : Q :=
  let rounded := round_to_step qty_step amount in
  if Py.lt rounded min_qty then min_qty else rounded.

(** The string [quantity]:
    [f"{btc_amount_rounded:.{decimal_places}f}".rstrip('0').rstrip('.')]. *)
Definition quantity (info : option instrument) (amount : Q) : string :=
  let qty_step := qty_step_of info in
  let min_qty := min_qty_of info in
  Py.rstrip "."
    (Py.rstrip "0"
       (Py.format_fixed (btc_amount_rounded qty_step min_qty amount)
          (decimal_places qty_step))).

(** The validation chain [if amount > 10 .. elif amount < 0.0001 ..
    elif amount <= 0: return None]. *)
Definition rejects_amount (amount : Q) : bool :=
  if Py.gt amount 10 then false
  else if Py.lt amount (1 # 10000) then false
  else if Py.le amount 0 then true
  else false.

(** [_place_order_direct_api(side, amount, position_idx=position_idx)] with
    the answers of the exchange given. *)
Definition _place_order_direct_api (s : order_side) (amount : Q) (idx : position_idx)
    (price : option Q) (info : option instrument) (accepted : bool) : M bool :=
  match price with
  | None => ret false
  | Some _ =>
      if rejects_amount amount then ret false
      else
        send (DirectOrder s (quantity info amount) idx) ;;
        ret accepted
  end.

(** [place_market_order(side, amount, position_idx=position_idx)]: the
    result says whether an order came back ([if order:]). *)
Definition place_market_order (s : order_side) (amount : Q) (idx : position_idx) : M bool :=
  let* r := next_reply in
  send (CcxtOrder s amount idx) ;;
  match r with
  | Filled => ret true
  | Failed => ret false
  | Demo price info accepted => _place_order_direct_api s amount idx price info accepted
  end.

Definition close_side_of (p : position) : order_side :=
  if (side p =? 1)%Z then sell else buy.

(** [close_position], hedge branch with a side given; [d] is the dict
    read from [self.positions[symbol]]. *)
Definition close_hedge_slot (sym : string) (d : pydict) (k : side_key) : M bool :=
  match dict_get d k with
  | None => ret false
  | Some p =>
      let position_idx := match k with long => idx1 | short => idx2 end in
      let* order := place_market_order (close_side_of p) (size p) position_idx in
      if order then
        let d' := dict_set d k None in
        set_entry sym (Some d') ;;
        (match dict_get d' long, dict_get d' short with
         | None, None => set_entry sym None
         | _, _ => ret tt
         end) ;;
        ret true
      else ret false
  end.

(** [close_position], one-way branch; [v] is the value read from
    [self.positions[symbol]]. *)
Definition close_one_way (sym : string) (v : entry) : M bool :=
  let* symbol_positions :=
    match v with
    | Some d =>
        let converted := one_way_view d in
        set_entry sym (record_of <$> converted) ;;
        ret converted
    | None => ret None
    end in
  match symbol_positions with
  | None => ret false
  | Some p =>
      let* order := place_market_order (close_side_of p) (size p) idx0 in
      if order then set_entry sym None ;; ret true
      else ret false
  end.

(** [close_position(symbol, side=k)] *)
Definition close_position_side (sym : string) (k : side_key) : M bool :=
  let* m := get_positions in
  match m !! sym with
  | None => ret false
  | Some v =>
      match hedge_mode, v with
      | true, Some d => close_hedge_slot sym d k
      | _, _ => close_one_way sym v
      end
  end.

(** [close_position(symbol, side)] *)
Definition close_position (sym : string) (k : option side_key) : M bool :=
  let* m := get_positions in
  match m !! sym with
  | None => ret false
  | Some v =>
      match hedge_mode, v with
      | true, Some d =>
          match k with
          | None =>
              let* closed_long :=
                if dict_get d long is Some _ then close_position_side sym long
                else ret false in
              let* closed_short :=
                if dict_get d short is Some _ then close_position_side sym short
                else ret false in
              ret (closed_long || closed_short)
          | Some k => close_hedge_slot sym d k
          end
      | _, _ => close_one_way sym v
      end
  end.

(** The branch [signal == 0] of [execute_signal]: close what is open for
    the bot's symbol, open nothing. *)
Definition exit_signal : M bool :=
  let* m := get_positions in
  match m !! symbol E with
  | None => ret false
  | Some v =>
      match hedge_mode, v with
      | true, Some d =>
          let* closed_long :=
            if dict_get d long is Some _ then close_position (symbol E) (Some long)
            else ret false in
          let* closed_short :=
            if dict_get d short is Some _ then close_position (symbol E) (Some short)
            else ret false in
          ret (closed_long || closed_short)
      | _, Some _ => close_position (symbol E) None
      | _, None => ret false
      end
  end.

Definition side_key_of (signal : Z) : side_key :=
  if (signal =? 1)%Z then long else short.

(** [(signal == 1 and existing_pos['side'] == -1) or
     (signal == -1 and existing_pos['side'] == 1)] *)
Definition is_reversal (signal : Z) (existing_pos : position) : bool :=
  ((signal =? 1)%Z && (side existing_pos =? -1)%Z)
  || ((signal =? -1)%Z && (side existing_pos =? 1)%Z).

(** The hedge-mode branch before the concurrency check.  The result [true]
    stands for [return False] ("already in position, skipping"). *)
Definition hedge_branch (signal : Z) (symbol_positions : entry) : M bool :=
  match symbol_positions with
  | Some d =>
      if dict_get d (side_key_of signal) is Some _ then ret true
      else ret false
  | None =>
      set_entry (symbol E) (Some empty_slots) ;;
      ret false
  end.

(** The one-way branch before the concurrency check: the stored dict is
    converted, an opposite position is closed (and its tracking cleared
    even when the close failed), a same-side position stops the call.  The
    result [true] stands for [return False]. *)
Definition one_way_branch (signal : Z) (symbol_positions : entry) : M bool :=
  match symbol_positions with
  | None => ret false
  | Some d =>
      let converted := one_way_view d in
      set_entry (symbol E) (record_of <$> converted) ;;
      match converted with
      | None => ret false
      | Some existing_pos =>
          if is_reversal signal existing_pos then
            let* closed := close_position (symbol E) None in
            if closed then ret false
            else set_entry (symbol E) None ;; ret false
          else if (signal =? side existing_pos)%Z then ret true
          else ret false
      end
  end.

Definition stop_loss_for (signal : Z) (current_price : Q) : Q :=
  if (signal =? 1)%Z then current_price * (1 - stop_loss_pct E)
  else current_price * (1 + stop_loss_pct E).

Definition take_profit_for (signal : Z) (current_price : Q) : Q :=
  if (signal =? 1)%Z then current_price * (1 + take_profit_pct E)
  else current_price * (1 - take_profit_pct E).

(** The size of the order: the fixed quantity of the configuration when it
    is set and positive, else the risk-based size; [None] stands for the
    [return False] on a size that is not positive. *)
Definition position_size (signal : Z) (current_price : Q) : option Q :=
  let risk_based :=
    let size := calculate_position_size current_price (stop_loss_for signal current_price) in
    if Py.le size 0 then None else Some size in
  match config.quantity_btc (trading_config E) with
  | Some fixed_quantity_btc =>
      if Py.gt fixed_quantity_btc 0 then Some fixed_quantity_btc else risk_based
  | None => risk_based
  end.

(** [position_data], the record of a confirmed order. *)
Definition position_data (signal : Z) (amount current_price : Q) : position :=
  {| side := signal;
     size := amount;
     entry_price := current_price;
     stop_loss_price := stop_loss_for signal current_price;
     take_profit_price := take_profit_for signal current_price |}.

Definition order_side_of (signal : Z) : order_side :=
  if (signal =? 1)%Z then buy else sell.

Definition position_idx_of (signal : Z) : position_idx :=
  if hedge_mode then (if (signal =? 1)%Z then idx1 else idx2) else idx0.

(** The value written under the symbol when the order is confirmed;
    [current] is what the ledger has there.  In hedge mode the record goes
    under its side key of the dict that is there (a fresh pair of slots if
    there is none); in one-way mode the record is stored directly. *)
Definition stored_entry (signal : Z) (amount current_price : Q)
    (current : option entry) : entry :=
  if hedge_mode then
    let d := match current with
             | Some (Some d) => d
             | _ => empty_slots
             end in
    Some (dict_set d (side_key_of signal) (Some (position_data signal amount current_price)))
  else Some (record_of (position_data signal amount current_price)).

(** [execute_signal] from [order = self.place_market_order(...)] to the
    end: the ledger is written only [if order:]. *)
Definition place_and_store (signal : Z) (amount current_price : Q) : M bool :=
  let* order :=
    place_market_order (order_side_of signal) amount (position_idx_of signal) in
  if order then
    let* m := get_positions in
    set_entry (symbol E) (stored_entry signal amount current_price (m !! symbol E)) ;;
    ret true
  else ret false.

(** [execute_signal] from the concurrency check to the end.  A price of
    [None] fails at the first multiplication. *)
Definition open_position (signal : Z) (current_price : option Q) : M bool :=
  let* can_open := can_open_new_position hedge_mode in
  if negb can_open then ret false
  else
    match current_price with
    | None => raise TypeError
    | Some price =>
        match position_size signal price with
        | None => ret false
        | Some amount => place_and_store signal amount price
        end
    end.

(** [execute_signal(signal, current_price, balance)] *)
Definition execute_signal (signal : Z) (current_price : option Q) (balance : option Q) : M bool :=
  if (signal =? 0)%Z then exit_signal
  else
    let* halted := drawdown_gate balance in
    if halted then ret false
    else
      let* m := get_positions in
      (if m !! symbol E is None
       then set_entry (symbol E) (if hedge_mode then Some empty_slots else None)
       else ret tt) ;;
      let* m := get_positions in
      let symbol_positions := default None (m !! symbol E) in
      let* skip :=
        if hedge_mode then hedge_branch signal symbol_positions
        else one_way_branch signal symbol_positions in
      if skip then ret false
      else open_position signal current_price.

(** The two tests of [check_stop_loss_take_profit], in source order. *)
Definition stop_loss_hit (p : position) (current_price : Q) : bool :=
  ((side p =? 1)%Z && Py.le current_price (stop_loss_price p))
  || ((side p =? -1)%Z && Py.ge current_price (stop_loss_price p)).

Definition take_profit_hit (p : position) (current_price : Q) : bool :=
  ((side p =? 1)%Z && Py.ge current_price (take_profit_price p))
  || ((side p =? -1)%Z && Py.le current_price (take_profit_price p)).

Inductive trigger := StopLoss | TakeProfit.

Definition exit_trigger (p : position) (current_price : Q) : option trigger :=
  if stop_loss_hit p current_price then Some StopLoss
  else if take_profit_hit p current_price then Some TakeProfit
  else None.

(** An element of [closed_symbols]: [symbol] or [f"{symbol}_{side_key}"]. *)
Definition closed_label : Type := string * option side_key.

(** The body of the inner loop [for side_key in ['long', 'short']]. *)
Definition check_slot (current_price : Q) (sym : string) (d : pydict) (k : side_key)
    : M (list closed_label) :=
  match dict_get d k with
  | None => ret []
  | Some p =>
      match exit_trigger p current_price with
      | Some _ =>
          let* closed := close_position sym (Some k) in
          ret (if closed then [(sym, Some k)] else [])
      | None => ret []
      end
  end.

(** The body of the outer loop, for one symbol and its ledger value. *)
Definition check_symbol (current_price : Q) (sym : string) (v : entry)
    : M (list closed_label) :=
  match v with
  | None => ret []
  | Some d =>
      if hedge_mode then
        let* closed_long := check_slot current_price sym d long in
        let* closed_short := check_slot current_price sym d short in
        ret (closed_long ++ closed_short)
      else
        match one_way_view d with
        | None => ret []
        | Some p =>
            match exit_trigger p current_price with
            | Some _ =>
                let* closed := close_position sym None in
                ret (if closed then [(sym, None)] else [])
            | None => ret []
            end
        end
  end.

Fixpoint check_symbols (current_price : Q) (syms : list string) : M (list closed_label) :=
  match syms with
  | [] => ret []
  | sym :: rest =>
      let* m := get_positions in
      let* closed := check_symbol current_price sym (default None (m !! sym)) in
      let* closed_rest := check_symbols current_price rest in
      ret (closed ++ closed_rest)
  end.

(** [check_stop_loss_take_profit(current_price)]: the symbols are visited
    in the order of the map. *)
Definition check_stop_loss_take_profit (current_price : Q) : M (list closed_label) :=
  let* m := get_positions in
  check_symbols current_price (fst <$> map_to_list m).

End WithEnv.
End TradingBot.

(** ** class LiveTradingBot *)

Module LiveTradingBot.

(** A value of the strategy's [Signal] column. *)
Inductive cell := NaN | Num (q : Q).

(** [strategy_df], as far as it is read: its columns by name. *)
Definition dataframe : Type := gmap string (list cell).

(** A run of [self.strategy_funcs[self.strategy_name](df)]: it raises, or
    returns [(metrics, strategy_df)] where [strategy_df] may be [None]. *)
Inductive strategy_run :=
| StrategyRaises
| StrategyReturns (strategy_df : option dataframe).

(** [get_current_signal(df)], given the run of the strategy on [df];
    [.iloc[-1]] of an empty column raises, which the [except] turns into
    [None]. *)
Definition get_current_signal (run : strategy_run) : option Z :=
  match run with
  | StrategyRaises => None
  | StrategyReturns None => None
  | StrategyReturns (Some strategy_df) =>
      match strategy_df !! "Signal"%string with
      | None => None
      | Some column =>
          match last column with
          | None => None
          | Some NaN => Some 0%Z
          | Some (Num latest_signal) => Some (Py.int latest_signal)
          end
      end
  end.

(** What one pass of the loop of [run] obtains from outside. *)
Record tick := {
  portfolio_value : option Q;
  latest_data : option strategy_run;
  current_price : option Q
}.

(** [if x:] on an optional number. *)
Definition truthy (x : option Q) : option Q :=
  match x with
  | Some v => if Py.eq v 0 then None else Some v
  | None => None
  end.

(** One pass of the [while True] loop of [run], from the portfolio check
    to the execution of the signal; each [continue] ends the pass. *)
Definition run_iteration (E : env) (tk : tick) : M unit :=
  let* halted :=
    match truthy (portfolio_value tk) with
    | Some v => TradingBot.check_global_drawdown E v
    | None => ret false
    end in
  if halted then ret tt
  else
    match latest_data tk with
    | None => ret tt
    | Some run =>
        match get_current_signal run with
        | None => ret tt
        | Some signal =>
            (match truthy (current_price tk) with
             | Some price => TradingBot.check_stop_loss_take_profit E price ;; ret tt
             | None => ret tt
             end) ;;
            let balance :=
              match truthy (portfolio_value tk) with
              | Some v => Some v
              | None =>
                  if (signal =? 0)%Z then None
                  else Some (config.TOTAL_PORTFOLIO_CAPITAL_USD (cfg E))
              end in
            TradingBot.execute_signal E signal (current_price tk) balance ;;
            ret tt
        end
    end.

End LiveTradingBot.

(** ** What the ledger tracks *)

(** The ledger value [v] holds the position [p]: as the record itself or
    under one of the two slots. *)
Definition holds (v : entry) (p : position) : Prop :=
  exists d, v = Some d
            /\ (fields d = Some p \/ slot_long d = Some p \/ slot_short d = Some p).

(** The state [st] tracks [p] for the symbol [sym]. *)
Definition tracks (st : bot) (sym : string) (p : position) : Prop :=
  exists v, positions st !! sym = Some v /\ holds v p.

(** No position is tracked in [st'] that was not tracked in [st]. *)
Definition no_new_position (st st' : bot) : Prop :=
  forall sym p, tracks st' sym p -> tracks st sym p.

(** Every run of [m] relates the state before to the state after by [R]. *)
Definition always {A} (R : bot -> bot -> Prop) (m : M A) : Prop :=
  forall st r st', m st = (r, st') -> R st st'.

(** The ledger is the same. *)
Definition same_ledger (st st' : bot) : Prop := positions st' = positions st.

(** Ledger and exchange are the same: nothing was sent, no reply used. *)
Definition untouched (st st' : bot) : Prop :=
  positions st' = positions st /\ sent st' = sent st /\ exchange st' = exchange st.

(** ** Configurations and states used in the examples *)

Module Scenario.

Definition btc : string := "BTC/USDT".

(** The attributes that [TradingBot.__init__] sets from [config.py]: stop
    loss 2%, take profit 4%, the limits of the configuration. *)
Definition bot_env (c : config.t) (tc : config.trading) : env :=
  {| cfg := c;
     trading_config := tc;
     symbol := btc;
     stop_loss_pct := 2 # 100;
     take_profit_pct := 4 # 100;
     max_concurrent_trades := config.MAX_CONCURRENT_TRADES c;
     global_drawdown_limit := config.GLOBAL_DRAWDOWN_LIMIT_PERCENT c |}.

(** [trading_config.json] without and with ['hedge_mode': true]; no fixed
    quantity. *)
Definition one_way : config.trading :=
  {| config.hedge_mode := false; config.quantity_btc := None |}.
Definition hedge : config.trading :=
  {| config.hedge_mode := true; config.quantity_btc := None |}.

Definition one_way_env : env := bot_env config.source one_way.
Definition hedge_env : env := bot_env config.source hedge.

(** A configuration whose capital is 0: the only start with a peak of 0. *)
Definition zero_capital : config.t :=
  {| config.TOTAL_PORTFOLIO_CAPITAL_USD := 0;
     config.RISK_PER_TRADE_PERCENT := 1 # 100;
     config.MAX_CONCURRENT_TRADES := 5;
     config.GLOBAL_DRAWDOWN_LIMIT_PERCENT := 20 # 100;
     config.TRADEABLE_ASSETS := [btc] |}.

(** A long and a short position as [execute_signal] records them at a
    price of 100. *)
Definition long_100 : position :=
  {| side := 1; size := 500; entry_price := 100;
     stop_loss_price := 98; take_profit_price := 104 |}.
Definition short_100 : position :=
  {| side := -1; size := 500; entry_price := 100;
     stop_loss_price := 102; take_profit_price := 96 |}.

(** A long position under the ['long'] key of a hedge-mode dict. *)
Definition long_slot : pydict :=
  {| fields := None; slot_long := Some long_100; slot_short := None |}.

(** The configuration of the source with room for two trades only. *)
Definition two_trades : config.t :=
  {| config.TOTAL_PORTFOLIO_CAPITAL_USD := 100000;
     config.RISK_PER_TRADE_PERCENT := 1 # 100;
     config.MAX_CONCURRENT_TRADES := 2;
     config.GLOBAL_DRAWDOWN_LIMIT_PERCENT := 20 # 100;
     config.TRADEABLE_ASSETS := [btc] |}.

(** A hedge-mode ledger with a long position on [btc] and one on another
    symbol. *)
Definition two_longs (replies : list reply) : bot :=
  with_entry btc (Some long_slot)
    (with_entry "ETH/USDT" (Some long_slot)
       (TradingBot.init config.source replies)).


(** A strategy frame whose latest signal is NaN. *)
Definition unformed_signal : LiveTradingBot.dataframe :=
  {[ "Signal"%string := [LiveTradingBot.Num 1; LiveTradingBot.NaN] ]}.

(** The bot after a first long signal at a price of 100 whose order the
    exchange filled; [replies] are the answers to the orders that follow. *)
Definition opened (E : env) (replies : list reply) : bot :=
  snd (TradingBot.execute_signal E 1 (Some 100) (Some 100000)
         (TradingBot.init config.source (Filled :: replies))).

(** A bot that tracks the given value for [btc]. *)
Definition tracking (v : entry) (replies : list reply) : bot :=
  with_entry btc v (TradingBot.init config.source replies).

End Scenario.

(** ** The rest of [TradingBot] *)

Module TradingBotOps.
Section WithEnv.

Variable E : env.

Let hedge_mode : bool := config.hedge_mode (trading_config E).

(** The body of the loop of [close_all_positions] for one symbol: the number
    of closes that returned [True]. *)
Definition close_all_symbol (sym : string) : M Z :=
  let* m := get_positions in
  match m !! sym with
  | None => ret 0%Z
  | Some v =>
      match hedge_mode, v with
      | true, Some d =>
          let* closed_long :=
            if dict_get d long is Some _
            then TradingBot.close_position E sym (Some long) else ret false in
          let* closed_short :=
            if dict_get d short is Some _
            then TradingBot.close_position E sym (Some short) else ret false in
          ret ((if closed_long then 1 else 0) + (if closed_short then 1 else 0))%Z
      | _, Some _ =>
          let* closed := TradingBot.close_position E sym None in
          ret (if closed then 1 else 0)%Z
      | _, None => ret 0%Z
      end
  end.

Fixpoint close_all_symbols (syms : list string) : M Z :=
  match syms with
  | [] => ret 0%Z
  | sym :: rest =>
      let* closed := close_all_symbol sym in
      let* closed_rest := close_all_symbols rest in
      ret (closed + closed_rest)%Z
  end.

(** [close_all_positions()]: over [list(self.positions.keys())]. *)
Definition close_all_positions : M Z :=
  let* m := get_positions in
  close_all_symbols (fst <$> map_to_list m).

End WithEnv.
End TradingBotOps.

(** ** The trading configuration file of [config.py] *)

Module TradingConfig.

(** A JSON value, as [json.load] returns it and [json.dump] writes it. *)
#[warnings="-register-all"]
Inductive json :=
| JNull
| JBool (b : bool)
| JNum (q : Q)
| JStr (s : string)
| JArray (l : list json)
| JObject (l : list (string * json)).

(** A dict with string keys, as the two functions handle it. *)
Abbreviation dict := (gmap string json).

(** [trading_config.json]: not there, there but not readable as JSON, or
    holding a JSON object.  (A file whose JSON is not an object is not
    covered.) *)
Inductive file :=
| Missing
| Unreadable
| Object (c : dict).

(** The file and whether [open(config_file, 'w')] succeeds. *)
Record fs := {
  content : file;
  writable : bool
}.

(** [default_config], in the order of the source. *)
Definition default_items : list (string * json) :=
  [ ("timeframe", JStr "1h");
    ("strategy", JStr "Bollinger_Bands");
    ("symbol", JStr "BTC/USDT");
    ("check_interval", JNum 60);
    ("enabled", JBool true);
    ("quantity_btc", JNull);
    ("last_updated", JNull) ]%string.

Definition default_config : dict := list_to_map default_items.

(** [with open(config_file, 'w') as f: json.dump(c, f)] inside
    [try .. except]: a file that cannot be opened stays as it is. *)
Definition dump (c : dict) (f : fs) : fs :=
  if writable f then {| content := Object c; writable := true |} else f.

(** [for key in default_config: if key not in config:
       config[key] = default_config[key]] *)
Definition merge_defaults (items : list (string * json)) (config : dict) : dict :=
  foldl (fun config kv =>
           if config !! kv.1 is Some _ then config else <[kv.1 := kv.2]> config)
        config items.

(** [load_trading_config()]: the dict returned and the file system left. *)
Definition load_trading_config (f : fs) : dict * fs :=
  match content f with
  | Missing => (default_config, dump default_config f)
  | Unreadable => (default_config, f)
  | Object config => (merge_defaults default_items config, f)
  end.

(** [for key, value in kwargs.items(): if key in current_config:
       current_config[key] = value] *)
Definition assign_known (items : list (string * json)) (current_config : dict) : dict :=
  foldl (fun current_config kv =>
           if current_config !! kv.1 is Some _
           then <[kv.1 := kv.2]> current_config else current_config)
        current_config items.

(** [update_trading_config] applied to the keyword arguments [kwargs]; [now] is
    [datetime.now().isoformat()]. *)
Definition update_trading_config (kwargs : dict) (now : string) (f : fs) : dict * fs :=
  let '(current_config, f1) := load_trading_config f in
  let current_config := assign_known (map_to_list kwargs) current_config in
  let current_config := <["last_updated"%string := JStr now]> current_config in
  (current_config, dump current_config f1).

(** [if x:] on a JSON value. *)
Definition truthy (v : json) : bool :=
  match v with
  | JNull => false
  | JBool b => b
  | JNum q => negb (Py.eq q 0)
  | JStr s => negb (String.eqb s "")
  | JArray l => if l is [] then false else true
  | JObject l => if l is [] then false else true
  end.

(** [hedge_mode = trading_config.get('hedge_mode', False)] as it is tested
    by [if hedge_mode:]. *)
Definition hedge_mode (trading_config : dict) : bool :=
  match trading_config !! "hedge_mode"%string with
  | Some v => truthy v
  | None => false
  end.

End TradingConfig.

(** ** The signal columns of the strategies *)

(** The operations of pandas and numpy that the strategies apply to
    columns; a column is the list of its cells, oldest first. *)
Module pd.

Import LiveTradingBot.

(** [a < b] and [a > b] on cells: [False] when either is NaN. *)
Definition lt (a b : cell) : bool :=
  match a, b with
  | Num x, Num y => Py.lt x y
  | _, _ => false
  end.

Definition gt (a b : cell) : bool :=
  match a, b with
  | Num x, Num y => Py.gt x y
  | _, _ => false
  end.

(** A column of integers as a column of a frame. *)
Definition of_int (z : Z) : cell := Num (inject_Z z).

(** [.replace(0, np.nan)] on a column of integers. *)
Definition replace_zero (z : Z) : cell :=
  if (z =? 0)%Z then NaN else of_int z.

(** [.ffill()]: a NaN takes the value of the last cell before it that is
    not NaN, and stays NaN when there is none; [prev] is that value so far. *)
Fixpoint ffill_from (prev : cell) (column : list cell) : list cell :=
  match column with
  | [] => []
  | c :: rest =>
      let v := match c with NaN => prev | Num _ => c end in
      v :: ffill_from v rest
  end.

Definition ffill (column : list cell) : list cell := ffill_from NaN column.

(** [.fillna(v)] *)
Definition fillna (v : Q) (column : list cell) : list cell :=
  (fun c => match c with NaN => Num v | Num _ => c end) <$> column.


End pd.

(** [Strategy/bb_strategy.py] *)
Module bb_strategy.

Import LiveTradingBot.

(** The columns that [bollinger_band_entry_logic] reads, row by row. *)
Record row := {
  close : cell;
  BB_Lower : cell;
  BB_Upper : cell
}.

(** [np.where(df['close'] < df['BB_Lower'], 1,
       np.where(df['close'] > df['BB_Upper'], -1, 0))], for one row. *)
Definition sig (r : row) : Z :=
  if pd.lt (close r) (BB_Lower r) then 1%Z
  else if pd.gt (close r) (BB_Upper r) then (-1)%Z
  else 0%Z.

(** A cell of the column before [.fillna(0)]: NaN, 1 or -1. *)
Definition entry_cell (c : cell) : Prop :=
  c = NaN \/ c = pd.of_int 1 \/ c = pd.of_int (-1).

(** [bollinger_band_entry_logic(df)]: the [Signal] column it writes. *)
Definition bollinger_band_entry_logic (df : list row) : list cell :=
  pd.fillna 0 (pd.ffill (pd.replace_zero <$> (sig <$> df))).

End bb_strategy.

(** [Connection/analyzer.py] *)
Module analyzer.

Import LiveTradingBot.




End analyzer.

(** ** Relations between the state before and after a call *)

(** The peak is the same. *)
Definition peak_kept (st st' : bot) : Prop :=
  peak_portfolio_value st' = peak_portfolio_value st.

(** The peak is not lower. *)
Definition peak_not_lowered (st st' : bot) : Prop :=
  peak_portfolio_value st <= peak_portfolio_value st'.

(** The requests sent before are still there, in front. *)
Definition sent_extended (st st' : bot) : Prop :=
  exists l, sent st' = sent st ++ l.

(** [m] never raises. *)
Definition returns {A} (m : M A) : Prop :=
  forall st, exists a st', m st = (Ret a, st').

(** The count of open slots has not grown. *)
Definition count_not_grown (hedge : bool) (st st' : bot) : Prop :=
  (TradingBot.active_count hedge (positions st')
   <= TradingBot.active_count hedge (positions st))%Z.

(** The slot [k] of the dict under [sym] holds [p]. *)
Definition slot_holds (st : bot) (sym : string) (k : side_key) (p : position) : Prop :=
  exists d, positions st !! sym = Some (Some d) /\ dict_get d k = Some p.

(** Step 8 of a pass of [run]: the exit monitor, run when the price is there
    and not 0. *)
Definition monitor_of_pass (E : env) (tk : LiveTradingBot.tick) : M unit :=
  match LiveTradingBot.truthy (LiveTradingBot.current_price tk) with
  | Some price => TradingBot.check_stop_loss_take_profit E price ;; ret tt
  | None => ret tt
  end.

(** * Properties *)

(** ** Comparisons and rounding *)

Section PyFacts.

Lemma Py_le_iff a b : Py.le a b = true <-> a <= b.
Proof. apply Qle_bool_iff. Qed.

Lemma Py_le_false_iff a b : Py.le a b = false <-> b < a.
Proof.
  unfold Py.le. rewrite <- not_true_iff_false, Qle_bool_iff.
  split; [apply Qnot_le_lt | apply Qlt_not_le].
Qed.

Lemma Py_lt_iff a b : Py.lt a b = true <-> a < b.
Proof. unfold Py.lt. rewrite negb_true_iff. apply Py_le_false_iff. Qed.

Lemma Py_lt_false_iff a b : Py.lt a b = false <-> b <= a.
Proof. unfold Py.lt. rewrite negb_false_iff. apply Qle_bool_iff. Qed.

Lemma Py_ge_iff a b : Py.ge a b = true <-> b <= a.
Proof. apply Py_le_iff. Qed.

Lemma Py_ge_false_iff a b : Py.ge a b = false <-> a < b.
Proof. apply Py_le_false_iff. Qed.

Lemma Py_gt_iff a b : Py.gt a b = true <-> b < a.
Proof. apply Py_lt_iff. Qed.

Lemma Py_gt_false_iff a b : Py.gt a b = false <-> a <= b.
Proof. apply Py_lt_false_iff. Qed.

Lemma Py_eq_iff a b : Py.eq a b = true <-> a == b.
Proof. apply Qeq_bool_iff. Qed.

Lemma Py_eq_false_iff a b : Py.eq a b = false <-> ~ a == b.
Proof. unfold Py.eq. rewrite <- not_true_iff_false, Qeq_bool_iff. tauto. Qed.

Lemma Py_le_proper a a' b b' : a == a' -> b == b' -> Py.le a b = Py.le a' b'.
Proof.
  intros Ha Hb. apply eq_true_iff_eq. rewrite !Py_le_iff, Ha, Hb. tauto.
Qed.

Lemma Py_eq_proper a a' b b' : a == a' -> b == b' -> Py.eq a b = Py.eq a' b'.
Proof.
  intros Ha Hb. apply eq_true_iff_eq. rewrite !Py_eq_iff, Ha, Hb. tauto.
Qed.

(** [round] stays within one half of its argument. *)
Lemma Py_round_near x : Qabs (x - inject_Z (Py.round x)) <= 1 # 2.
Proof.
  unfold Py.round.
  pose proof (Qfloor_le x) as Hlo.
  pose proof (Qlt_floor x) as Hhi.
  rewrite inject_Z_plus in Hhi. change (inject_Z 1) with 1 in Hhi.
  apply Qabs_Qle_condition.
  destruct (Qcompare (x - inject_Z (Qfloor x)) (1 # 2)) eqn:Hc.
  - apply Qeq_alt in Hc.
    destruct (Z.even (Qfloor x));
      [| rewrite inject_Z_plus; change (inject_Z 1) with 1]; split; lra.
  - apply Qlt_alt in Hc. split; lra.
  - apply Qgt_alt in Hc. rewrite inject_Z_plus. change (inject_Z 1) with 1.
    split; lra.
Qed.

(** On an integer, [round] is the identity. *)
Lemma Py_round_integer x n : x == inject_Z n -> Py.round x = n.
Proof.
  intros Hx. unfold Py.round.
  assert (Hf : Qfloor x = n) by (rewrite Hx; apply Qfloor_Z).
  rewrite Hf.
  assert (Hc : Qcompare (x - inject_Z n) (1 # 2) = Lt)
    by (apply (proj1 (Qlt_alt _ _)); lra).
  by rewrite Hc.
Qed.

End PyFacts.

(** ** RiskSizer *)

Section RiskSizer.

Variable c : config.t.

Lemma calculate_position_size_denied symbol entry_price stop_loss_price :
  symbol ∉ config.TRADEABLE_ASSETS c \/ entry_price <= 0 \/ stop_loss_price <= 0
    \/ entry_price == stop_loss_price ->
  config.calculate_position_size c symbol entry_price stop_loss_price = 0.
Proof.
  intros H. unfold config.calculate_position_size.
  case_bool_decide as Hin; cbn [negb]; [| done].
  destruct (Py.le entry_price 0) eqn:He; cbn [orb]; [done |].
  destruct (Py.le stop_loss_price 0) eqn:Hs; [done |].
  destruct (Py.eq _ 0) eqn:Hd; [done |].
  apply Py_le_false_iff in He, Hs. apply Py_eq_false_iff in Hd.
  destruct H as [H | [H | [H | H]]]; [done | lra | lra |].
  exfalso. apply Hd.
  assert (Hz : entry_price - stop_loss_price == 0) by lra.
  rewrite Hz. reflexivity.
Qed.

Lemma calculate_position_size_granted symbol entry_price stop_loss_price :
  symbol ∈ config.TRADEABLE_ASSETS c -> 0 < entry_price -> 0 < stop_loss_price ->
  ~ entry_price == stop_loss_price ->
  config.calculate_position_size c symbol entry_price stop_loss_price
  = (config.TOTAL_PORTFOLIO_CAPITAL_USD c * config.RISK_PER_TRADE_PERCENT c)
    / Qabs (entry_price - stop_loss_price).
Proof.
  intros Hin He Hs Hne. unfold config.calculate_position_size.
  rewrite bool_decide_eq_true_2 by done. cbn [negb].
  apply Py_le_false_iff in He, Hs. rewrite He, Hs. cbn [orb].
  destruct (Py.eq _ 0) eqn:Hd; [| done].
  exfalso. apply Py_eq_iff in Hd. apply Hne.
  assert (Hle : Qabs (entry_price - stop_loss_price) <= 0)
    by (rewrite Hd; apply Qle_refl).
  apply Qabs_Qle_condition in Hle. lra.
Qed.

(** Equal numbers give equal sizes. *)
Lemma calculate_position_size_proper symbol e e' s s' :
  e == e' -> s == s' ->
  config.calculate_position_size c symbol e s
  == config.calculate_position_size c symbol e' s'.
Proof.
  intros He Hs. unfold config.calculate_position_size.
  rewrite (Py_le_proper e e' 0 0), (Py_le_proper s s' 0 0) by (done || reflexivity).
  assert (Hd : Qabs (e - s) == Qabs (e' - s')) by (rewrite He, Hs; reflexivity).
  rewrite (Py_eq_proper _ _ 0 0 Hd) by reflexivity.
  destruct (negb _); [reflexivity |].
  destruct (_ || _); [reflexivity |].
  destruct (Py.eq _ 0); [reflexivity |].
  rewrite Hd. reflexivity.
Qed.

End RiskSizer.

(** C2.  [calculate_position_size] returns 0 when the symbol is not in the
    allow-list, when the entry or the stop price is not positive, or when
    the two prices are equal; otherwise it returns exactly
    [(capital * riskFraction) / |entry - stop|]; and it is a function of its
    inputs and the configured capital and risk fraction: equal inputs give
    equal sizes. *)
Theorem calculate_position_size_spec (c : config.t) (symbol : string)
    (entry_price stop_loss_price : Q) :
  (symbol ∉ config.TRADEABLE_ASSETS c \/ entry_price <= 0 \/ stop_loss_price <= 0
     \/ entry_price == stop_loss_price ->
   config.calculate_position_size c symbol entry_price stop_loss_price = 0)
  /\ (symbol ∈ config.TRADEABLE_ASSETS c -> 0 < entry_price -> 0 < stop_loss_price ->
      ~ entry_price == stop_loss_price ->
      config.calculate_position_size c symbol entry_price stop_loss_price
      = (config.TOTAL_PORTFOLIO_CAPITAL_USD c * config.RISK_PER_TRADE_PERCENT c)
        / Qabs (entry_price - stop_loss_price))
  /\ (forall entry_price' stop_loss_price',
        entry_price == entry_price' -> stop_loss_price == stop_loss_price' ->
        config.calculate_position_size c symbol entry_price stop_loss_price
        == config.calculate_position_size c symbol entry_price' stop_loss_price').
Proof.
  split; [| split].
  - apply calculate_position_size_denied.
  - apply calculate_position_size_granted.
  - intros. by apply calculate_position_size_proper.
Qed.

(** The sizes of the specification's example: entry 100 and stop 98 with the
    configured capital 100000 and risk 1% give 500 units; entry = stop
    gives 0. *)
Lemma calculate_position_size_spec_witness :
  config.calculate_position_size config.source "BTC/USDT" 100 98 == 500
  /\ config.calculate_position_size config.source "BTC/USDT" 100 100 = 0.
Proof.
  split.
  - rewrite (proj1 (proj2 (calculate_position_size_spec config.source "BTC/USDT" 100 98))).
    + vm_compute. reflexivity.
    + simpl. constructor.
    + reflexivity.
    + reflexivity.
    + vm_compute. discriminate.
  - apply (proj1 (calculate_position_size_spec config.source "BTC/USDT" 100 100)).
    right. right. right. reflexivity.
Defined.

(** ** The drawdown gate *)

Section Drawdown.

Variable E : env.

(** The peak after the update is the larger of the old peak and the value. *)
Lemma peak_update_max (peak v : Q) :
  (if Py.gt v peak then v else peak) = Qmax peak v.
Proof.
  unfold Qmax, GenericMinMax.gmax.
  destruct (Qcompare peak v) eqn:Hc; destruct (Py.gt v peak) eqn:Hgt; try done;
    exfalso.
  - apply (proj2 (Qeq_alt _ _)) in Hc. apply Py_gt_iff in Hgt. lra.
  - apply (proj2 (Qlt_alt _ _)) in Hc. apply Py_gt_false_iff in Hgt. lra.
  - apply (proj2 (Qgt_alt _ _)) in Hc. apply Py_gt_iff in Hgt. lra.
Qed.

Lemma check_global_drawdown_defined (v : Q) (st : bot) :
  let peak := Qmax (peak_portfolio_value st) v in
  ~ peak == 0 ->
  TradingBot.check_global_drawdown E v st
  = (Ret (Py.ge ((peak - v) / peak) (global_drawdown_limit E)), with_peak peak st).
Proof.
  intros peak Hpeak. subst peak.
  rewrite <- peak_update_max in *.
  unfold TradingBot.check_global_drawdown, bind, get_peak, set_peak, ret, raise.
  destruct (Py.gt v (peak_portfolio_value st)) eqn:Hgt; cbn [peak_portfolio_value with_peak].
  - apply Py_eq_false_iff in Hpeak. rewrite Hpeak.
    by destruct (Py.ge _ _).
  - apply Py_eq_false_iff in Hpeak. rewrite Hpeak.
    destruct st. by destruct (Py.ge _ _).
Qed.

Lemma check_global_drawdown_zero_peak (v : Q) (st : bot) :
  Qmax (peak_portfolio_value st) v == 0 ->
  fst (TradingBot.check_global_drawdown E v st) = Raise ZeroDivisionError.
Proof.
  intros Hpeak. rewrite <- peak_update_max in Hpeak.
  unfold TradingBot.check_global_drawdown, bind, get_peak, set_peak, ret, raise.
  destruct (Py.gt v (peak_portfolio_value st)) eqn:Hgt; cbn [peak_portfolio_value with_peak];
    apply Py_eq_iff in Hpeak; by rewrite Hpeak.
Qed.

(** With no balance the gate is not consulted: a call with a balance whose
    check passes continues as the call without balance does. *)
Lemma execute_signal_gate signal price (v : Q) (st : bot) :
  signal <> 0%Z ->
  TradingBot.execute_signal E signal price (Some v) st
  = match TradingBot.check_global_drawdown E v st with
    | (Ret true, st') => (Ret false, st')
    | (Ret false, st') => TradingBot.execute_signal E signal price None st'
    | (Raise e, st') => (Raise e, st')
    end.
Proof.
  intros Hs. apply Z.eqb_neq in Hs.
  unfold TradingBot.execute_signal. rewrite Hs.
  unfold TradingBot.drawdown_gate.
  unfold bind at 1. unfold bind at 4.
  destruct (TradingBot.check_global_drawdown E v st) as [[[] | e] st']; done.
Qed.

End Drawdown.

(** C3.  With a portfolio value [v] the peak becomes [max(peak, v)], the
    drawdown is [(peak - v) / peak], and the check halts exactly when the
    drawdown is at least the limit; [execute_signal] then refuses the entry
    and touches neither ledger nor exchange, and otherwise goes on as the
    call without a balance does.  The verdict is computed afresh from the
    peak and the value on every call: after any call, a value whose ratio is
    under the limit is let through again. *)
Theorem drawdown_gate_spec (E : env) (st : bot) (v : Q) :
  let peak := Qmax (peak_portfolio_value st) v in
  let drawdown := (peak - v) / peak in
  ~ peak == 0 ->
  TradingBot.check_global_drawdown E v st
  = (Ret (Py.ge drawdown (global_drawdown_limit E)), with_peak peak st)
  /\ positions (with_peak peak st) = positions st
  /\ (forall signal price, signal <> 0%Z ->
        global_drawdown_limit E <= drawdown ->
        TradingBot.execute_signal E signal price (Some v) st
        = (Ret false, with_peak peak st))
  /\ (forall signal price, signal <> 0%Z ->
        drawdown < global_drawdown_limit E ->
        TradingBot.execute_signal E signal price (Some v) st
        = TradingBot.execute_signal E signal price None (with_peak peak st))
  /\ (forall v2,
        let peak2 := Qmax peak v2 in
        ~ peak2 == 0 ->
        (peak2 - v2) / peak2 < global_drawdown_limit E ->
        TradingBot.check_global_drawdown E v2 (with_peak peak st)
        = (Ret false, with_peak peak2 st)).
Proof.
  intros peak drawdown Hpeak.
  pose proof (check_global_drawdown_defined E v st Hpeak) as Hcheck.
  fold peak in Hcheck. fold drawdown in Hcheck.
  split; [exact Hcheck |]. split; [reflexivity |]. split; [| split].
  - intros signal price Hs Hdd.
    rewrite execute_signal_gate by done. rewrite Hcheck.
    apply Py_ge_iff in Hdd. by rewrite Hdd.
  - intros signal price Hs Hdd.
    rewrite execute_signal_gate by done. rewrite Hcheck.
    apply Py_ge_false_iff in Hdd. by rewrite Hdd.
  - intros v2 peak2 Hpeak2 Hdd.
    pose proof (check_global_drawdown_defined E v2 (with_peak peak st)) as H2.
    cbn [peak_portfolio_value with_peak] in H2. fold peak2 in H2.
    rewrite (H2 Hpeak2). apply Py_ge_false_iff in Hdd. by rewrite Hdd.
Qed.

(** The boundary of the specification: a peak of 100000 and a limit of 0.20
    halt at 79999 and at exactly 80000, and do not halt at 80001. *)
Lemma drawdown_gate_spec_witness :
  let st := TradingBot.init config.source [] in
  fst (TradingBot.check_global_drawdown Scenario.one_way_env 79999 st) = Ret true
  /\ fst (TradingBot.check_global_drawdown Scenario.one_way_env 80000 st) = Ret true
  /\ fst (TradingBot.check_global_drawdown Scenario.one_way_env 80001 st) = Ret false.
Proof.
  intros st. split; [| split].
  - rewrite (proj1 (drawdown_gate_spec Scenario.one_way_env st 79999 ltac:(vm_compute; discriminate))).
    vm_compute. reflexivity.
  - rewrite (proj1 (drawdown_gate_spec Scenario.one_way_env st 80000 ltac:(vm_compute; discriminate))).
    vm_compute. reflexivity.
  - rewrite (proj1 (drawdown_gate_spec Scenario.one_way_env st 80001 ltac:(vm_compute; discriminate))).
    vm_compute. reflexivity.
Defined.

(** C8, as stated, fails: with a peak of 0 and a portfolio value of 0 the
    check divides by zero; it does not return [False]. *)
Lemma zero_peak_division_by_zero :
  let E := Scenario.bot_env Scenario.zero_capital Scenario.one_way in
  let st := TradingBot.init Scenario.zero_capital [] in
  peak_portfolio_value st == 0
  /\ TradingBot.check_global_drawdown E 0 st = (Raise ZeroDivisionError, st)
  /\ fst (TradingBot.check_global_drawdown E 0 st) <> Ret false.
Proof.
  vm_compute. repeat split; congruence.
Qed.

(** C8, amended.  The check has no guard for the division.  With a peak of
    0, a positive portfolio value becomes the peak before the division, the
    drawdown is 0, and with a positive limit the check returns [False]; a
    value that is not positive leaves the peak at 0 and the division
    raises. *)
Theorem zero_peak_positive_value (E : env) (st : bot) (v : Q) :
  peak_portfolio_value st == 0 ->
  (0 < v -> 0 < global_drawdown_limit E ->
   TradingBot.check_global_drawdown E v st = (Ret false, with_peak v st))
  /\ (v <= 0 ->
      TradingBot.check_global_drawdown E v st = (Raise ZeroDivisionError, st)).
Proof.
  intros Hpeak. split.
  - intros Hv Hlimit.
    assert (Hmax : Qmax (peak_portfolio_value st) v = v).
    { rewrite <- peak_update_max.
      assert (Hgt : Py.gt v (peak_portfolio_value st) = true) by (apply Py_gt_iff; lra).
      by rewrite Hgt. }
    pose proof (check_global_drawdown_defined E v st) as Hcheck.
    cbv zeta in Hcheck. rewrite Hmax in Hcheck.
    rewrite Hcheck by lra.
    assert (Hge : Py.ge ((v - v) / v) (global_drawdown_limit E) = false).
    { apply Py_ge_false_iff.
      assert (Hz : (v - v) / v == 0) by (field; lra). lra. }
    by rewrite Hge.
  - intros Hv.
    unfold TradingBot.check_global_drawdown, bind, get_peak, ret, raise.
    assert (Hgt : Py.gt v (peak_portfolio_value st) = false)
      by (apply Py_gt_false_iff; lra).
    rewrite Hgt. apply Py_eq_iff in Hpeak. by rewrite Hpeak.
Qed.

(** A bot configured with a capital of 0: a value of 1000 passes, a value
    of -5 raises. *)
Lemma zero_peak_positive_value_witness :
  let E := Scenario.bot_env Scenario.zero_capital Scenario.one_way in
  let st := TradingBot.init Scenario.zero_capital [] in
  TradingBot.check_global_drawdown E 1000 st = (Ret false, with_peak 1000 st)
  /\ TradingBot.check_global_drawdown E (-5) st = (Raise ZeroDivisionError, st).
Proof.
  intros E st.
  pose proof (zero_peak_positive_value E st 1000 ltac:(reflexivity)) as [Hpos _].
  pose proof (zero_peak_positive_value E st (-5) ltac:(reflexivity)) as [_ Hneg].
  split; [apply Hpos; reflexivity | apply Hneg; discriminate].
Defined.

(** ** Quantities sent by the direct API *)

Section Quantity.

(** The step-rounded amount is a whole number of steps. *)
Lemma round_to_step_multiple (qty_step amount : Q) :
  0 < qty_step ->
  TradingBot.round_to_step qty_step amount
  = inject_Z (Py.round (amount / qty_step)) * qty_step.
Proof.
  intros Hstep. unfold TradingBot.round_to_step.
  apply Py_gt_iff in Hstep. by rewrite Hstep.
Qed.

(** No other multiple of the step is closer to the amount. *)
Lemma round_to_step_nearest (qty_step amount : Q) :
  0 < qty_step ->
  Qabs (amount - TradingBot.round_to_step qty_step amount) <= qty_step * (1 # 2).
Proof.
  intros Hstep. rewrite round_to_step_multiple by done.
  pose proof (Py_round_near (amount / qty_step)) as Hnear.
  apply Qabs_Qle_condition in Hnear. apply Qabs_Qle_condition.
  set (r := inject_Z (Py.round (amount / qty_step))) in *.
  assert (Ha : amount == (amount / qty_step) * qty_step) by (field; lra).
  set (x := amount / qty_step) in *.
  destruct Hnear as [Hlo Hhi].
  assert (Hlo' : (- (1 # 2)) * qty_step <= (x - r) * qty_step)
    by (apply Qmult_le_compat_r; lra).
  assert (Hhi' : (x - r) * qty_step <= (1 # 2) * qty_step)
    by (apply Qmult_le_compat_r; lra).
  split; lra.
Qed.

Lemma rejects_amount_never (amount : Q) : TradingBot.rejects_amount amount = false.
Proof.
  unfold TradingBot.rejects_amount.
  destruct (Py.gt amount 10); [done |].
  destruct (Py.lt amount (1 # 10000)) eqn:Hsmall; [done |].
  destruct (Py.le amount 0) eqn:Hneg; [| done].
  apply Py_lt_false_iff in Hsmall. apply Py_le_iff in Hneg. lra.
Qed.

Lemma pow10_pos (n : nat) : 0 < inject_Z (10 ^ Z.of_nat n).
Proof.
  change 0 with (inject_Z 0). rewrite <- Zlt_Qlt.
  apply Z.pow_pos_nonneg; lia.
Qed.

(** Printing with [n] decimals keeps a number that has [n] decimals. *)
Lemma round_to_decimal (x : Q) (n : nat) (k : Z) :
  x * inject_Z (10 ^ Z.of_nat n) == inject_Z k -> Py.round_to x n == x.
Proof.
  intros Hk. unfold Py.round_to.
  rewrite (Py_round_integer _ k Hk).
  pose proof (pow10_pos n) as Hpos.
  rewrite <- Hk. field. lra.
Qed.

End Quantity.

(** ** The quantity as text *)

Section Decimal.

Lemma digit_cases (d : Z) :
  (0 <= d < 10)%Z ->
  (d = 0 \/ d = 1 \/ d = 2 \/ d = 3 \/ d = 4 \/ d = 5 \/ d = 6 \/ d = 7 \/ d = 8
   \/ d = 9)%Z.
Proof. lia. Qed.

Ltac each_digit H :=
  apply digit_cases in H;
  destruct H as [-> | [-> | [-> | [-> | [-> | [-> | [-> | [-> | [-> | ->]]]]]]]]].

Lemma digit_value_digit d : (0 <= d < 10)%Z -> Py.digit_value (Py.digit d) = Some d.
Proof. intros H. each_digit H; reflexivity. Qed.

Lemma is_digit_value c : Py.is_digit c -> exists d, Py.digit_value c = Some d.
Proof. intros (d & Hd & ->). exists d. by apply digit_value_digit. Qed.

Lemma is_digit_not_point c : Py.is_digit c -> Ascii.eqb c "." = false.
Proof. intros (d & Hd & ->). each_digit Hd; reflexivity. Qed.

Lemma is_digit_not_minus c : Py.is_digit c -> Ascii.eqb c "-" = false.
Proof. intros (d & Hd & ->). each_digit Hd; reflexivity. Qed.

Lemma is_digit_digit d : (0 <= d < 10)%Z -> Py.is_digit (Py.digit d).
Proof. intros H. by exists d. Qed.

Lemma zero_digit_value c :
  Ascii.eqb c "0" = true -> Py.digit_value c = Some 0%Z.
Proof. intros H. apply Ascii.eqb_eq in H. by subst. Qed.

Lemma digits_value_snoc acc l c :
  Py.digits_value acc (l ++ [c])
  = match Py.digits_value acc l, Py.digit_value c with
    | Some v, Some d => Some (10 * v + d)%Z
    | _, _ => None
    end.
Proof.
  revert acc. induction l as [| x l IH]; intros acc; cbn.
  - by destruct (Py.digit_value c).
  - destruct (Py.digit_value x); [apply IH | done].
Qed.

Lemma low_digits_spec k m :
  Py.digits_value 0 (Py.low_digits k m) = Some (m mod 10 ^ Z.of_nat k)%Z
  /\ Forall Py.is_digit (Py.low_digits k m)
  /\ length (Py.low_digits k m) = k.
Proof.
  revert m. induction k as [| k IH]; intros m.
  - cbn. split; [by rewrite Z.mod_1_r | split; [constructor | done]].
  - cbn [Py.low_digits]. destruct (IH (m / 10)%Z) as (Hv & Hd & Hl).
    assert (Hlast : (0 <= m mod 10 < 10)%Z) by (apply Z.mod_pos_bound; lia).
    split; [| split].
    + rewrite digits_value_snoc, Hv, digit_value_digit by done. f_equal.
      rewrite Nat2Z.inj_succ, Z.pow_succ_r by lia.
      rewrite Z.rem_mul_r by lia. lia.
    + apply Forall_app. split; [done |]. constructor; [by apply is_digit_digit | constructor].
    + rewrite length_app, Hl. cbn. lia.
Qed.

Lemma int_digits_spec fuel m :
  (0 <= m < 10 ^ Z.of_nat (S fuel))%Z ->
  Py.digits_value 0 (Py.int_digits fuel m) = Some m
  /\ Forall Py.is_digit (Py.int_digits fuel m)
  /\ Py.int_digits fuel m <> [].
Proof.
  revert m. induction fuel as [| fuel IH]; intros m Hm.
  - cbn [Py.int_digits]. change (10 ^ Z.of_nat 1)%Z with 10%Z in Hm.
    rewrite Z.mod_small by done.
    split; [| split; [| done]].
    + cbn. by rewrite digit_value_digit.
    + constructor; [by apply is_digit_digit | constructor].
  - cbn [Py.int_digits]. destruct (m <? 10)%Z eqn:Hsmall.
    + apply Z.ltb_lt in Hsmall.
      split; [| split; [| done]].
      * cbn. rewrite digit_value_digit by lia. done.
      * constructor; [apply is_digit_digit; lia | constructor].
    + apply Z.ltb_ge in Hsmall.
      assert (Hlast : (0 <= m mod 10 < 10)%Z) by (apply Z.mod_pos_bound; lia).
      destruct (IH (m / 10)%Z) as (Hv & Hd & Hne).
      { split; [apply Z.div_pos; lia |].
        apply Z.div_lt_upper_bound; [lia |].
        rewrite (Nat2Z.inj_succ (S fuel)), Z.pow_succ_r in Hm by lia. lia. }
      split; [| split].
      * rewrite digits_value_snoc, Hv, digit_value_digit by done. f_equal.
        pose proof (Z.div_mod m 10). lia.
      * apply Forall_app. split; [done |].
        constructor; [by apply is_digit_digit | constructor].
      * by destruct (Py.int_digits fuel (m / 10)).
Qed.

Lemma str_int_spec m :
  (0 <= m)%Z ->
  Py.digits_value 0 (Py.str_int m) = Some m
  /\ Forall Py.is_digit (Py.str_int m)
  /\ Py.str_int m <> [].
Proof.
  intros Hm. apply int_digits_spec. split; [done |].
  destruct (Z.eq_dec m 0%Z) as [-> | Hne]; [cbn; lia |].
  pose proof (Z.log2_spec m ltac:(lia)) as [_ Hup].
  pose proof (Z.log2_nonneg m) as Hlog.
  rewrite Nat2Z.inj_succ, Z2Nat.id by done.
  eapply Z.lt_le_trans; [exact Hup |].
  apply Z.pow_le_mono_l. lia.
Qed.

Lemma split_point_digits whole :
  Forall Py.is_digit whole -> Py.split_point whole = (whole, None).
Proof.
  induction 1 as [| c whole Hc Hwhole IH]; [done |].
  cbn. by rewrite (is_digit_not_point c Hc), IH.
Qed.

Lemma split_point_at_point whole rest :
  Forall Py.is_digit whole ->
  Py.split_point (whole ++ "."%char :: rest) = (whole, Some rest).
Proof.
  induction 1 as [| c whole Hc Hwhole IH]; [done |].
  cbn. by rewrite (is_digit_not_point c Hc), IH.
Qed.

Lemma rstrip_chars_snoc c l x :
  Py.rstrip_chars c (l ++ [x])
  = if Ascii.eqb x c then Py.rstrip_chars c l else l ++ [x].
Proof.
  unfold Py.rstrip_chars. rewrite rev_unit. cbn [Py.lstrip_chars].
  destruct (Ascii.eqb x c); [done |].
  cbn [rev]. by rewrite rev_involutive.
Qed.

Lemma rstrip_text c s :
  Py.rstrip c (String.string_of_list_ascii s)
  = String.string_of_list_ascii (Py.rstrip_chars c s).
Proof. unfold Py.rstrip. by rewrite String.list_ascii_of_string_of_list_ascii. Qed.

(** Stripping the zeros at the end of the digits after the point leaves
    digits that denote the same fraction. *)
Lemma rstrip_zeros_after_point pre frac f :
  Forall Py.is_digit frac ->
  Py.digits_value 0 frac = Some f ->
  exists frac' f',
    Py.rstrip_chars "0" (pre ++ "."%char :: frac) = pre ++ "."%char :: frac'
    /\ Forall Py.is_digit frac'
    /\ Py.digits_value 0 frac' = Some f'
    /\ inject_Z f' / inject_Z (10 ^ Z.of_nat (length frac'))
       == inject_Z f / inject_Z (10 ^ Z.of_nat (length frac)).
Proof.
  revert f. induction frac as [| c frac IH] using rev_ind; intros f Hd Hf.
  - exists [], f. split; [| done].
    change (pre ++ ["."%char]) with (pre ++ ["."%char]).
    by rewrite rstrip_chars_snoc.
  - apply Forall_app in Hd as [Hd Hc]. apply Forall_cons in Hc as [Hc _].
    rewrite digits_value_snoc in Hf.
    destruct (Py.digits_value 0 frac) as [v |] eqn:Hv; [| done].
    change (pre ++ "."%char :: frac ++ [c]) with (pre ++ ("."%char :: frac) ++ [c]).
    rewrite app_assoc, rstrip_chars_snoc.
    destruct (Ascii.eqb c "0") eqn:Hzero.
    + rewrite (zero_digit_value c Hzero) in Hf. inversion Hf; subst f.
      destruct (IH v Hd eq_refl) as (frac' & f' & Hs & Hd' & Hf' & Hq).
      exists frac', f'. split; [exact Hs |]. split; [exact Hd' |]. split; [exact Hf' |].
      rewrite Hq, length_app. cbn [length].
      replace (Z.of_nat (length frac + 1)) with (Z.succ (Z.of_nat (length frac))) by lia.
      rewrite Z.pow_succ_r by lia. rewrite Z.add_0_r, !inject_Z_mult.
      pose proof (pow10_pos (length frac)) as Hpos.
      change (inject_Z 10) with 10. field. lra.
    + exists (frac ++ [c]), f. rewrite <- app_assoc.
      split; [done |]. split; [| split; [| done]].
      * apply Forall_app. split; [done | by constructor].
      * by rewrite digits_value_snoc, Hv.
Qed.

(** The point goes when no digit is left after it, and only then. *)
Lemma rstrip_point pre x frac :
  Py.is_digit x -> Forall Py.is_digit frac ->
  Py.rstrip_chars "." ((pre ++ [x]) ++ "."%char :: frac)
  = if frac is [] then pre ++ [x] else (pre ++ [x]) ++ "."%char :: frac.
Proof.
  intros Hx Hfrac. destruct frac as [| c frac] using rev_ind.
  - rewrite rstrip_chars_snoc. change (Ascii.eqb "." ".") with true. cbn iota.
    by rewrite rstrip_chars_snoc, (is_digit_not_point x Hx).
  - clear IHfrac. apply Forall_app in Hfrac as [_ Hc]. apply Forall_cons in Hc as [Hc _].
    change ((pre ++ [x]) ++ "."%char :: frac ++ [c])
      with ((pre ++ [x]) ++ ("."%char :: frac) ++ [c]).
    rewrite app_assoc, rstrip_chars_snoc, (is_digit_not_point c Hc).
    rewrite <- app_assoc. by destruct frac.
Qed.

Lemma Py_round_sign x :
  (x < 0 -> (Py.round x <= 0)%Z) /\ (0 <= x -> (0 <= Py.round x)%Z).
Proof.
  pose proof (Py_round_near x) as Hnear. apply Qabs_Qle_condition in Hnear.
  destruct Hnear as [Hlo Hhi]. split; intros Hx.
  - apply Z.lt_succ_r. rewrite Zlt_Qlt. change (inject_Z (Z.succ 0)) with 1. lra.
  - apply Z.lt_pred_le. rewrite Zlt_Qlt. change (inject_Z (Z.pred 0)) with (-1 # 1). lra.
Qed.

(** What is left of the digits of a number with a point after the two
    strips denotes the number that was printed. *)
Lemma format_fixed_denotes x n :
  n <> 0%nat ->
  exists q,
    Py.number_of (Py.rstrip "." (Py.rstrip "0" (Py.format_fixed x n))) = Some q
    /\ q == Py.round_to x n.
Proof.
  intros Hn. destruct n as [| n]; [done |]. clear Hn.
  unfold Py.format_fixed, Py.round_to.
  set (p := (10 ^ Z.of_nat (S n))%Z).
  assert (Hp : (0 < p)%Z) by (apply Z.pow_pos_nonneg; lia).
  set (r := Py.round (x * inject_Z p)).
  set (scaled := Z.abs r).
  assert (Hscaled : (0 <= scaled)%Z) by apply Z.abs_nonneg.
  destruct (str_int_spec (scaled / p)%Z) as (Hw & Hwd & Hwne);
    [apply Z.div_pos; lia |].
  destruct (low_digits_spec (S n) (scaled mod p)%Z) as (Hf & Hfd & Hfl).
  fold p in Hf. rewrite Z.mod_mod in Hf by lia.
  set (whole := Py.str_int (scaled / p)) in *.
  set (frac := Py.low_digits (S n) (scaled mod p)) in *.
  set (sign := if Py.lt x 0 then ["-"%char] else []).
  destruct (rstrip_zeros_after_point (sign ++ whole) frac _ Hfd Hf)
    as (frac' & f' & Hstrip & Hfd' & Hf' & Hq).
  rewrite Hfl in Hq. fold p in Hq.
  rewrite rstrip_text, (app_assoc sign whole), Hstrip, rstrip_text.
  destruct (exists_last Hwne) as (w0 & x0 & Hwhole).
  assert (Hx0 : Py.is_digit x0).
  { rewrite Hwhole in Hwd. apply Forall_app in Hwd as [_ Hx0].
    by apply Forall_cons in Hx0 as [Hx0 _]. }
  assert (Hleft : Py.rstrip_chars "." ((sign ++ whole) ++ "."%char :: frac')
                  = if frac' is [] then sign ++ whole
                    else sign ++ whole ++ "."%char :: frac').
  { rewrite Hwhole, (app_assoc sign w0 [x0]), (rstrip_point _ x0 frac' Hx0 Hfd').
    destruct frac'; [done | by rewrite <- !app_assoc]. }
  rewrite Hleft. clear Hleft Hstrip.
  assert (Hvalue : inject_Z (scaled / p) + inject_Z f' / inject_Z (10 ^ Z.of_nat (length frac'))
                   == inject_Z scaled / inject_Z p).
  { rewrite Hq. pose proof (Z.div_mod scaled p ltac:(lia)) as Hdm.
    assert (Hpq : 0 < inject_Z p) by (change 0 with (inject_Z 0); by rewrite <- Zlt_Qlt).
    rewrite Hdm at 3. rewrite inject_Z_plus, inject_Z_mult. field. lra. }
  assert (Hparse : forall text,
            text = whole \/ text = whole ++ "."%char :: frac' ->
            (text = whole -> frac' = []) ->
            exists q, Py.number_of (String.string_of_list_ascii (sign ++ text)) = Some q
                      /\ q == inject_Z r / inject_Z p).
  { intros text Htext Hnofrac. unfold Py.number_of.
    rewrite String.list_ascii_of_string_of_list_ascii.
    assert (Hsplit : Py.split_point text = (whole, if decide (text = whole) then None else Some frac')).
    { destruct Htext as [-> | ->].
      - rewrite decide_True by done. by apply split_point_digits.
      - rewrite decide_False; [by apply split_point_at_point |].
        intros Heq. apply (f_equal length) in Heq. rewrite length_app in Heq. cbn in Heq. lia. }
    assert (Hfrac : Py.digits_value 0 (default [] (if decide (text = whole) then None else Some frac'))
                    = Some f'
                    /\ length (default [] (if decide (text = whole) then None else Some frac'))
                       = length frac').
    { destruct (decide (text = whole)) as [Heq | Hneq]; [| done].
      rewrite (Hnofrac Heq) in Hf' |- *. done. }
    destruct Hfrac as [Hfv Hfl'].
    assert (Htexthead : exists c rest, text = c :: rest /\ Py.is_digit c).
    { destruct whole as [| c rest]; [done |]. apply Forall_cons in Hwd as [Hc _].
      destruct Htext as [-> | ->]; eauto. }
    destruct Htexthead as (c & rest & Hc & Hcd).
    subst sign. destruct (Py.lt x 0) eqn:Hneg.
    - cbn [app]. change (Ascii.eqb "-" "-") with true. cbn iota.
      rewrite Hsplit.
      destruct whole as [| c0 rest0]; [done |].
      rewrite Hw, Hfv, Hfl'. eexists. split; [reflexivity |].
      rewrite Hvalue. apply Py_lt_iff in Hneg.
      assert (Hr : (r <= 0)%Z).
      { apply (proj1 (Py_round_sign _)).
        assert (Hpq : 0 < inject_Z p) by (change 0 with (inject_Z 0); by rewrite <- Zlt_Qlt).
        setoid_replace 0 with (0 * inject_Z p) using relation Qeq by ring.
        apply Qmult_lt_compat_r; done. }
      subst scaled. rewrite Z.abs_neq by done. rewrite inject_Z_opp.
      assert (Hpq : 0 < inject_Z p) by (change 0 with (inject_Z 0); by rewrite <- Zlt_Qlt).
      field. lra.
    - cbn [app]. rewrite Hc. rewrite (is_digit_not_minus c Hcd). rewrite <- Hc.
      rewrite Hsplit.
      destruct whole as [| c0 rest0]; [done |].
      rewrite Hw, Hfv, Hfl'. eexists. split; [reflexivity |].
      rewrite Hvalue. apply Py_lt_false_iff in Hneg.
      assert (Hr : (0 <= r)%Z).
      { apply (proj2 (Py_round_sign _)).
        assert (Hpq : 0 < inject_Z p) by (change 0 with (inject_Z 0); by rewrite <- Zlt_Qlt).
        apply Qmult_le_0_compat; lra. }
      subst scaled. by rewrite Z.abs_eq. }
  destruct frac' as [| c' frac''].
  - apply Hparse; [by left | done].
  - apply Hparse; [by right |].
    intros Heq. apply (f_equal length) in Heq. rewrite length_app in Heq. cbn in Heq. lia.
Qed.

End Decimal.
(** ** The quantity posted by the direct API *)

Section PostedQuantity.

Lemma decimal_places_zero (qty_step : Q) :
  TradingBot.decimal_places qty_step = 0%nat <-> 1 <= qty_step.
Proof.
  unfold TradingBot.decimal_places.
  destruct (Py.ge qty_step 1) eqn:H1.
  - apply Py_ge_iff in H1. done.
  - apply Py_ge_false_iff in H1.
    destruct (Py.ge qty_step (1 # 10)); [split; [done | lra] |].
    destruct (Py.ge qty_step (1 # 100)); [split; [done | lra] |].
    destruct (Py.ge qty_step (1 # 1000)); split; (done || lra).
Qed.

(** The minimum replaces a rounded amount under it, and no other. *)
Lemma btc_amount_rounded_min (qty_step min_qty amount : Q) :
  let rounded := TradingBot.round_to_step qty_step amount in
  let final := TradingBot.btc_amount_rounded qty_step min_qty amount in
  (rounded < min_qty -> final = min_qty) /\ (min_qty <= rounded -> final = rounded).
Proof.
  intros rounded final. subst final. unfold TradingBot.btc_amount_rounded. fold rounded.
  split.
  - intros Hlt. apply Py_lt_iff in Hlt. by rewrite Hlt.
  - intros Hge. apply Py_lt_false_iff in Hge. by rewrite Hge.
Qed.

(** No amount is rejected: with a price, the order is posted, with the
    quantity as text. *)
Lemma place_order_direct_api_run s amount idx price info accepted st :
  TradingBot._place_order_direct_api s amount idx (Some price) info accepted st
  = (Ret accepted,
     with_sent (sent st ++ [DirectOrder s (TradingBot.quantity info amount) idx]) st).
Proof. unfold TradingBot._place_order_direct_api. by rewrite rejects_amount_never. Qed.

(** With a step under 1 the quantity is printed with a point, and the text
    posted denotes the amount as the printing rounds it. *)
Lemma quantity_denotes (info : option instrument) (amount : Q) :
  let qty_step := TradingBot.qty_step_of info in
  let min_qty := TradingBot.min_qty_of info in
  qty_step < 1 ->
  exists q,
    Py.number_of (TradingBot.quantity info amount) = Some q
    /\ q == Py.round_to (TradingBot.btc_amount_rounded qty_step min_qty amount)
              (TradingBot.decimal_places qty_step).
Proof.
  intros qty_step min_qty Hstep. unfold TradingBot.quantity.
  apply format_fixed_denotes. intros Hzero.
  apply decimal_places_zero in Hzero. fold qty_step in Hzero. lra.
Qed.

(** When moreover step and minimum have no more decimals than are printed,
    the text posted denotes the rounded amount itself: the nearest whole
    number of steps, or the minimum when that is under it. *)
Lemma quantity_exact (info : option instrument) (amount : Q) (a b : Z) :
  let qty_step := TradingBot.qty_step_of info in
  let min_qty := TradingBot.min_qty_of info in
  let digits := TradingBot.decimal_places qty_step in
  0 < qty_step -> qty_step < 1 ->
  qty_step * inject_Z (10 ^ Z.of_nat digits) == inject_Z a ->
  min_qty * inject_Z (10 ^ Z.of_nat digits) == inject_Z b ->
  exists q,
    Py.number_of (TradingBot.quantity info amount) = Some q
    /\ q == TradingBot.btc_amount_rounded qty_step min_qty amount.
Proof.
  intros qty_step min_qty digits Hpos Hstep Ha Hb.
  destruct (quantity_denotes info amount Hstep) as (q & Hq & Hround).
  exists q. split; [exact Hq |]. rewrite Hround. fold qty_step min_qty digits.
  unfold TradingBot.btc_amount_rounded.
  destruct (Py.lt (TradingBot.round_to_step qty_step amount) min_qty).
  - by apply (round_to_decimal _ _ b).
  - rewrite round_to_step_multiple by done.
    apply (round_to_decimal _ _ (Py.round (amount / qty_step) * a)).
    rewrite inject_Z_mult, <- Ha. ring.
Qed.

End PostedQuantity.

(** C9.  The amount is rounded to the nearest whole number of steps and a
    rounded amount under the minimum is replaced by the minimum, but the
    quantity that is posted is the text of that number with
    [.rstrip('0')] applied.  With the default step and minimum of 0.001 the
    examples of the specification come out: 0.5244 is posted as 0.524 and
    0.0002 as the minimum 0.001.  With a step of 1 the number is printed
    without a point and the strip takes the zeros of the integer: an amount
    of 10 is rounded to 10 and posted as 1, and with a minimum of 10 an
    amount of 3 is raised to 10 and posted as 1. *)
Theorem integer_step_quantity_loses_zeros :
  let no_filter := Some {| qtyStep := None; minOrderQty := None |} in
  let unit_lots := Some {| qtyStep := Some 1; minOrderQty := Some 1 |} in
  let ten_lots := Some {| qtyStep := Some 1; minOrderQty := Some 10 |} in
  TradingBot.quantity None (5244 # 10000) = "0.524"%string
  /\ TradingBot.quantity None (2 # 10000) = "0.001"%string
  /\ TradingBot.quantity no_filter (5244 # 10000) = "0.524"%string
  /\ TradingBot.quantity no_filter (2 # 10000) = "0.001"%string
  /\ TradingBot.btc_amount_rounded
       (TradingBot.qty_step_of unit_lots) (TradingBot.min_qty_of unit_lots) 10 == 10
  /\ TradingBot.quantity unit_lots 10 = "1"%string
  /\ Py.number_of (TradingBot.quantity unit_lots 10) = Some 1
  /\ (forall s idx price accepted st,
        TradingBot._place_order_direct_api s 10 idx (Some price) unit_lots accepted st
        = (Ret accepted, with_sent (sent st ++ [DirectOrder s "1" idx]) st))
  /\ (forall s idx price rest st,
        TradingBot.place_market_order s 10 idx
          (with_exchange (Demo (Some price) unit_lots true :: rest) st)
        = (Ret true,
           with_sent (sent st ++ [CcxtOrder s 10 idx; DirectOrder s "1" idx])
             (with_exchange rest st)))
  /\ TradingBot.btc_amount_rounded
       (TradingBot.qty_step_of ten_lots) (TradingBot.min_qty_of ten_lots) 3 == 10
  /\ TradingBot.quantity ten_lots 3 = "1"%string.
Proof.
  intros no_filter unit_lots ten_lots.
  split; [vm_compute; reflexivity |].
  split; [vm_compute; reflexivity |].
  split; [vm_compute; reflexivity |].
  split; [vm_compute; reflexivity |].
  split; [vm_compute; reflexivity |].
  split; [vm_compute; reflexivity |].
  split; [vm_compute; reflexivity |].
  split; [intros; by rewrite place_order_direct_api_run |].
  split; [| split; vm_compute; reflexivity].
  intros s idx price rest st.
  unfold TradingBot.place_market_order, bind, next_reply, send.
  cbn [exchange with_exchange with_sent sent].
  rewrite place_order_direct_api_run.
  unfold with_sent, with_exchange. cbn. by rewrite <- app_assoc.
Qed.

(** ** Reasoning about runs *)

Section Runs.

Context {A B : Type}.

Lemma bind_inv (m : M A) (k : A -> M B) st r st' :
  bind m k st = (r, st') ->
  (exists a st1, m st = (Ret a, st1) /\ k a st1 = (r, st'))
  \/ (exists e, m st = (Raise e, st') /\ r = Raise e).
Proof.
  unfold bind. destruct (m st) as [[a | e] st1]; intros H.
  - left. eauto.
  - right. exists e. by inversion H.
Qed.

Lemma always_bind (R : bot -> bot -> Prop) (m : M A) (k : A -> M B) :
  (forall x y z, R x y -> R y z -> R x z) ->
  always R m -> (forall a, always R (k a)) -> always R (bind m k).
Proof.
  intros Htrans Hm Hk st r st' Hrun.
  apply bind_inv in Hrun as [(a & st1 & H1 & H2) | (e & H1 & _)].
  - eapply Htrans; [eapply Hm | eapply Hk]; eauto.
  - eapply Hm; eauto.
Qed.

Lemma always_ret (R : bot -> bot -> Prop) (a : A) :
  (forall x, R x x) -> always R (ret a).
Proof. intros Hrefl st r st' H. inversion H. subst. apply Hrefl. Qed.

Lemma always_raise (R : bot -> bot -> Prop) (e : exn) :
  (forall x, R x x) -> always R (raise (A:=A) e).
Proof. intros Hrefl st r st' H. inversion H. subst. apply Hrefl. Qed.

End Runs.

Lemma no_new_position_refl st : no_new_position st st.
Proof. by intros sym p. Qed.

Lemma no_new_position_trans st1 st2 st3 :
  no_new_position st1 st2 -> no_new_position st2 st3 -> no_new_position st1 st3.
Proof. intros H12 H23 sym p H. by apply H12, H23. Qed.

Lemma same_ledger_no_new_position st st' :
  same_ledger st st' -> no_new_position st st'.
Proof. intros H sym p (v & Hv & Hp). exists v. by rewrite <- H. Qed.

Lemma untouched_refl st : untouched st st.
Proof. by repeat split. Qed.

Lemma untouched_trans st1 st2 st3 :
  untouched st1 st2 -> untouched st2 st3 -> untouched st1 st3.
Proof. intros (? & ? & ?) (? & ? & ?). repeat split; congruence. Qed.

(** Writing under [sym] a value that holds nothing new adds no position. *)
Lemma with_entry_no_new_position st sym v :
  (forall p, holds v p -> tracks st sym p) ->
  no_new_position st (with_entry sym v st).
Proof.
  intros Hv sym' p (v' & Hlook & Hp).
  cbn [with_entry with_positions positions] in Hlook.
  destruct (decide (sym = sym')) as [<- | Hne].
  - rewrite lookup_insert_eq in Hlook. inversion Hlook; subst. by apply Hv.
  - rewrite lookup_insert_ne in Hlook by done. by exists v'.
Qed.

Lemma holds_None p : ~ holds None p.
Proof. by intros (d & Hd & _). Qed.

Create HintDb ledger.
#[local] Hint Resolve no_new_position_refl untouched_refl : ledger.
#[local] Hint Resolve no_new_position_trans untouched_trans : ledger.

(** ** The exchange calls *)

Section Orders.

(** An order changes neither ledger nor peak, does not raise, and is
    recorded as sent. *)
Lemma place_market_order_run s amount idx st :
  exists ok extra rest,
    TradingBot.place_market_order s amount idx st
    = (Ret ok, with_sent (sent st ++ CcxtOrder s amount idx :: extra)
                 (with_exchange rest st)).
Proof.
  unfold TradingBot.place_market_order, bind, next_reply, send.
  destruct st as [m peak ex snt]. cbn -[app].
  destruct ex as [| r rest]; cbn -[app].
  - exists false, [], []. done.
  - destruct r as [| | price info accepted]; cbn -[app].
    + exists true, [], rest. done.
    + exists false, [], rest. done.
    + unfold TradingBot._place_order_direct_api.
      destruct price as [price |]; cbn -[app].
      * rewrite rejects_amount_never. cbn -[app].
        exists accepted, [DirectOrder s (TradingBot.quantity info amount) idx], rest.
        unfold bind, send, ret, with_sent. cbn -[app].
        by rewrite <- app_assoc.
      * exists false, [], rest. done.
Qed.

Lemma place_market_order_same_ledger s amount idx :
  always same_ledger (TradingBot.place_market_order s amount idx).
Proof.
  intros st r st' H.
  destruct (place_market_order_run s amount idx st) as (ok & extra & rest & Hrun).
  rewrite Hrun in H. by inversion H.
Qed.

End Orders.

(** ** Closing only removes *)

Section Closing.

Variable E : env.

Lemma holds_dict_set_None d k p :
  holds (Some (dict_set d k None)) p -> holds (Some d) p.
Proof.
  intros (d' & Hd' & Hp). inversion Hd'; subst. exists d. split; [done |].
  destruct k; cbn in Hp; destruct Hp as [Hp | [Hp | Hp]];
    (discriminate || auto).
Qed.

Lemma holds_one_way_view d p :
  holds (record_of <$> one_way_view d) p -> holds (Some d) p.
Proof.
  intros (d' & Hd' & Hp). exists d. split; [done |].
  unfold one_way_view in Hd'. cbn in Hd'.
  destruct (slot_long d) as [q |] eqn:Hl; cbn in Hd'.
  - inversion Hd'; subst. cbn in Hp.
    destruct Hp as [Hp | [Hp | Hp]]; inversion Hp; subst; auto.
  - destruct (slot_short d) as [q |] eqn:Hs; cbn in Hd'; [| done].
    inversion Hd'; subst. cbn in Hp.
    destruct Hp as [Hp | [Hp | Hp]]; inversion Hp; subst; auto.
Qed.

(** A change of the exchange and of the requests sent keeps the ledger. *)
Lemma no_new_position_orders st rest l :
  no_new_position st (with_sent l (with_exchange rest st)).
Proof. by apply same_ledger_no_new_position. Qed.

Lemma close_hedge_slot_no_new sym d k st r st' :
  positions st !! sym = Some (Some d) ->
  TradingBot.close_hedge_slot sym d k st = (r, st') ->
  no_new_position st st'.
Proof.
  intros Hd Hrun. unfold TradingBot.close_hedge_slot in Hrun.
  destruct (dict_get d k) as [p |]; [| inversion Hrun; subst; auto with ledger].
  unfold bind in Hrun at 1.
  destruct (place_market_order_run (TradingBot.close_side_of p) (size p)
              (match k with long => idx1 | short => idx2 end) st)
    as (ok & extra & rest & Hpm).
  rewrite Hpm in Hrun.
  set (st1 := with_sent _ _) in Hrun.
  assert (H1 : no_new_position st st1) by apply no_new_position_orders.
  destruct ok; [| inversion Hrun; by subst].
  assert (H2 : no_new_position st1 (with_entry sym (Some (dict_set d k None)) st1)).
  { apply with_entry_no_new_position. intros q Hq.
    exists (Some d). split; [done |]. by eapply holds_dict_set_None. }
  assert (H3 : forall st2, no_new_position st2 (with_entry sym None st2)).
  { intros st2. apply with_entry_no_new_position. intros q Hq.
    by apply holds_None in Hq. }
  unfold bind, set_entry, ret in Hrun.
  destruct (dict_get (dict_set d k None) long), (dict_get (dict_set d k None) short);
    inversion Hrun; subst; eauto with ledger.
Qed.

Lemma close_one_way_no_new sym v st r st' :
  positions st !! sym = Some v ->
  TradingBot.close_one_way sym v st = (r, st') ->
  no_new_position st st'.
Proof.
  intros Hv Hrun. unfold TradingBot.close_one_way in Hrun.
  destruct v as [d |]; [| inversion Hrun; subst; auto with ledger].
  unfold bind at 1 2 in Hrun. unfold set_entry at 1, ret at 1 in Hrun.
  set (st1 := with_entry sym (record_of <$> one_way_view d) st) in Hrun.
  assert (H1 : no_new_position st st1).
  { apply with_entry_no_new_position. intros q Hq.
    exists (Some d). split; [done |]. by apply holds_one_way_view. }
  destruct (one_way_view d) as [p |]; [| inversion Hrun; by subst].
  unfold bind in Hrun at 1.
  destruct (place_market_order_run (TradingBot.close_side_of p) (size p) idx0 st1)
    as (ok & extra & rest & Hpm).
  rewrite Hpm in Hrun.
  set (st2 := with_sent _ _) in Hrun.
  assert (H2 : no_new_position st1 st2) by apply no_new_position_orders.
  destruct ok; [| inversion Hrun; subst; eauto with ledger].
  unfold bind, set_entry, ret in Hrun. inversion Hrun; subst.
  assert (H3 : no_new_position st2 (with_entry sym None st2)).
  { apply with_entry_no_new_position. intros q Hq. by apply holds_None in Hq. }
  eauto with ledger.
Qed.

Lemma close_position_side_no_new sym k :
  always no_new_position (TradingBot.close_position_side E sym k).
Proof.
  intros st r st' Hrun. unfold TradingBot.close_position_side in Hrun.
  unfold bind, get_positions in Hrun.
  destruct (positions st !! sym) as [v |] eqn:Hv;
    [| inversion Hrun; subst; auto with ledger].
  destruct (config.hedge_mode (trading_config E)); [destruct v as [d |] |].
  - by eapply close_hedge_slot_no_new.
  - by eapply close_one_way_no_new.
  - by eapply close_one_way_no_new.
Qed.

Lemma close_position_no_new sym k :
  always no_new_position (TradingBot.close_position E sym k).
Proof.
  intros st r st' Hrun. unfold TradingBot.close_position in Hrun.
  unfold bind at 1, get_positions in Hrun.
  destruct (positions st !! sym) as [v |] eqn:Hv;
    [| inversion Hrun; subst; auto with ledger].
  destruct (config.hedge_mode (trading_config E)); [destruct v as [d |] |].
  - destruct k as [k |]; [by eapply close_hedge_slot_no_new |].
    revert st r st' Hv Hrun.
    assert (Hboth : always no_new_position
              (let* closed_long :=
                 if dict_get d long is Some _
                 then TradingBot.close_position_side E sym long else ret false in
               let* closed_short :=
                 if dict_get d short is Some _
                 then TradingBot.close_position_side E sym short else ret false in
               ret (closed_long || closed_short))).
    { apply always_bind; [apply no_new_position_trans | |].
      - destruct (dict_get d long);
          [apply close_position_side_no_new | apply always_ret; auto with ledger].
      - intros a. apply always_bind; [apply no_new_position_trans | |].
        + destruct (dict_get d short);
            [apply close_position_side_no_new | apply always_ret; auto with ledger].
        + intros b. apply always_ret. auto with ledger. }
    intros st r st' _ Hrun. by eapply Hboth.
  - by eapply close_one_way_no_new.
  - by eapply close_one_way_no_new.
Qed.

Lemma exit_signal_no_new : always no_new_position (TradingBot.exit_signal E).
Proof.
  intros st r st' Hrun. unfold TradingBot.exit_signal in Hrun.
  unfold bind at 1, get_positions in Hrun.
  destruct (positions st !! symbol E) as [v |] eqn:Hv;
    [| inversion Hrun; subst; auto with ledger].
  destruct (config.hedge_mode (trading_config E)); destruct v as [d |];
    try (inversion Hrun; subst; by auto with ledger);
    try (by eapply close_position_no_new).
  revert Hrun. generalize st r st'. clear.
  change (always no_new_position
            (let* closed_long :=
               if dict_get d long is Some _
               then TradingBot.close_position E (symbol E) (Some long) else ret false in
             let* closed_short :=
               if dict_get d short is Some _
               then TradingBot.close_position E (symbol E) (Some short) else ret false in
             ret (closed_long || closed_short))).
  apply always_bind; [apply no_new_position_trans | |].
  - destruct (dict_get d long);
      [apply close_position_no_new | apply always_ret; auto with ledger].
  - intros a. apply always_bind; [apply no_new_position_trans | |].
    + destruct (dict_get d short);
        [apply close_position_no_new | apply always_ret; auto with ledger].
    + intros b. apply always_ret. auto with ledger.
Qed.

End Closing.

(** ** The exit monitor and the flat signal open nothing *)

Section NothingOpened.

Variable E : env.

Ltac no_new_step :=
  first
    [ apply always_ret; apply no_new_position_refl
    | apply close_position_no_new
    | apply always_bind; [apply no_new_position_trans | | intros ?] ].

Lemma get_positions_always (R : bot -> bot -> Prop) :
  (forall x, R x x) -> always R get_positions.
Proof. intros Hrefl st r st' H. inversion H. subst. apply Hrefl. Qed.

Lemma check_global_drawdown_untouched v :
  always untouched (TradingBot.check_global_drawdown E v).
Proof.
  intros st r st'.
  unfold TradingBot.check_global_drawdown, bind, get_peak, set_peak, ret, raise.
  destruct (Py.gt v (peak_portfolio_value st)); cbn [peak_portfolio_value with_peak];
    destruct (Py.eq _ 0); try destruct (Py.ge _ _);
    intros H; inversion H; subst; by repeat split.
Qed.

Lemma drawdown_gate_untouched balance :
  always untouched (TradingBot.drawdown_gate E balance).
Proof.
  destruct balance; cbn.
  - apply check_global_drawdown_untouched.
  - apply always_ret, untouched_refl.
Qed.

Lemma untouched_no_new_position st st' : untouched st st' -> no_new_position st st'.
Proof. intros (H & _). by apply same_ledger_no_new_position. Qed.

Lemma check_slot_no_new price sym d k :
  always no_new_position (TradingBot.check_slot E price sym d k).
Proof.
  unfold TradingBot.check_slot.
  destruct (dict_get d k) as [p |]; [| no_new_step].
  destruct (TradingBot.exit_trigger p price); repeat no_new_step.
Qed.

Lemma check_symbol_no_new price sym v :
  always no_new_position (TradingBot.check_symbol E price sym v).
Proof.
  unfold TradingBot.check_symbol.
  destruct v as [d |]; [| no_new_step].
  destruct (config.hedge_mode (trading_config E)).
  - no_new_step; [apply check_slot_no_new |].
    no_new_step; [apply check_slot_no_new |]. no_new_step.
  - destruct (one_way_view d) as [p |]; [| no_new_step].
    destruct (TradingBot.exit_trigger p price); repeat no_new_step.
Qed.

Lemma check_symbols_no_new price syms :
  always no_new_position (TradingBot.check_symbols E price syms).
Proof.
  induction syms as [| sym rest IH]; cbn [TradingBot.check_symbols]; [no_new_step |].
  no_new_step; [apply get_positions_always, no_new_position_refl |].
  no_new_step; [apply check_symbol_no_new |].
  no_new_step; [apply IH |]. no_new_step.
Qed.

Lemma check_stop_loss_take_profit_no_new price :
  always no_new_position (TradingBot.check_stop_loss_take_profit E price).
Proof.
  unfold TradingBot.check_stop_loss_take_profit.
  no_new_step; [apply get_positions_always, no_new_position_refl |].
  apply check_symbols_no_new.
Qed.

Lemma execute_signal_flat price balance :
  TradingBot.execute_signal E 0 price balance = TradingBot.exit_signal E.
Proof. reflexivity. Qed.

(** A pass of the loop whose signal is 0 opens nothing. *)
Lemma run_iteration_flat_no_new tk run :
  LiveTradingBot.latest_data tk = Some run ->
  LiveTradingBot.get_current_signal run = Some 0%Z ->
  always no_new_position (LiveTradingBot.run_iteration E tk).
Proof.
  intros Hdata Hsignal. unfold LiveTradingBot.run_iteration.
  rewrite Hdata, Hsignal.
  no_new_step.
  - destruct (LiveTradingBot.truthy (LiveTradingBot.portfolio_value tk)).
    + intros st r st' H. eapply untouched_no_new_position.
      by eapply check_global_drawdown_untouched.
    + no_new_step.
  - destruct a; [no_new_step |].
    no_new_step.
    + destruct (LiveTradingBot.truthy (LiveTradingBot.current_price tk)).
      * no_new_step; [apply check_stop_loss_take_profit_no_new | no_new_step].
      * no_new_step.
    + no_new_step; [| no_new_step].
      rewrite execute_signal_flat. apply exit_signal_no_new.
Qed.

(** A pass of the loop that gets no signal leaves ledger and exchange alone. *)
Lemma run_iteration_retry tk run :
  LiveTradingBot.latest_data tk = Some run ->
  LiveTradingBot.get_current_signal run = None ->
  always untouched (LiveTradingBot.run_iteration E tk).
Proof.
  intros Hdata Hsignal. unfold LiveTradingBot.run_iteration.
  rewrite Hdata, Hsignal.
  apply always_bind; [apply untouched_trans | |].
  - destruct (LiveTradingBot.truthy (LiveTradingBot.portfolio_value tk)).
    + apply check_global_drawdown_untouched.
    + apply always_ret, untouched_refl.
  - intros []; apply always_ret, untouched_refl.
Qed.

End NothingOpened.

(** C10.  When the latest value of the strategy's [Signal] column is NaN,
    [get_current_signal] returns 0; a signal of 0 opens no position, neither
    in [execute_signal] nor in a whole pass of the loop: every position
    tracked afterwards was tracked before.  When the strategy raises, returns
    no frame or no [Signal] column, the result is [None], and a pass of the
    loop with the result [None] sends nothing and leaves the ledger as it
    is. *)
Theorem missing_signal_defaults_to_hold (E : env) :
  (forall (strategy_df : LiveTradingBot.dataframe) column,
      strategy_df !! "Signal"%string = Some column -> last column = Some LiveTradingBot.NaN ->
      LiveTradingBot.get_current_signal (LiveTradingBot.StrategyReturns (Some strategy_df))
      = Some 0%Z)
  /\ (forall price balance, always no_new_position (TradingBot.execute_signal E 0 price balance))
  /\ (forall tk run,
        LiveTradingBot.latest_data tk = Some run ->
        LiveTradingBot.get_current_signal run = Some 0%Z ->
        always no_new_position (LiveTradingBot.run_iteration E tk))
  /\ LiveTradingBot.get_current_signal LiveTradingBot.StrategyRaises = None
  /\ LiveTradingBot.get_current_signal (LiveTradingBot.StrategyReturns None) = None
  /\ (forall strategy_df : LiveTradingBot.dataframe,
        strategy_df !! "Signal"%string = None ->
        LiveTradingBot.get_current_signal (LiveTradingBot.StrategyReturns (Some strategy_df))
        = None)
  /\ (forall tk run,
        LiveTradingBot.latest_data tk = Some run ->
        LiveTradingBot.get_current_signal run = None ->
        always untouched (LiveTradingBot.run_iteration E tk)).
Proof.
  split; [| split; [| split; [| split; [| split; [| split]]]]].
  - intros df column Hcol Hlast. cbn. by rewrite Hcol, Hlast.
  - intros price balance. rewrite execute_signal_flat. apply exit_signal_no_new.
  - apply run_iteration_flat_no_new.
  - reflexivity.
  - reflexivity.
  - intros df Hcol. cbn. by rewrite Hcol.
  - apply run_iteration_retry.
Qed.

(** ** The concurrency gate and the placement of the order *)

Section Entry.

Variable E : env.

Let hm : bool := config.hedge_mode (trading_config E).


(** A symbol that enters the ledger adds the slots of its value. *)
Lemma active_count_insert h (m : gmap string entry) sym v :
  m !! sym = None ->
  TradingBot.active_count h (<[sym := v]> m)
  = (TradingBot.active_count h m + TradingBot.slots h v)%Z.
Proof.
  intros Hfresh. unfold TradingBot.active_count.
  rewrite map_fold_insert_L; [done | intros; lia | done].
Qed.

(** A value that is replaced gives its slots back first. *)
Lemma active_count_update h (m : gmap string entry) sym old v :
  m !! sym = Some old ->
  TradingBot.active_count h (<[sym := v]> m)
  = (TradingBot.active_count h m - TradingBot.slots h old + TradingBot.slots h v)%Z.
Proof.
  intros Hold.
  rewrite <- (insert_delete_eq m sym v).
  rewrite active_count_insert by apply lookup_delete_eq.
  rewrite <- (insert_id m sym old Hold) at 2.
  rewrite <- (insert_delete_eq m sym old).
  rewrite active_count_insert by apply lookup_delete_eq. lia.
Qed.

Lemma can_open_new_position_run h st :
  TradingBot.can_open_new_position E h st
  = (Ret (TradingBot.active_count h (positions st) <? max_concurrent_trades E)%Z, st).
Proof.
  unfold TradingBot.can_open_new_position, bind, get_positions, ret.
  rewrite Z.geb_leb, Z.ltb_antisym.
  by destruct (_ <=? _)%Z.
Qed.

Lemma open_position_refused signal price st :
  (max_concurrent_trades E <= TradingBot.active_count hm (positions st))%Z ->
  TradingBot.open_position E signal price st = (Ret false, st).
Proof.
  intros Hfull. unfold TradingBot.open_position, bind.
  fold hm. rewrite can_open_new_position_run.
  apply Z.ltb_ge in Hfull. by rewrite Hfull.
Qed.

Lemma open_position_permitted signal price st :
  (TradingBot.active_count hm (positions st) < max_concurrent_trades E)%Z ->
  TradingBot.open_position E signal (Some price) st
  = match TradingBot.position_size E signal price with
    | None => (Ret false, st)
    | Some amount => TradingBot.place_and_store E signal amount price st
    end.
Proof.
  intros Hfree. unfold TradingBot.open_position, bind.
  fold hm. rewrite can_open_new_position_run.
  apply Z.ltb_lt in Hfree. rewrite Hfree. cbn [negb].
  by destruct (TradingBot.position_size E signal price).
Qed.

(** The order is always sent; the record is written under the symbol when,
    and only when, the order came back, and nothing else in the ledger
    changes. *)
Lemma place_and_store_run signal amount price st :
  exists (ok : bool) extra rest,
    let st1 :=
      with_sent (sent st ++ CcxtOrder (TradingBot.order_side_of signal) amount
                              (TradingBot.position_idx_of E signal) :: extra)
        (with_exchange rest st) in
    TradingBot.place_and_store E signal amount price st
    = (Ret ok,
       if ok
       then with_entry (symbol E)
              (TradingBot.stored_entry E signal amount price (positions st !! symbol E)) st1
       else st1).
Proof.
  unfold TradingBot.place_and_store. unfold bind at 1.
  destruct (place_market_order_run (TradingBot.order_side_of signal) amount
              (TradingBot.position_idx_of E signal) st) as (ok & extra & rest & Hpm).
  rewrite Hpm. exists ok, extra, rest. by destruct ok.
Qed.

End Entry.

(** ** Hedge mode before the gate *)

Section HedgeBranch.

Variable E : env.
Hypothesis hedged : config.hedge_mode (trading_config E) = true.

(** A slot that is taken stops the call: nothing is sent, the ledger stays. *)
Lemma execute_signal_hedge_taken signal price balance st st1 d p :
  signal <> 0%Z ->
  positions st !! symbol E = Some (Some d) ->
  dict_get d (TradingBot.side_key_of signal) = Some p ->
  TradingBot.drawdown_gate E balance st = (Ret false, st1) ->
  TradingBot.execute_signal E signal price balance st = (Ret false, st1).
Proof.
  intros Hs Hd Hslot Hgate. apply Z.eqb_neq in Hs.
  pose proof (drawdown_gate_untouched E balance st _ _ Hgate) as (Hpos & _).
  unfold TradingBot.execute_signal. rewrite Hs.
  unfold bind at 1. rewrite Hgate.
  unfold bind at 1. unfold get_positions at 1. rewrite Hpos, Hd.
  unfold bind at 1. unfold ret at 1.
  unfold bind at 1. unfold get_positions at 1. rewrite Hpos, Hd. cbn [default]. unfold id.
  rewrite hedged. unfold bind, TradingBot.hedge_branch. by rewrite Hslot.
Qed.


End HedgeBranch.


Section Reversal.

Variable E : env.

Lemma is_reversal_signal signal p :
  TradingBot.is_reversal signal p = true ->
  signal <> 0%Z /\ side p <> signal.
Proof.
  unfold TradingBot.is_reversal. intros H.
  apply orb_true_iff in H as [H | H]; apply andb_true_iff in H as [H1 H2];
    apply Z.eqb_eq in H1, H2; lia.
Qed.

(** The one-way branch on an opposite position whose close fails: the
    tracking is cleared and the call goes on to the open leg. *)
Lemma execute_signal_reversal_close_failed signal price balance st st1 st3 d p :
  config.hedge_mode (trading_config E) = false ->
  positions st !! symbol E = Some (Some d) ->
  one_way_view d = Some p ->
  TradingBot.is_reversal signal p = true ->
  TradingBot.drawdown_gate E balance st = (Ret false, st1) ->
  TradingBot.close_position E (symbol E) None
    (with_entry (symbol E) (Some (record_of p)) st1) = (Ret false, st3) ->
  TradingBot.execute_signal E signal price balance st
  = TradingBot.open_position E signal price (with_entry (symbol E) None st3).
Proof.
  intros Hmode Hd Hview Hrev Hgate Hclose.
  destruct (is_reversal_signal _ _ Hrev) as [Hs _].
  apply Z.eqb_neq in Hs.
  pose proof (drawdown_gate_untouched E balance st _ _ Hgate) as (Hpos & _).
  unfold TradingBot.execute_signal. rewrite Hs.
  unfold bind at 1. rewrite Hgate.
  unfold bind at 1. unfold get_positions at 1. rewrite Hpos, Hd.
  unfold bind at 1. unfold ret at 1.
  unfold bind at 1. unfold get_positions at 1. rewrite Hpos, Hd. cbn [default]. unfold id.
  rewrite Hmode.
  unfold bind at 1. unfold TradingBot.one_way_branch.
  rewrite Hview. unfold bind at 1. unfold set_entry at 1. cbn [fmap option_fmap option_map].
  rewrite Hrev. unfold bind at 1. rewrite Hclose.
  unfold bind, set_entry, ret. done.
Qed.

End Reversal.

(** C1, as stated, fails.  One-way mode, a long position tracked for the
    symbol, a short signal: the close leg fails ([close_position] returns
    [False]), and the call still sends the opening order and ends with a
    short position in the ledger, not flat. *)
Lemma reversal_close_failure_opens :
  let E := Scenario.one_way_env in
  let st := Scenario.tracking (Some Scenario.long_slot) [Filled] in
  fst (TradingBot.close_position E Scenario.btc None
         (with_entry Scenario.btc (Some (record_of Scenario.long_100)) st)) = Ret false
  /\ exists amount st',
       TradingBot.execute_signal E (-1) (Some 100) (Some 100000) st = (Ret true, st')
       /\ sent st' = [CcxtOrder sell amount idx0]
       /\ positions st' !! Scenario.btc
          = Some (Some (record_of (TradingBot.position_data E (-1) amount 100))).
Proof.
  split; [vm_compute; reflexivity |].
  eexists _, _. split; [vm_compute; reflexivity |].
  split; vm_compute; reflexivity.
Qed.

(** C1, amended.  One-way mode, an opposite position tracked, the close leg
    fails: the tracking of the symbol is cleared and the call goes on with
    the open leg.  The ledger then stays flat for the symbol when no order is
    confirmed, and holds exactly the new position when one is; the order is
    sent whenever the concurrency gate and the sizing let it through; the old
    position is tracked no more. *)
Theorem reversal_close_failure_spec (E : env) (st st1 st3 : bot) (signal : Z)
    (price : Q) (balance : option Q) (d : pydict) (p : position) :
  config.hedge_mode (trading_config E) = false ->
  positions st !! symbol E = Some (Some d) ->
  one_way_view d = Some p ->
  TradingBot.is_reversal signal p = true ->
  TradingBot.drawdown_gate E balance st = (Ret false, st1) ->
  TradingBot.close_position E (symbol E) None
    (with_entry (symbol E) (Some (record_of p)) st1) = (Ret false, st3) ->
  let st4 := with_entry (symbol E) None st3 in
  TradingBot.execute_signal E signal (Some price) balance st
  = TradingBot.open_position E signal (Some price) st4
  /\ positions st4 !! symbol E = Some None
  /\ exists (ok : bool) st',
       TradingBot.open_position E signal (Some price) st4 = (Ret ok, st')
       /\ (ok = false -> positions st' = positions st4)
       /\ (ok = true ->
           exists amount,
             TradingBot.position_size E signal price = Some amount
             /\ positions st'
                = <[symbol E := Some (record_of (TradingBot.position_data E signal amount price))]>
                    (positions st4))
       /\ ((TradingBot.active_count false (positions st4) < max_concurrent_trades E)%Z ->
           forall amount,
             TradingBot.position_size E signal price = Some amount ->
             exists extra,
               sent st' = sent st4 ++ CcxtOrder (TradingBot.order_side_of signal) amount idx0 :: extra)
       /\ ~ tracks st' (symbol E) p.
Proof.
  intros Hmode Hd Hview Hrev Hgate Hclose st4.
  split; [by eapply execute_signal_reversal_close_failed |].
  assert (Hflat : positions st4 !! symbol E = Some None) by apply lookup_insert_eq.
  split; [done |].
  assert (Hnot : ~ tracks st4 (symbol E) p).
  { intros (v & Hv & Hp). rewrite Hflat in Hv. inversion Hv; subst.
    by apply holds_None in Hp. }
  destruct (Z.lt_ge_cases (TradingBot.active_count false (positions st4))
              (max_concurrent_trades E)) as [Hfree | Hfull].
  - pose proof (open_position_permitted E signal price st4) as Hopen.
    rewrite Hmode in Hopen. specialize (Hopen Hfree).
    destruct (TradingBot.position_size E signal price) as [amount |] eqn:Hsize.
    + destruct (place_and_store_run E signal amount price st4) as (ok & extra & rest & Hrun).
      cbv zeta in Hrun. rewrite Hrun in Hopen.
      assert (Hidx : TradingBot.position_idx_of E signal = idx0)
        by (unfold TradingBot.position_idx_of; by rewrite Hmode).
      assert (Hstored : forall cur, TradingBot.stored_entry E signal amount price cur
                = Some (record_of (TradingBot.position_data E signal amount price)))
        by (intros; unfold TradingBot.stored_entry; by rewrite Hmode).
      rewrite Hidx, Hstored in Hopen.
      eexists ok, _. split; [exact Hopen |].
      destruct ok.
      * split; [done |]. split; [intros _; by exists amount |].
        split; [intros _ a Ha; inversion Ha; subst; by exists extra |].
        intros (v & Hv & Hp).
        cbn [with_entry with_positions positions with_sent with_exchange] in Hv.
        rewrite lookup_insert_eq in Hv. inversion Hv; subst.
        destruct Hp as (d' & Hd' & Hp). inversion Hd'; subst. cbn in Hp.
        destruct Hp as [Hp | [Hp | Hp]]; try discriminate.
        inversion Hp; subst.
        destruct (is_reversal_signal _ _ Hrev) as [_ Hside]. by apply Hside.
      * split; [done |]. split; [done |].
        split; [intros _ a Ha; inversion Ha; subst; by exists extra |].
        done.
    + exists false, st4. split; [done |]. split; [done |]. split; [done |].
      split; [by intros _ a Ha |]. done.
  - exists false, st4.
    split; [apply open_position_refused; by rewrite Hmode |].
    split; [done |]. split; [done |]. split; [lia |]. done.
Qed.

(** The reversal of a long position at a price of 100: the close leg fails
    and the call continues with the open leg on the cleared ledger. *)
Lemma reversal_close_failure_spec_witness :
  let E := Scenario.one_way_env in
  let st := Scenario.tracking (Some Scenario.long_slot) [Filled] in
  let st4 := with_entry Scenario.btc None st in
  TradingBot.execute_signal E (-1) (Some 100) (Some 100000) st
  = TradingBot.open_position E (-1) (Some 100) st4.
Proof.
  intros E st st4.
  apply (reversal_close_failure_spec E st st
           (with_entry Scenario.btc None
              (with_entry Scenario.btc (Some (record_of Scenario.long_100)) st))
           (-1) 100 (Some 100000) Scenario.long_slot Scenario.long_100);
    vm_compute; reflexivity.
Defined.


(** A frame whose latest signal is NaN gives 0 and the pass opens nothing;
    a strategy that raises makes the pass a retry. *)
Lemma missing_signal_defaults_to_hold_witness :
  let E := Scenario.hedge_env in
  let st := Scenario.tracking (Some Scenario.long_slot) [Filled] in
  let unformed :=
    {| LiveTradingBot.portfolio_value := Some 100000;
       LiveTradingBot.latest_data :=
         Some (LiveTradingBot.StrategyReturns (Some Scenario.unformed_signal));
       LiveTradingBot.current_price := Some 97 |} in
  let failed :=
    {| LiveTradingBot.portfolio_value := Some 100000;
       LiveTradingBot.latest_data := Some LiveTradingBot.StrategyRaises;
       LiveTradingBot.current_price := Some 97 |} in
  LiveTradingBot.get_current_signal
    (LiveTradingBot.StrategyReturns (Some Scenario.unformed_signal)) = Some 0%Z
  /\ no_new_position st (snd (LiveTradingBot.run_iteration E unformed st))
  /\ untouched st (snd (LiveTradingBot.run_iteration E failed st)).
Proof.
  intros E st unformed failed.
  pose proof (missing_signal_defaults_to_hold E) as (Hnan & _ & Hflat & _ & _ & _ & Hretry).
  split; [| split].
  - apply (Hnan _ [LiveTradingBot.Num 1; LiveTradingBot.NaN]); reflexivity.
  - apply (Hflat unformed _ eq_refl eq_refl st
             (fst (LiveTradingBot.run_iteration E unformed st))).
    apply surjective_pairing.
  - apply (Hretry failed _ eq_refl eq_refl st
             (fst (LiveTradingBot.run_iteration E failed st))).
    apply surjective_pairing.
Defined.

(** ** Hedge mode: closes and exits as intended *)

Section HedgeSlots.

Variable E : env.
Hypothesis hedged : config.hedge_mode (trading_config E) = true.

(** The value left under the symbol when the slot [k] of [d] is closed. *)
Lemma close_hedge_slot_run sym d k p st :
  dict_get d k = Some p ->
  exists (ok : bool) extra rest,
    let st1 :=
      with_sent (sent st ++ CcxtOrder (TradingBot.close_side_of p) (size p)
                              (match k with long => idx1 | short => idx2 end) :: extra)
        (with_exchange rest st) in
    let d' := dict_set d k None in
    TradingBot.close_hedge_slot sym d k st
    = (Ret ok,
       if ok
       then with_entry sym
              (match dict_get d' long, dict_get d' short with
               | None, None => None
               | _, _ => Some d'
               end) st1
       else st1).
Proof.
  intros Hk. unfold TradingBot.close_hedge_slot. rewrite Hk.
  unfold bind at 1.
  destruct (place_market_order_run (TradingBot.close_side_of p) (size p)
              (match k with long => idx1 | short => idx2 end) st)
    as (ok & extra & rest & Hpm).
  rewrite Hpm. exists ok, extra, rest. cbv zeta.
  destruct ok; [| done].
  unfold bind, set_entry, ret.
  destruct (dict_get (dict_set d k None) long), (dict_get (dict_set d k None) short);
    try done.
  unfold with_entry, with_positions. cbn [positions peak_portfolio_value exchange sent].
  by rewrite insert_insert_eq.
Qed.

(** In hedge mode [close_position] with a side clears the slot when, and
    only when, the close order came back; otherwise the ledger stays. *)
Lemma close_position_hedge sym d k p st :
  positions st !! sym = Some (Some d) ->
  dict_get d k = Some p ->
  exists (ok : bool) st',
    TradingBot.close_position E sym (Some k) st = (Ret ok, st')
    /\ (ok = false -> positions st' = positions st)
    /\ (ok = true ->
        let d' := dict_set d k None in
        positions st'
        = <[sym := match dict_get d' long, dict_get d' short with
                   | None, None => None
                   | _, _ => Some d'
                   end]> (positions st)).
Proof.
  intros Hd Hk.
  destruct (close_hedge_slot_run sym d k p st Hk) as (ok & extra & rest & Hrun).
  cbv zeta in Hrun.
  exists ok. eexists. split.
  - unfold TradingBot.close_position, bind, get_positions. rewrite Hd, hedged. exact Hrun.
  - split; intros ->; done.
Qed.

(** The stop-loss test comes first: a price that meets it closes "via stop
    loss" whatever the take-profit test says. *)
Lemma exit_trigger_stop_loss_first p price :
  TradingBot.stop_loss_hit p price = true ->
  TradingBot.exit_trigger p price = Some TradingBot.StopLoss.
Proof. intros H. unfold TradingBot.exit_trigger. by rewrite H. Qed.

Lemma exit_trigger_take_profit p price :
  TradingBot.stop_loss_hit p price = false ->
  TradingBot.take_profit_hit p price = true ->
  TradingBot.exit_trigger p price = Some TradingBot.TakeProfit.
Proof. intros H1 H2. unfold TradingBot.exit_trigger. by rewrite H1, H2. Qed.

(** In hedge mode a slot whose position meets a trigger is handed to
    [close_position] for that slot. *)
Lemma check_slot_triggered price sym d k p t :
  dict_get d k = Some p ->
  TradingBot.exit_trigger p price = Some t ->
  TradingBot.check_slot E price sym d k
  = (let* closed := TradingBot.close_position E sym (Some k) in
     ret (if closed then [(sym, Some k)] else [])).
Proof. intros Hk Ht. unfold TradingBot.check_slot. by rewrite Hk, Ht. Qed.

End HedgeSlots.

(** ** One-way mode: a position record is taken for a hedge-mode dict

    The one-way branches test [isinstance(symbol_positions, dict)] to find a
    leftover hedge-mode value, but the record stored in one-way mode is a
    dict too: it is "converted", has neither a ['long'] nor a ['short'] key,
    and the conversion yields [None]. *)

Section OneWayRecord.

Variable E : env.
Hypothesis one_way : config.hedge_mode (trading_config E) = false.

Lemma one_way_view_record p : one_way_view (record_of p) = None.
Proof. reflexivity. Qed.

(** [close_position] on a one-way record: nothing is sent, the result is
    [False], and the record is gone. *)
Lemma close_position_record sym k p st :
  positions st !! sym = Some (Some (record_of p)) ->
  TradingBot.close_position E sym k st = (Ret false, with_entry sym None st).
Proof.
  intros Hp. unfold TradingBot.close_position, bind, get_positions.
  rewrite Hp, one_way. reflexivity.
Qed.

(** [check_symbol] skips a one-way record whatever the price. *)
Lemma check_symbol_record price sym p st :
  TradingBot.check_symbol E price sym (Some (record_of p)) st = (Ret [], st).
Proof. unfold TradingBot.check_symbol. by rewrite one_way. Qed.

(** The one-way branch of [execute_signal] forgets a one-way record and
    lets the call go on, whatever the signal. *)
Lemma one_way_branch_record signal p st :
  TradingBot.one_way_branch E signal (Some (record_of p)) st
  = (Ret false, with_entry (symbol E) None st).
Proof. reflexivity. Qed.

End OneWayRecord.

(** C4 at the failing input.  One-way mode, the long position that
    [execute_signal] recorded: [close_position] returns [False] without
    sending a close order or using a reply of the exchange, and yet the
    record is removed from the ledger. *)
Theorem close_position_drops_one_way_record :
  let E := Scenario.one_way_env in
  let st := Scenario.opened E [Filled] in
  (exists p, positions st !! Scenario.btc = Some (Some (record_of p)) /\ side p = 1%Z)
  /\ TradingBot.close_position E Scenario.btc None st
     = (Ret false, with_entry Scenario.btc None st)
  /\ sent (with_entry Scenario.btc None st) = sent st
  /\ exchange (with_entry Scenario.btc None st) = [Filled]
  /\ positions (with_entry Scenario.btc None st) !! Scenario.btc = Some None.
Proof.
  intros E st.
  split; [eexists; split; vm_compute; reflexivity |].
  split; [| by vm_compute].
  eapply (close_position_record E eq_refl). vm_compute. reflexivity.
Qed.

(** C5 at the failing input.  One-way mode, the same long signal delivered
    twice with no exit in between: the second call sends a second buy order
    and returns [True]; in hedge mode the second call sends nothing. *)
Theorem repeated_signal_one_way_orders_twice :
  let first := Scenario.opened Scenario.one_way_env [Filled] in
  let second :=
    TradingBot.execute_signal Scenario.one_way_env 1 (Some 100) (Some 100000) first in
  let hedged :=
    TradingBot.execute_signal Scenario.hedge_env 1 (Some 100) (Some 100000)
      (Scenario.opened Scenario.hedge_env [Filled]) in
  exists amount,
    amount == 500
    /\ sent first = [CcxtOrder buy amount idx0]
    /\ fst second = Ret true
    /\ sent (snd second) = [CcxtOrder buy amount idx0; CcxtOrder buy amount idx0]
    /\ hedged = (Ret false, Scenario.opened Scenario.hedge_env [Filled])
    /\ sent (snd hedged) = [CcxtOrder buy amount idx1].
Proof.
  intros first second hedged. eexists.
  split; [| split; [vm_compute; reflexivity |]].
  - vm_compute. reflexivity.
  - repeat split; vm_compute; reflexivity.
Qed.

(** C6 at the failing input.  One-way mode, the long position that
    [execute_signal] recorded at 100 with its stop at 98: at a price of 97
    the stop-loss test holds for the record, but the monitor closes nothing
    and sends nothing; in hedge mode the same position is closed. *)
Theorem one_way_stop_loss_never_fires :
  let E := Scenario.one_way_env in
  let st := Scenario.opened E [Filled] in
  (exists p, positions st !! Scenario.btc = Some (Some (record_of p))
             /\ stop_loss_price p == 98
             /\ TradingBot.exit_trigger p 97 = Some TradingBot.StopLoss)
  /\ TradingBot.check_stop_loss_take_profit E 97 st = (Ret [], st)
  /\ fst (TradingBot.check_stop_loss_take_profit Scenario.hedge_env 97
            (Scenario.opened Scenario.hedge_env [Filled]))
     = Ret [(Scenario.btc, Some long)].
Proof.
  intros E st.
  split; [eexists; split; [vm_compute; reflexivity |]; split; vm_compute; reflexivity |].
  split; vm_compute; reflexivity.
Qed.

(** * Further properties *)

(** ** Relations kept by every ledger and exchange operation *)

Section Frame.

Variable R : bot -> bot -> Prop.
Hypothesis R_refl : forall st, R st st.
Hypothesis R_trans : forall x y z, R x y -> R y z -> R x z.
Hypothesis R_entry : forall sym v st, R st (with_entry sym v st).
Hypothesis R_order :
  forall s amount idx, always R (TradingBot.place_market_order s amount idx).

Variable E : env.

Lemma frame_set_entry sym v : always R (set_entry sym v).
Proof. intros st r st' H. inversion H. subst. apply R_entry. Qed.

Lemma frame_get_positions : always R get_positions.
Proof. intros st r st' H. inversion H. subst. apply R_refl. Qed.

Ltac frame_step :=
  match goal with
  | |- always _ (bind _ _) => apply always_bind; [exact R_trans | | intros ?]
  | |- always _ (ret _) => apply always_ret; exact R_refl
  | |- always _ (raise _) => apply always_raise; exact R_refl
  | |- always _ (set_entry _ _) => apply frame_set_entry
  | |- always _ (TradingBot.place_market_order _ _ _) => apply R_order
  | |- always _ get_positions => apply frame_get_positions
  | |- always _ (match ?x with _ => _ end) => destruct x
  | H : _ |- always _ _ => apply H
  end.

Lemma frame_close_hedge_slot sym d k : always R (TradingBot.close_hedge_slot sym d k).
Proof.
  unfold TradingBot.close_hedge_slot. repeat frame_step.
Qed.

Lemma frame_close_one_way sym v : always R (TradingBot.close_one_way sym v).
Proof.
  unfold TradingBot.close_one_way. repeat frame_step.
Qed.

Lemma frame_close_position_side sym k : always R (TradingBot.close_position_side E sym k).
Proof.
  pose proof frame_close_hedge_slot. pose proof frame_close_one_way.
  unfold TradingBot.close_position_side. repeat frame_step.
Qed.

Lemma frame_close_position sym k : always R (TradingBot.close_position E sym k).
Proof.
  pose proof frame_close_hedge_slot. pose proof frame_close_one_way.
  pose proof frame_close_position_side.
  unfold TradingBot.close_position. repeat frame_step.
Qed.

Lemma frame_exit_signal : always R (TradingBot.exit_signal E).
Proof.
  pose proof frame_close_position.
  unfold TradingBot.exit_signal. repeat frame_step.
Qed.

Lemma frame_hedge_branch signal v : always R (TradingBot.hedge_branch E signal v).
Proof. unfold TradingBot.hedge_branch. repeat frame_step. Qed.

Lemma frame_one_way_branch signal v : always R (TradingBot.one_way_branch E signal v).
Proof.
  pose proof frame_close_position.
  unfold TradingBot.one_way_branch. repeat frame_step.
Qed.

Lemma frame_place_and_store signal amount price :
  always R (TradingBot.place_and_store E signal amount price).
Proof.
  unfold TradingBot.place_and_store. repeat frame_step.
Qed.

Lemma frame_open_position signal price :
  always R (TradingBot.open_position E signal price).
Proof.
  pose proof frame_place_and_store.
  unfold TradingBot.open_position, TradingBot.can_open_new_position.
  repeat frame_step.
Qed.

(** [execute_signal] after the drawdown check. *)
Lemma frame_execute_signal_ungated signal price :
  always R (TradingBot.execute_signal E signal price None).
Proof.
  pose proof frame_exit_signal. pose proof frame_hedge_branch.
  pose proof frame_one_way_branch. pose proof frame_open_position.
  unfold TradingBot.execute_signal, TradingBot.drawdown_gate.
  repeat frame_step.
Qed.

Lemma frame_check_slot price sym d k : always R (TradingBot.check_slot E price sym d k).
Proof.
  pose proof frame_close_position.
  unfold TradingBot.check_slot. repeat frame_step.
Qed.

Lemma frame_check_symbol price sym v : always R (TradingBot.check_symbol E price sym v).
Proof.
  pose proof frame_close_position. pose proof frame_check_slot.
  unfold TradingBot.check_symbol. repeat frame_step.
Qed.

Lemma frame_check_symbols price syms : always R (TradingBot.check_symbols E price syms).
Proof.
  pose proof frame_check_symbol.
  induction syms as [| sym rest IH]; cbn [TradingBot.check_symbols]; repeat frame_step.
Qed.

Lemma frame_check_stop_loss_take_profit price :
  always R (TradingBot.check_stop_loss_take_profit E price).
Proof.
  pose proof frame_check_symbols.
  unfold TradingBot.check_stop_loss_take_profit. repeat frame_step.
Qed.

Lemma frame_close_all_symbol sym : always R (TradingBotOps.close_all_symbol E sym).
Proof.
  pose proof frame_close_position.
  unfold TradingBotOps.close_all_symbol. repeat frame_step.
Qed.

Lemma frame_close_all_positions : always R (TradingBotOps.close_all_positions E).
Proof.
  pose proof frame_close_all_symbol.
  unfold TradingBotOps.close_all_positions.
  apply always_bind; [exact R_trans | apply frame_get_positions | intros m].
  induction (fst <$> map_to_list m) as [| sym rest IH];
    cbn [TradingBotOps.close_all_symbols]; repeat frame_step.
Qed.

End Frame.

(** An order leaves alone what neither the request log nor the replies
    change. *)
Lemma place_market_order_frame (R : bot -> bot -> Prop) s amount idx :
  (forall x y z, R x y -> R y z -> R x z) ->
  (forall l st, R st (with_sent l st)) ->
  (forall rs st, R st (with_exchange rs st)) ->
  always R (TradingBot.place_market_order s amount idx).
Proof.
  intros Htrans Hsent Hex st r st' Hrun.
  destruct (place_market_order_run s amount idx st) as (ok & extra & rest & Hpm).
  rewrite Hpm in Hrun. inversion Hrun; subst.
  eapply Htrans; [apply Hex | apply Hsent].
Qed.

(** ** The peak *)

Section Peak.

Variable E : env.

Lemma peak_kept_refl st : peak_kept st st.
Proof. reflexivity. Qed.

Lemma peak_kept_trans x y z : peak_kept x y -> peak_kept y z -> peak_kept x z.
Proof. unfold peak_kept. congruence. Qed.

Lemma peak_not_lowered_refl st : peak_not_lowered st st.
Proof. apply Qle_refl. Qed.

Lemma peak_not_lowered_trans x y z :
  peak_not_lowered x y -> peak_not_lowered y z -> peak_not_lowered x z.
Proof. apply Qle_trans. Qed.

Lemma peak_kept_not_lowered {A} (m : M A) :
  always peak_kept m -> always peak_not_lowered m.
Proof.
  intros H st r st' Hrun. unfold peak_not_lowered.
  rewrite (H st r st' Hrun). apply Qle_refl.
Qed.

(** Every operation on ledger and exchange keeps the peak. *)
Lemma peak_kept_frame {A} (m : M A) :
  (forall R : bot -> bot -> Prop,
      (forall st, R st st) -> (forall x y z, R x y -> R y z -> R x z) ->
      (forall sym v st, R st (with_entry sym v st)) ->
      (forall s amount idx, always R (TradingBot.place_market_order s amount idx)) ->
      always R m) ->
  always peak_kept m.
Proof.
  intros H. apply H; [apply peak_kept_refl | apply peak_kept_trans | done |].
  intros s amount idx. apply place_market_order_frame; [apply peak_kept_trans | done | done].
Qed.

Lemma check_global_drawdown_peak v st r st' :
  TradingBot.check_global_drawdown E v st = (r, st') ->
  peak_portfolio_value st <= peak_portfolio_value st'
  /\ v <= peak_portfolio_value st'.
Proof.
  unfold TradingBot.check_global_drawdown, bind, get_peak, set_peak, ret, raise.
  destruct (Py.gt v (peak_portfolio_value st)) eqn:Hgt;
    cbn [peak_portfolio_value with_peak];
    destruct (Py.eq _ 0); try destruct (Py.ge _ _);
    intros H; inversion H; subst; cbn [peak_portfolio_value with_peak];
    try (apply Py_gt_iff in Hgt); try (apply Py_gt_false_iff in Hgt);
    split; lra.
Qed.

Lemma drawdown_gate_peak balance :
  always peak_not_lowered (TradingBot.drawdown_gate E balance).
Proof.
  destruct balance as [v |]; cbn.
  - intros st r st' H. by apply (check_global_drawdown_peak v st r st').
  - apply always_ret, peak_not_lowered_refl.
Qed.

Lemma execute_signal_peak signal price balance :
  always peak_not_lowered (TradingBot.execute_signal E signal price balance).
Proof.
  pose proof (peak_kept_not_lowered _
                (peak_kept_frame _ (fun R a b c d =>
                   frame_execute_signal_ungated R a b c d E signal price))) as Hrest.
  unfold TradingBot.execute_signal in *.
  destruct (signal =? 0)%Z; [exact Hrest |].
  apply always_bind; [apply peak_not_lowered_trans | apply drawdown_gate_peak |].
  intros halted. destruct halted; [apply always_ret, peak_not_lowered_refl |].
  intros st r st' Hrun. apply (Hrest st r st').
  unfold TradingBot.drawdown_gate. unfold bind at 1. unfold ret at 1. exact Hrun.
Qed.

Lemma run_iteration_peak tk :
  always peak_not_lowered (LiveTradingBot.run_iteration E tk).
Proof.
  unfold LiveTradingBot.run_iteration.
  apply always_bind; [apply peak_not_lowered_trans | |].
  - destruct (LiveTradingBot.truthy _).
    + apply (drawdown_gate_peak (Some q)).
    + apply always_ret, peak_not_lowered_refl.
  - intros halted. destruct halted; [apply always_ret, peak_not_lowered_refl |].
    destruct (LiveTradingBot.latest_data tk) as [run |];
      [| apply always_ret, peak_not_lowered_refl].
    destruct (LiveTradingBot.get_current_signal run) as [signal |];
      [| apply always_ret, peak_not_lowered_refl].
    apply always_bind; [apply peak_not_lowered_trans | |].
    + destruct (LiveTradingBot.truthy (LiveTradingBot.current_price tk)) as [price |];
        [| apply always_ret, peak_not_lowered_refl].
      apply always_bind; [apply peak_not_lowered_trans | |].
      * apply peak_kept_not_lowered, peak_kept_frame.
        intros R a b c d. by apply frame_check_stop_loss_take_profit.
      * intros ?. apply always_ret, peak_not_lowered_refl.
    + intros _. apply always_bind; [apply peak_not_lowered_trans | |].
      * apply execute_signal_peak.
      * intros ?. apply always_ret, peak_not_lowered_refl.
Qed.

End Peak.

(** X1.  The peak of the portfolio value is a high-water mark: the drawdown
    check leaves it at least as high as it was and at least as high as the
    value it was given, closing and the exit monitor do not touch it, and
    neither a signal nor a whole pass of the loop ever lowers it. *)
Theorem peak_is_high_water_mark (E : env) :
  (forall v st r st',
      TradingBot.check_global_drawdown E v st = (r, st') ->
      peak_portfolio_value st <= peak_portfolio_value st'
      /\ v <= peak_portfolio_value st')
  /\ (forall sym k, always peak_kept (TradingBot.close_position E sym k))
  /\ (forall price, always peak_kept (TradingBot.check_stop_loss_take_profit E price))
  /\ always peak_kept (TradingBotOps.close_all_positions E)
  /\ (forall signal price balance,
        always peak_not_lowered (TradingBot.execute_signal E signal price balance))
  /\ (forall tk, always peak_not_lowered (LiveTradingBot.run_iteration E tk)).
Proof.
  split; [apply check_global_drawdown_peak |].
  split; [intros; apply peak_kept_frame; intros R a b c d; by apply frame_close_position |].
  split; [intros; apply peak_kept_frame; intros R a b c d;
          by apply frame_check_stop_loss_take_profit |].
  split; [apply peak_kept_frame; intros R a b c d; by apply frame_close_all_positions |].
  split; [apply execute_signal_peak | apply run_iteration_peak].
Qed.

(** A bot that starts at the configured capital of 100000: after a value of
    120000 and then one of 90000 the peak is 120000. *)
Lemma peak_is_high_water_mark_witness :
  let E := Scenario.one_way_env in
  let st := TradingBot.init config.source [] in
  let st1 := snd (TradingBot.check_global_drawdown E 120000 st) in
  let st2 := snd (TradingBot.check_global_drawdown E 90000 st1) in
  peak_portfolio_value st <= peak_portfolio_value st2
  /\ 120000 <= peak_portfolio_value st1.
Proof.
  intros E st st1 st2.
  pose proof (peak_is_high_water_mark E) as (Hcheck & _).
  destruct (Hcheck 120000 st _ st1 (surjective_pairing _)) as [H1 H1'].
  destruct (Hcheck 90000 st1 _ st2 (surjective_pairing _)) as [H2 _].
  split; [eapply Qle_trans; eassumption | exact H1'].
Defined.

(** ** What can raise *)

Section NoRaise.

Variable E : env.

Lemma returns_ret {A} (a : A) : returns (ret a).
Proof. intros st. by exists a, st. Qed.

Lemma returns_bind {A B} (m : M A) (k : A -> M B) :
  returns m -> (forall a, returns (k a)) -> returns (bind m k).
Proof.
  intros Hm Hk st. destruct (Hm st) as (a & st1 & H1).
  destruct (Hk a st1) as (b & st2 & H2).
  exists b, st2. unfold bind. by rewrite H1.
Qed.

Lemma returns_set_entry sym v : returns (set_entry sym v).
Proof. intros st. by eexists _, _. Qed.

Lemma returns_send rq : returns (send rq).
Proof. intros st. by eexists _, _. Qed.

Lemma returns_get_positions : returns get_positions.
Proof. intros st. by eexists _, _. Qed.

Lemma returns_next_reply : returns next_reply.
Proof. intros st. unfold next_reply. destruct (exchange st); by eexists _, _. Qed.

Ltac returns_step :=
  match goal with
  | |- returns (bind _ _) => apply returns_bind; [| intros ?]
  | |- returns (ret _) => apply returns_ret
  | |- returns (set_entry _ _) => apply returns_set_entry
  | |- returns (send _) => apply returns_send
  | |- returns next_reply => apply returns_next_reply
  | |- returns get_positions => apply returns_get_positions
  | |- returns (match ?x with _ => _ end) => destruct x
  | H : _ |- returns _ => apply H
  end.

Lemma returns_place_market_order s amount idx :
  returns (TradingBot.place_market_order s amount idx).
Proof.
  unfold TradingBot.place_market_order, TradingBot._place_order_direct_api.
  repeat returns_step.
Qed.

Lemma returns_close_position sym k : returns (TradingBot.close_position E sym k).
Proof.
  pose proof returns_place_market_order.
  assert (forall k', returns (TradingBot.close_position_side E sym k')).
  { intros k'.
    unfold TradingBot.close_position_side, TradingBot.close_hedge_slot,
      TradingBot.close_one_way.
    repeat returns_step. }
  unfold TradingBot.close_position, TradingBot.close_hedge_slot, TradingBot.close_one_way.
  repeat returns_step.
Qed.

Lemma returns_exit_signal : returns (TradingBot.exit_signal E).
Proof.
  pose proof returns_close_position.
  unfold TradingBot.exit_signal. repeat returns_step.
Qed.

Lemma returns_open_position signal price :
  returns (TradingBot.open_position E signal (Some price)).
Proof.
  pose proof returns_place_market_order.
  unfold TradingBot.open_position, TradingBot.can_open_new_position,
    TradingBot.place_and_store.
  repeat returns_step.
Qed.

Lemma returns_execute_signal_ungated signal price :
  returns (TradingBot.execute_signal E signal (Some price) None).
Proof.
  pose proof returns_close_position. pose proof returns_exit_signal.
  pose proof returns_open_position.
  unfold TradingBot.execute_signal, TradingBot.drawdown_gate,
    TradingBot.hedge_branch, TradingBot.one_way_branch.
  repeat returns_step.
Qed.

Lemma returns_check_stop_loss_take_profit price :
  returns (TradingBot.check_stop_loss_take_profit E price).
Proof.
  pose proof returns_close_position.
  assert (Hsym : forall sym v, returns (TradingBot.check_symbol E price sym v)).
  { intros sym v. unfold TradingBot.check_symbol, TradingBot.check_slot.
    repeat returns_step. }
  unfold TradingBot.check_stop_loss_take_profit.
  apply returns_bind; [apply returns_get_positions | intros m].
  induction (fst <$> map_to_list m) as [| sym rest IH];
    cbn [TradingBot.check_symbols]; repeat returns_step.
Qed.

Lemma returns_close_all_positions : returns (TradingBotOps.close_all_positions E).
Proof.
  pose proof returns_close_position.
  unfold TradingBotOps.close_all_positions.
  apply returns_bind; [apply returns_get_positions | intros m].
  induction (fst <$> map_to_list m) as [| sym rest IH];
    cbn [TradingBotOps.close_all_symbols]; [apply returns_ret |].
  apply returns_bind; [| intros ?; repeat returns_step].
  unfold TradingBotOps.close_all_symbol. repeat returns_step.
Qed.

(** With a positive peak the drawdown check divides by a positive number. *)
Lemma check_global_drawdown_returns v st :
  0 < peak_portfolio_value st ->
  exists halted st', TradingBot.check_global_drawdown E v st = (Ret halted, st').
Proof.
  intros Hpeak.
  pose proof (check_global_drawdown_defined E v st) as Hdef. cbv zeta in Hdef.
  eexists _, _. apply Hdef.
  rewrite <- peak_update_max.
  destruct (Py.gt v (peak_portfolio_value st)) eqn:Hgt; [| lra].
  apply Py_gt_iff in Hgt. lra.
Qed.

Lemma execute_signal_returns signal price balance st :
  0 < peak_portfolio_value st ->
  exists done st', TradingBot.execute_signal E signal (Some price) balance st
                   = (Ret done, st').
Proof.
  intros Hpeak. destruct balance as [v |]; [| apply returns_execute_signal_ungated].
  destruct (Z.eq_dec signal 0%Z) as [-> | Hs].
  - apply (returns_exit_signal st).
  - rewrite execute_signal_gate by done.
    destruct (check_global_drawdown_returns v st Hpeak) as (halted & st1 & Hrun).
    rewrite Hrun. destruct halted; [by eexists _, _ |].
    apply returns_execute_signal_ungated.
Qed.

(** Without a price, a directional call that reaches the sizing fails. *)
Lemma open_position_without_price signal st :
  (TradingBot.active_count (config.hedge_mode (trading_config E)) (positions st)
   < max_concurrent_trades E)%Z ->
  TradingBot.open_position E signal None st = (Raise TypeError, st).
Proof.
  intros Hfree. unfold TradingBot.open_position, bind.
  rewrite can_open_new_position_run.
  apply Z.ltb_lt in Hfree. by rewrite Hfree.
Qed.

End NoRaise.

(** X2.  Closing, the exit monitor, closing everything and the flat signal
    never raise.  A directional signal with a price raises nothing as long
    as the peak is positive; without a price it raises a [TypeError] once
    it is past the concurrency check. *)
Theorem what_can_raise (E : env) :
  (forall sym k, returns (TradingBot.close_position E sym k))
  /\ (forall price, returns (TradingBot.check_stop_loss_take_profit E price))
  /\ returns (TradingBotOps.close_all_positions E)
  /\ (forall price balance, returns (TradingBot.execute_signal E 0 price balance))
  /\ (forall signal price balance st,
        0 < peak_portfolio_value st ->
        exists done st',
          TradingBot.execute_signal E signal (Some price) balance st = (Ret done, st'))
  /\ (forall signal st,
        (TradingBot.active_count (config.hedge_mode (trading_config E)) (positions st)
         < max_concurrent_trades E)%Z ->
        TradingBot.open_position E signal None st = (Raise TypeError, st)).
Proof.
  split; [apply returns_close_position |].
  split; [apply returns_check_stop_loss_take_profit |].
  split; [apply returns_close_all_positions |].
  split; [intros; apply returns_exit_signal |].
  split; [apply execute_signal_returns | apply open_position_without_price].
Qed.

(** A long signal at a price of 100 on a fresh bot returns; the same signal
    without a price raises. *)
Lemma what_can_raise_witness :
  let E := Scenario.one_way_env in
  let st := TradingBot.init config.source [] in
  (exists done st', TradingBot.execute_signal E 1 (Some 100) (Some 100000) st = (Ret done, st'))
  /\ TradingBot.open_position E 1 None st = (Raise TypeError, st).
Proof.
  intros E st.
  pose proof (what_can_raise E) as (_ & _ & _ & _ & Hret & Hraise).
  split.
  - apply Hret. reflexivity.
  - apply Hraise. reflexivity.
Defined.

(** ** The number of open slots stays within the limit *)

Section CountInvariant.

Variable E : env.

Lemma count_not_grown_refl h st : count_not_grown h st st.
Proof. unfold count_not_grown. lia. Qed.

Lemma count_not_grown_trans h x y z :
  count_not_grown h x y -> count_not_grown h y z -> count_not_grown h x z.
Proof. unfold count_not_grown. lia. Qed.

(** The count after a write under [sym], from the value that was there. *)
Lemma active_count_with_entry h sym v st :
  TradingBot.active_count h (positions (with_entry sym v st))
  = (TradingBot.active_count h (positions st)
     - match positions st !! sym with
       | Some old => TradingBot.slots h old
       | None => 0
       end
     + TradingBot.slots h v)%Z.
Proof.
  cbn [with_entry with_positions positions].
  destruct (positions st !! sym) as [old |] eqn:Hold.
  - by apply active_count_update.
  - rewrite active_count_insert by done. lia.
Qed.

Lemma slots_nonneg h v : (0 <= TradingBot.slots h v)%Z.
Proof.
  unfold TradingBot.slots.
  destruct h, v as [d |]; try lia.
  destruct (dict_get d long), (dict_get d short); lia.
Qed.

Lemma slots_dict_set_None h d k :
  (TradingBot.slots h (Some (dict_set d k None)) <= TradingBot.slots h (Some d))%Z.
Proof.
  destruct h, k; cbn; destruct (slot_long d), (slot_short d); lia.
Qed.

Lemma slots_one_way_view h d :
  (TradingBot.slots h (record_of <$> one_way_view d) <= TradingBot.slots h (Some d))%Z.
Proof.
  unfold one_way_view.
  destruct h; cbn; destruct (slot_long d), (slot_short d); cbn; lia.
Qed.

(** A write that does not add slots to what was under the symbol. *)
Lemma set_entry_count_not_grown h sym v old st :
  positions st !! sym = Some old ->
  (TradingBot.slots h v <= TradingBot.slots h old)%Z ->
  count_not_grown h st (with_entry sym v st).
Proof.
  intros Hold Hle. unfold count_not_grown.
  rewrite active_count_with_entry, Hold. lia.
Qed.

Lemma orders_count_not_grown h st l rest :
  count_not_grown h st (with_sent l (with_exchange rest st)).
Proof. unfold count_not_grown. cbn. lia. Qed.

Lemma close_hedge_slot_count h sym d k st r st' :
  positions st !! sym = Some (Some d) ->
  TradingBot.close_hedge_slot sym d k st = (r, st') ->
  count_not_grown h st st'.
Proof.
  intros Hd Hrun. unfold TradingBot.close_hedge_slot in Hrun.
  destruct (dict_get d k) as [p |];
    [| inversion Hrun; subst; apply count_not_grown_refl].
  unfold bind in Hrun at 1.
  destruct (place_market_order_run (TradingBot.close_side_of p) (size p)
              (match k with long => idx1 | short => idx2 end) st)
    as (ok & extra & rest & Hpm).
  rewrite Hpm in Hrun. set (st1 := with_sent _ _) in Hrun.
  destruct ok; [| inversion Hrun; subst; apply orders_count_not_grown].
  assert (H1 : count_not_grown h st (with_entry sym (Some (dict_set d k None)) st1)).
  { apply (count_not_grown_trans h st st1); [apply orders_count_not_grown |].
    apply (set_entry_count_not_grown h sym _ (Some d)); [done |].
    apply slots_dict_set_None. }
  unfold bind, set_entry, ret in Hrun.
  destruct (dict_get (dict_set d k None) long), (dict_get (dict_set d k None) short);
    inversion Hrun; subst; try exact H1.
  eapply count_not_grown_trans; [exact H1 |].
  apply (set_entry_count_not_grown h sym None (Some (dict_set d k None)));
    [apply lookup_insert_eq |].
  destruct h; [cbn | cbn; lia]. apply (slots_nonneg true (Some (dict_set d k None))).
Qed.

Lemma close_one_way_count h sym v st r st' :
  positions st !! sym = Some v ->
  TradingBot.close_one_way sym v st = (r, st') ->
  count_not_grown h st st'.
Proof.
  intros Hv Hrun. unfold TradingBot.close_one_way in Hrun.
  destruct v as [d |]; [| inversion Hrun; subst; apply count_not_grown_refl].
  unfold bind at 1 2 in Hrun. unfold set_entry at 1, ret at 1 in Hrun.
  set (st1 := with_entry sym (record_of <$> one_way_view d) st) in Hrun.
  assert (H1 : count_not_grown h st st1).
  { apply (set_entry_count_not_grown h sym _ (Some d)); [done |].
    apply slots_one_way_view. }
  destruct (one_way_view d) as [p |]; [| inversion Hrun; by subst].
  unfold bind in Hrun at 1.
  destruct (place_market_order_run (TradingBot.close_side_of p) (size p) idx0 st1)
    as (ok & extra & rest & Hpm).
  rewrite Hpm in Hrun. set (st2 := with_sent _ _) in Hrun.
  assert (H2 : count_not_grown h st st2).
  { eapply count_not_grown_trans; [exact H1 | apply orders_count_not_grown]. }
  destruct ok; [| inversion Hrun; by subst].
  unfold bind, set_entry, ret in Hrun. inversion Hrun; subst.
  eapply count_not_grown_trans; [exact H2 |].
  apply (set_entry_count_not_grown h sym None (Some (record_of p)));
    [apply lookup_insert_eq |].
  destruct h; cbn; lia.
Qed.

Lemma close_position_side_count h sym k :
  always (count_not_grown h) (TradingBot.close_position_side E sym k).
Proof.
  intros st r st' Hrun. unfold TradingBot.close_position_side in Hrun.
  unfold bind, get_positions in Hrun.
  destruct (positions st !! sym) as [v |] eqn:Hv;
    [| inversion Hrun; subst; apply count_not_grown_refl].
  destruct (config.hedge_mode (trading_config E)); [destruct v as [d |] |].
  - by eapply close_hedge_slot_count.
  - by eapply close_one_way_count.
  - by eapply close_one_way_count.
Qed.

Lemma close_position_count h sym k :
  always (count_not_grown h) (TradingBot.close_position E sym k).
Proof.
  intros st r st' Hrun. unfold TradingBot.close_position in Hrun.
  unfold bind at 1, get_positions in Hrun.
  destruct (positions st !! sym) as [v |] eqn:Hv;
    [| inversion Hrun; subst; apply count_not_grown_refl].
  destruct (config.hedge_mode (trading_config E)); [destruct v as [d |] |].
  - destruct k as [k |]; [by eapply close_hedge_slot_count |].
    revert st r st' Hv Hrun.
    assert (Hboth : always (count_not_grown h)
              (let* closed_long :=
                 if dict_get d long is Some _
                 then TradingBot.close_position_side E sym long else ret false in
               let* closed_short :=
                 if dict_get d short is Some _
                 then TradingBot.close_position_side E sym short else ret false in
               ret (closed_long || closed_short))).
    { apply always_bind; [apply count_not_grown_trans | |].
      - destruct (dict_get d long);
          [apply close_position_side_count | apply always_ret, count_not_grown_refl].
      - intros a. apply always_bind; [apply count_not_grown_trans | |].
        + destruct (dict_get d short);
            [apply close_position_side_count | apply always_ret, count_not_grown_refl].
        + intros b. apply always_ret, count_not_grown_refl. }
    intros st r st' _ Hrun. by eapply Hboth.
  - by eapply close_one_way_count.
  - by eapply close_one_way_count.
Qed.

End CountInvariant.

(** ** What holds of every close holds of all that only closes *)

Section Closers.

Variable E : env.
Variable R : bot -> bot -> Prop.
Hypothesis R_refl : forall st, R st st.
Hypothesis R_trans : forall x y z, R x y -> R y z -> R x z.
Hypothesis R_close : forall sym k, always R (TradingBot.close_position E sym k).

Ltac closers_step :=
  match goal with
  | |- always _ (bind _ _) => apply always_bind; [exact R_trans | | intros ?]
  | |- always _ (ret _) => apply always_ret; exact R_refl
  | |- always _ get_positions => apply get_positions_always; exact R_refl
  | |- always _ (TradingBot.close_position _ _ _) => apply R_close
  | |- always _ (match ?x with _ => _ end) => destruct x
  | H : _ |- always _ _ => apply H
  end.

Lemma closers_exit_signal : always R (TradingBot.exit_signal E).
Proof. unfold TradingBot.exit_signal. repeat closers_step. Qed.

Lemma closers_check_symbol price sym v : always R (TradingBot.check_symbol E price sym v).
Proof. unfold TradingBot.check_symbol, TradingBot.check_slot. repeat closers_step. Qed.

Lemma closers_check_stop_loss_take_profit price :
  always R (TradingBot.check_stop_loss_take_profit E price).
Proof.
  pose proof closers_check_symbol.
  unfold TradingBot.check_stop_loss_take_profit.
  apply always_bind; [exact R_trans | apply get_positions_always; exact R_refl | intros m].
  induction (fst <$> map_to_list m) as [| sym rest IH];
    cbn [TradingBot.check_symbols]; repeat closers_step.
Qed.

Lemma closers_close_all_positions : always R (TradingBotOps.close_all_positions E).
Proof.
  unfold TradingBotOps.close_all_positions.
  apply always_bind; [exact R_trans | apply get_positions_always; exact R_refl | intros m].
  induction (fst <$> map_to_list m) as [| sym rest IH];
    cbn [TradingBotOps.close_all_symbols]; [closers_step |].
  apply always_bind; [exact R_trans | | intros ?; repeat closers_step].
  unfold TradingBotOps.close_all_symbol. repeat closers_step.
Qed.

End Closers.

Section WithinLimit.

Variable E : env.

Let hm : bool := config.hedge_mode (trading_config E).

Lemma hedge_branch_count signal v st r st' :
  positions st !! symbol E = Some v ->
  TradingBot.hedge_branch E signal v st = (r, st') ->
  count_not_grown true st st'.
Proof.
  intros Hv Hrun. unfold TradingBot.hedge_branch in Hrun.
  destruct v as [d |].
  - destruct (dict_get d (TradingBot.side_key_of signal));
      inversion Hrun; subst; apply count_not_grown_refl.
  - unfold bind, set_entry, ret in Hrun. inversion Hrun; subst.
    apply (set_entry_count_not_grown true _ _ None); [done | cbn; lia].
Qed.

Lemma one_way_branch_count h signal v st r st' :
  positions st !! symbol E = Some v ->
  TradingBot.one_way_branch E signal v st = (r, st') ->
  count_not_grown h st st'.
Proof.
  intros Hv Hrun. unfold TradingBot.one_way_branch in Hrun.
  destruct v as [d |]; [| inversion Hrun; subst; apply count_not_grown_refl].
  unfold bind at 1 in Hrun. unfold set_entry at 1 in Hrun.
  set (st1 := with_entry (symbol E) (record_of <$> one_way_view d) st) in Hrun.
  assert (H1 : count_not_grown h st st1).
  { apply (set_entry_count_not_grown h _ _ (Some d)); [done |].
    apply slots_one_way_view. }
  destruct (one_way_view d) as [p |]; [| inversion Hrun; by subst].
  destruct (TradingBot.is_reversal signal p).
  - apply bind_inv in Hrun as [(closed & st2 & Hclose & Hrest) | (e & Hclose & _)].
    + pose proof (close_position_count E h _ _ _ _ _ Hclose) as H2.
      destruct closed; [inversion Hrest; subst; by eapply count_not_grown_trans |].
      unfold bind, set_entry, ret in Hrest. inversion Hrest; subst.
      eapply count_not_grown_trans; [eapply count_not_grown_trans; eassumption |].
      unfold count_not_grown. rewrite active_count_with_entry.
      pose proof (slots_nonneg h None).
      destruct (positions st2 !! symbol E) as [old |];
        [pose proof (slots_nonneg h old) |]; destruct h; cbn in *; lia.
    + pose proof (close_position_count E h _ _ _ _ _ Hclose) as H2.
      by eapply count_not_grown_trans.
  - destruct (signal =? side p)%Z; inversion Hrun; by subst.
Qed.

(** A write of the record of a new position adds at most one slot. *)
Lemma slots_stored_entry signal amount price cur :
  (TradingBot.slots hm (TradingBot.stored_entry E signal amount price cur)
   <= match cur with Some old => TradingBot.slots hm old | None => 0 end + 1)%Z.
Proof.
  unfold TradingBot.stored_entry. fold hm.
  destruct hm.
  - destruct cur as [[d |] |]; destruct (TradingBot.side_key_of signal); cbn;
      try destruct (slot_long d); try destruct (slot_short d); lia.
  - destruct cur as [[d |] |]; cbn; lia.
Qed.

Lemma open_position_count signal price st r st' :
  TradingBot.open_position E signal price st = (r, st') ->
  (TradingBot.active_count hm (positions st) <= max_concurrent_trades E)%Z ->
  (TradingBot.active_count hm (positions st') <= max_concurrent_trades E)%Z.
Proof.
  intros Hrun Hle.
  destruct (Z.lt_ge_cases (TradingBot.active_count hm (positions st))
              (max_concurrent_trades E)) as [Hfree | Hfull].
  - destruct price as [price |];
      [| rewrite open_position_without_price in Hrun by done; inversion Hrun; by subst].
    rewrite open_position_permitted in Hrun by done.
    destruct (TradingBot.position_size E signal price) as [amount |];
      [| inversion Hrun; by subst].
    destruct (place_and_store_run E signal amount price st) as (ok & extra & rest & Hps).
    cbv zeta in Hps. rewrite Hps in Hrun. inversion Hrun; subst.
    destruct ok; [| done].
    rewrite active_count_with_entry.
    cbn [positions with_sent with_exchange].
    pose proof (slots_stored_entry signal amount price (positions st !! symbol E)).
    destruct (positions st !! symbol E) as [old |]; lia.
  - rewrite open_position_refused in Hrun by done. inversion Hrun; by subst.
Qed.

Lemma execute_signal_ungated_count signal price st r st' :
  TradingBot.execute_signal E signal price None st = (r, st') ->
  (TradingBot.active_count hm (positions st) <= max_concurrent_trades E)%Z ->
  (TradingBot.active_count hm (positions st') <= max_concurrent_trades E)%Z.
Proof.
  intros Hrun Hle. unfold TradingBot.execute_signal in Hrun.
  destruct (signal =? 0)%Z.
  { pose proof (closers_exit_signal E (count_not_grown hm) (count_not_grown_refl hm)
                  (count_not_grown_trans hm) (close_position_count E hm) _ _ _ Hrun) as H.
    unfold count_not_grown in H. lia. }
  unfold TradingBot.drawdown_gate in Hrun.
  unfold bind at 1, ret at 1 in Hrun.
  unfold bind at 1, get_positions at 1 in Hrun.
  assert (Hbranch : forall v st0 r0 st0',
            positions st0 !! symbol E = Some v ->
            (if config.hedge_mode (trading_config E)
             then TradingBot.hedge_branch E signal v
             else TradingBot.one_way_branch E signal v) st0 = (r0, st0') ->
            count_not_grown hm st0 st0').
  { intros v st0 r0 st0' Hv Hb. subst hm.
    destruct (config.hedge_mode (trading_config E)).
    - by eapply hedge_branch_count.
    - by eapply one_way_branch_count. }
  assert (Hrest : forall st0,
            (TradingBot.active_count hm (positions st0) <= max_concurrent_trades E)%Z ->
            is_Some (positions st0 !! symbol E) ->
            (let* m := get_positions in
             let* skip :=
               (if config.hedge_mode (trading_config E)
                then TradingBot.hedge_branch E signal (default None (m !! symbol E))
                else TradingBot.one_way_branch E signal (default None (m !! symbol E))) in
             if skip then ret false else TradingBot.open_position E signal price) st0
            = (r, st') ->
            (TradingBot.active_count hm (positions st') <= max_concurrent_trades E)%Z).
  { intros st0 Hle0 [v Hv] Hrun0.
    unfold bind at 1, get_positions at 1 in Hrun0. rewrite Hv in Hrun0. cbn [default] in Hrun0.
    unfold id in Hrun0.
    apply bind_inv in Hrun0 as [(skip & st1 & Hb & Hopen) | (e & Hb & _)].
    - pose proof (Hbranch _ _ _ _ Hv Hb) as Hc. unfold count_not_grown in Hc.
      destruct skip; [inversion Hopen; subst; lia |].
      eapply open_position_count; [exact Hopen | lia].
    - pose proof (Hbranch _ _ _ _ Hv Hb) as Hc. unfold count_not_grown in Hc. lia. }
  destruct (positions st !! symbol E) as [v |] eqn:Hv.
  - unfold bind at 1, ret at 1 in Hrun. eapply Hrest; [exact Hle | by rewrite Hv | exact Hrun].
  - unfold bind at 1, set_entry at 1 in Hrun.
    eapply Hrest; [| | exact Hrun].
    + rewrite active_count_with_entry, Hv. subst hm.
      destruct (config.hedge_mode (trading_config E)); cbn; lia.
    + cbn [with_entry with_positions positions]. rewrite lookup_insert_eq. by eexists.
Qed.

End WithinLimit.

(** X3.  The concurrency limit is an invariant: when the count of open slots
    is within [max_concurrent_trades] before [execute_signal], it is within
    it afterwards, whatever the signal, the price, the balance and the
    exchange do; and closing, the exit monitor and closing everything never
    raise the count. *)
Theorem concurrency_limit_invariant (E : env) :
  let hm := config.hedge_mode (trading_config E) in
  (forall signal price balance st r st',
      TradingBot.execute_signal E signal price balance st = (r, st') ->
      (TradingBot.active_count hm (positions st) <= max_concurrent_trades E)%Z ->
      (TradingBot.active_count hm (positions st') <= max_concurrent_trades E)%Z)
  /\ (forall h sym k, always (count_not_grown h) (TradingBot.close_position E sym k))
  /\ (forall h price,
        always (count_not_grown h) (TradingBot.check_stop_loss_take_profit E price))
  /\ (forall h, always (count_not_grown h) (TradingBotOps.close_all_positions E)).
Proof.
  intros hm. split; [| split; [| split]].
  - intros signal price balance st r st' Hrun Hle.
    destruct balance as [v |]; [| by eapply execute_signal_ungated_count].
    destruct (Z.eq_dec signal 0%Z) as [-> | Hs];
      [by eapply (execute_signal_ungated_count E 0 price) |].
    rewrite execute_signal_gate in Hrun by done.
    destruct (TradingBot.check_global_drawdown E v st) as [[halted | e] st1] eqn:Hgate.
    + pose proof (check_global_drawdown_untouched E v _ _ _ Hgate) as (Hpos & _).
      destruct halted; [inversion Hrun; subst; by rewrite Hpos |].
      eapply execute_signal_ungated_count; [exact Hrun | by rewrite Hpos].
    + pose proof (check_global_drawdown_untouched E v _ _ _ Hgate) as (Hpos & _).
      inversion Hrun; subst. by rewrite Hpos.
  - intros. apply close_position_count.
  - intros. apply closers_check_stop_loss_take_profit;
      [apply count_not_grown_refl | apply count_not_grown_trans | apply close_position_count].
  - intros. apply closers_close_all_positions;
      [apply count_not_grown_refl | apply count_not_grown_trans | apply close_position_count].
Qed.

(** Hedge mode with room for two trades and two long positions open: after a
    short signal the count is still two. *)
Lemma concurrency_limit_invariant_witness :
  let E := Scenario.bot_env Scenario.two_trades Scenario.hedge in
  let st := Scenario.two_longs [Filled] in
  Z.le (TradingBot.active_count true
          (positions (snd (TradingBot.execute_signal E (-1) (Some 100) (Some 100000) st))))
       2.
Proof.
  intros E st.
  pose proof (concurrency_limit_invariant E) as (Hinv & _).
  apply (Hinv (-1)%Z (Some 100) (Some 100000) st
           (fst (TradingBot.execute_signal E (-1) (Some 100) (Some 100000) st))).
  - apply surjective_pairing.
  - vm_compute. discriminate.
Defined.

(** ** What a reported success stands for *)

Section Success.

Variable E : env.

Let hm : bool := config.hedge_mode (trading_config E).

Lemma sent_extended_refl st : sent_extended st st.
Proof. exists []. by rewrite app_nil_r. Qed.

Lemma sent_extended_trans x y z :
  sent_extended x y -> sent_extended y z -> sent_extended x z.
Proof. intros [l1 H1] [l2 H2]. exists (l1 ++ l2). by rewrite H2, H1, app_assoc. Qed.

Lemma sent_extended_entry sym v st : sent_extended st (with_entry sym v st).
Proof. exists []. cbn. by rewrite app_nil_r. Qed.

Lemma sent_extended_order s amount idx :
  always sent_extended (TradingBot.place_market_order s amount idx).
Proof.
  intros st r st' Hrun.
  destruct (place_market_order_run s amount idx st) as (ok & extra & rest & Hpm).
  rewrite Hpm in Hrun. inversion Hrun; subst. by eexists.
Qed.

(** The value written for a confirmed order holds the record of the order. *)
Lemma holds_stored_entry signal amount price cur :
  holds (TradingBot.stored_entry E signal amount price cur)
        (TradingBot.position_data E signal amount price).
Proof.
  unfold TradingBot.stored_entry, holds.
  destruct (config.hedge_mode (trading_config E)).
  - eexists; split; [reflexivity |].
    destruct (TradingBot.side_key_of signal); cbn; auto.
  - eexists; split; [reflexivity |]. cbn. auto.
Qed.

Lemma open_position_success signal price st st' :
  TradingBot.open_position E signal price st = (Ret true, st') ->
  exists p amount extra,
    price = Some p
    /\ TradingBot.position_size E signal p = Some amount
    /\ (TradingBot.active_count hm (positions st) < max_concurrent_trades E)%Z
    /\ positions st'
       = <[symbol E := TradingBot.stored_entry E signal amount p (positions st !! symbol E)]>
           (positions st)
    /\ sent st'
       = sent st ++ CcxtOrder (TradingBot.order_side_of signal) amount
                      (TradingBot.position_idx_of E signal) :: extra.
Proof.
  intros Hrun.
  destruct (Z.lt_ge_cases (TradingBot.active_count hm (positions st))
              (max_concurrent_trades E)) as [Hfree | Hfull];
    [| by rewrite open_position_refused in Hrun].
  destruct price as [p |]; [| by rewrite open_position_without_price in Hrun].
  rewrite open_position_permitted in Hrun by done.
  destruct (TradingBot.position_size E signal p) as [amount |] eqn:Hsize; [| done].
  destruct (place_and_store_run E signal amount p st) as (ok & extra & rest & Hps).
  cbv zeta in Hps. rewrite Hps in Hrun.
  destruct ok; [| done]. inversion Hrun; subst.
  by exists p, amount, extra.
Qed.

Lemma returns_hedge_branch signal v : returns (TradingBot.hedge_branch E signal v).
Proof.
  unfold TradingBot.hedge_branch.
  destruct v as [d |]; [destruct (dict_get d _); apply returns_ret |].
  apply returns_bind; [apply returns_set_entry | intros ?; apply returns_ret].
Qed.

Lemma returns_one_way_branch signal v : returns (TradingBot.one_way_branch E signal v).
Proof.
  unfold TradingBot.one_way_branch.
  destruct v as [d |]; [| apply returns_ret].
  apply returns_bind; [apply returns_set_entry | intros _].
  destruct (one_way_view d) as [p |]; [| apply returns_ret].
  destruct (TradingBot.is_reversal signal p).
  - apply returns_bind; [apply returns_close_position | intros closed].
    destruct closed; [apply returns_ret |].
    apply returns_bind; [apply returns_set_entry | intros ?; apply returns_ret].
  - destruct (signal =? side p)%Z; apply returns_ret.
Qed.

(** A directional call without a balance is the part before the
    concurrency check, which never raises, and then either stops with
    [False] or goes on to open. *)
Lemma execute_signal_stages (R : bot -> bot -> Prop) signal price st r st' :
  (forall st, R st st) ->
  (forall x y z, R x y -> R y z -> R x z) ->
  (forall sym v st, R st (with_entry sym v st)) ->
  (forall s amount idx, always R (TradingBot.place_market_order s amount idx)) ->
  signal <> 0%Z ->
  TradingBot.execute_signal E signal price None st = (r, st') ->
  exists st1,
    R st st1
    /\ ((r = Ret false /\ st' = st1)
        \/ TradingBot.open_position E signal price st1 = (r, st')).
Proof.
  intros Hrefl Htrans Hentry Horder Hs Hrun. apply Z.eqb_neq in Hs.
  unfold TradingBot.execute_signal in Hrun. rewrite Hs in Hrun.
  unfold TradingBot.drawdown_gate in Hrun.
  unfold bind at 1, ret at 1 in Hrun.
  unfold bind at 1, get_positions at 1 in Hrun.
  apply bind_inv in Hrun as [(u & sta & Hinit & Hrun) | (e & Hinit & _)];
    [| destruct (positions st !! symbol E); discriminate].
  assert (Ha : R st sta).
  { destruct (positions st !! symbol E); inversion Hinit; subst; auto. }
  unfold bind at 1, get_positions at 1 in Hrun.
  apply bind_inv in Hrun as [(skip & stb & Hb & Hrun) | (e & Hb & _)].
  - assert (Hab : R sta stb).
    { destruct (config.hedge_mode (trading_config E)).
      - by eapply (frame_hedge_branch R Hrefl Htrans Hentry E).
      - by eapply (frame_one_way_branch R Hrefl Htrans Hentry Horder E). }
    exists stb. split; [by eapply Htrans |].
    destruct skip; [left; by inversion Hrun | by right].
  - exfalso. destruct (config.hedge_mode (trading_config E)).
    + destruct (returns_hedge_branch signal (default None (positions sta !! symbol E)) sta)
        as (a & st2 & H2). congruence.
    + destruct (returns_one_way_branch signal (default None (positions sta !! symbol E)) sta)
        as (a & st2 & H2). congruence.
Qed.

End Success.

(** X4.  [execute_signal] returns [True] for a directional signal only when
    a price was given, a size was found for it, the order for that size,
    side and position index was sent in the course of the call, and the
    ledger now tracks the record of that order under the bot's symbol. *)
Theorem success_means_recorded_order (E : env) (signal : Z) (price balance : option Q)
    (st st' : bot) :
  signal <> 0%Z ->
  TradingBot.execute_signal E signal price balance st = (Ret true, st') ->
  exists p amount before after,
    price = Some p
    /\ TradingBot.position_size E signal p = Some amount
    /\ tracks st' (symbol E) (TradingBot.position_data E signal amount p)
    /\ sent st'
       = sent st ++ before
         ++ CcxtOrder (TradingBot.order_side_of signal) amount
              (TradingBot.position_idx_of E signal) :: after.
Proof.
  intros Hs Hrun.
  assert (Hun : exists st0, sent st0 = sent st
                  /\ TradingBot.execute_signal E signal price None st0 = (Ret true, st')).
  { destruct balance as [v |]; [| by exists st].
    rewrite execute_signal_gate in Hrun by done.
    destruct (TradingBot.check_global_drawdown E v st) as [[halted | e] st1] eqn:Hgate;
      [| done].
    pose proof (check_global_drawdown_untouched E v _ _ _ Hgate) as (_ & Hsent & _).
    destruct halted; [done | by exists st1]. }
  destruct Hun as (st0 & Hsent0 & Hrun0).
  destruct (execute_signal_stages E sent_extended signal price st0 _ _
              sent_extended_refl sent_extended_trans sent_extended_entry
              sent_extended_order Hs Hrun0) as (st1 & [before Hbefore] & [[? _] | Hopen]);
    [done |].
  destruct (open_position_success E signal price st1 st' Hopen)
    as (p & amount & extra & -> & Hsize & _ & Hpos & Hsent).
  exists p, amount, before, extra.
  split; [done |]. split; [done |]. split.
  - exists (TradingBot.stored_entry E signal amount p (positions st1 !! symbol E)).
    split; [by rewrite Hpos, lookup_insert_eq | apply holds_stored_entry].
  - by rewrite Hsent, Hbefore, Hsent0, <- app_assoc.
Qed.

(** A long signal at 100 on a fresh one-way bot whose order is filled. *)
Lemma success_means_recorded_order_witness :
  let E := Scenario.one_way_env in
  let st := TradingBot.init config.source [Filled] in
  exists p amount before after,
    Some 100 = Some p
    /\ TradingBot.position_size E 1 p = Some amount
    /\ tracks (snd (TradingBot.execute_signal E 1 (Some 100) (Some 100000) st))
         (symbol E) (TradingBot.position_data E 1 amount p)
    /\ sent (snd (TradingBot.execute_signal E 1 (Some 100) (Some 100000) st))
       = sent st ++ before
         ++ CcxtOrder (TradingBot.order_side_of 1) amount (TradingBot.position_idx_of E 1)
            :: after.
Proof.
  intros E st.
  apply (success_means_recorded_order E 1 (Some 100) (Some 100000) st
           (snd (TradingBot.execute_signal E 1 (Some 100) (Some 100000) st))).
  - discriminate.
  - vm_compute. reflexivity.
Defined.

(** ** Stop and target of a new position *)

Section Bracket.

Variable E : env.

Lemma exit_trigger_long p q :
  side p = 1%Z ->
  TradingBot.exit_trigger p q
  = if Py.le q (stop_loss_price p) then Some TradingBot.StopLoss
    else if Py.ge q (take_profit_price p) then Some TradingBot.TakeProfit
    else None.
Proof.
  intros Hside.
  unfold TradingBot.exit_trigger, TradingBot.stop_loss_hit, TradingBot.take_profit_hit.
  rewrite Hside. cbn [Z.eqb Pos.eqb andb orb].
  by rewrite !orb_false_r.
Qed.

Lemma exit_trigger_short p q :
  side p = (-1)%Z ->
  TradingBot.exit_trigger p q
  = if Py.ge q (stop_loss_price p) then Some TradingBot.StopLoss
    else if Py.le q (take_profit_price p) then Some TradingBot.TakeProfit
    else None.
Proof.
  intros Hside.
  unfold TradingBot.exit_trigger, TradingBot.stop_loss_hit, TradingBot.take_profit_hit.
  rewrite Hside. by cbn [Z.eqb Pos.eqb andb orb].
Qed.

Lemma exit_trigger_other p q :
  side p <> 1%Z -> side p <> (-1)%Z -> TradingBot.exit_trigger p q = None.
Proof.
  intros H1 H2. apply Z.eqb_neq in H1, H2.
  unfold TradingBot.exit_trigger, TradingBot.stop_loss_hit, TradingBot.take_profit_hit.
  by rewrite H1, H2.
Qed.

End Bracket.

(** X5.  With a positive price and positive stop-loss and take-profit
    fractions, the record of a new long position has its stop below and its
    target above the entry price, and the exit monitor closes it "via stop
    loss" exactly at prices up to the stop, "via take profit" exactly at
    prices from the target on, and not at all in between, so not at the
    entry price; a short position mirrors this.  A record whose side is
    neither 1 nor -1 is never closed by the monitor. *)
Theorem new_position_bracket (E : env) (amount price : Q) :
  0 < price -> 0 < stop_loss_pct E -> 0 < take_profit_pct E ->
  let l := TradingBot.position_data E 1 amount price in
  let s := TradingBot.position_data E (-1) amount price in
  (stop_loss_price l < price /\ price < take_profit_price l)
  /\ (take_profit_price s < price /\ price < stop_loss_price s)
  /\ (forall q,
        (TradingBot.exit_trigger l q = Some TradingBot.StopLoss <-> q <= stop_loss_price l)
        /\ (TradingBot.exit_trigger l q = Some TradingBot.TakeProfit
            <-> take_profit_price l <= q)
        /\ (TradingBot.exit_trigger l q = None
            <-> stop_loss_price l < q /\ q < take_profit_price l))
  /\ (forall q,
        (TradingBot.exit_trigger s q = Some TradingBot.StopLoss <-> stop_loss_price s <= q)
        /\ (TradingBot.exit_trigger s q = Some TradingBot.TakeProfit
            <-> q <= take_profit_price s)
        /\ (TradingBot.exit_trigger s q = None
            <-> take_profit_price s < q /\ q < stop_loss_price s))
  /\ (forall signal q,
        signal <> 1%Z -> signal <> (-1)%Z ->
        TradingBot.exit_trigger (TradingBot.position_data E signal amount price) q = None).
Proof.
  intros Hp Hsl Htp l s.
  pose proof (Qmult_lt_0_compat _ _ Hp Hsl) as Hpsl.
  pose proof (Qmult_lt_0_compat _ _ Hp Htp) as Hptp.
  assert (Hl : stop_loss_price l < price /\ price < take_profit_price l).
  { cbn. unfold TradingBot.stop_loss_for, TradingBot.take_profit_for. cbn [Z.eqb Pos.eqb].
    split; lra. }
  assert (Hsh : take_profit_price s < price /\ price < stop_loss_price s).
  { cbn. unfold TradingBot.stop_loss_for, TradingBot.take_profit_for. cbn [Z.eqb].
    split; lra. }
  split; [exact Hl |]. split; [exact Hsh |].
  split; [| split].
  - intros q. rewrite (exit_trigger_long l q) by reflexivity.
    destruct (Py.le q (stop_loss_price l)) eqn:H1;
      [apply Py_le_iff in H1 | apply Py_le_false_iff in H1];
      (destruct (Py.ge q (take_profit_price l)) eqn:H2;
       [apply Py_ge_iff in H2 | apply Py_ge_false_iff in H2]);
      (split; [| split]); split; intros H; try done; try lra.
  - intros q. rewrite (exit_trigger_short s q) by reflexivity.
    destruct (Py.ge q (stop_loss_price s)) eqn:H1;
      [apply Py_ge_iff in H1 | apply Py_ge_false_iff in H1];
      (destruct (Py.le q (take_profit_price s)) eqn:H2;
       [apply Py_le_iff in H2 | apply Py_le_false_iff in H2]);
      (split; [| split]); split; intros H; try done; try lra.
  - intros signal q H1 H2. by apply exit_trigger_other.
Qed.

(** The bot's 2% stop and 4% target at an entry price of 100: stop 98 and
    target 104 for a long, and nothing triggers at 100. *)
Lemma new_position_bracket_witness :
  let l := TradingBot.position_data Scenario.one_way_env 1 500 100 in
  (stop_loss_price l < 100 /\ 100 < take_profit_price l)
  /\ TradingBot.exit_trigger l 100 = None.
Proof.
  intros l.
  assert (H1 : 0 < 100) by reflexivity.
  assert (H2 : 0 < stop_loss_pct Scenario.one_way_env) by reflexivity.
  assert (H3 : 0 < take_profit_pct Scenario.one_way_env) by reflexivity.
  pose proof (new_position_bracket Scenario.one_way_env 500 100 H1 H2 H3)
    as (Hl & _ & Hq & _).
  split; [exact Hl |].
  apply (Hq 100). split; [apply Hl | apply Hl].
Defined.

(** ** The size of a new position *)

Section Sizing.

Variable E : env.

Lemma stop_distance signal price :
  0 < price -> 0 < stop_loss_pct E ->
  Qabs (price - TradingBot.stop_loss_for E signal price) == price * stop_loss_pct E.
Proof.
  intros Hp Hsl. pose proof (Qmult_lt_0_compat _ _ Hp Hsl) as Hpsl.
  unfold TradingBot.stop_loss_for. destruct (signal =? 1)%Z.
  - rewrite Qabs_pos by lra. ring.
  - rewrite Qabs_neg by lra. ring.
Qed.

Lemma stop_loss_for_positive signal price :
  0 < price -> 0 < stop_loss_pct E -> (signal = 1%Z -> stop_loss_pct E < 1) ->
  0 < TradingBot.stop_loss_for E signal price.
Proof.
  intros Hp Hsl Hlt. unfold TradingBot.stop_loss_for.
  destruct (signal =? 1)%Z eqn:Hs.
  - apply Z.eqb_eq in Hs. specialize (Hlt Hs). apply Qmult_lt_0_compat; lra.
  - apply Qmult_lt_0_compat; lra.
Qed.

End Sizing.

(** X6.  Without a fixed quantity, for a tradeable symbol, a positive price
    and a stop-loss fraction that leaves the stop price positive, the size
    of a new position is the risk budget [capital * risk] divided by the
    distance to the stop: the loss at the stop is the risk budget, for a
    long as for a short, whatever the price.  A positive fixed quantity is
    used as it is. *)
Theorem size_risks_the_budget (E : env) (signal : Z) (price : Q) :
  let budget := config.TOTAL_PORTFOLIO_CAPITAL_USD (cfg E)
                * config.RISK_PER_TRADE_PERCENT (cfg E) in
  (config.quantity_btc (trading_config E) = None ->
   symbol E ∈ config.TRADEABLE_ASSETS (cfg E) ->
   0 < budget -> 0 < price -> 0 < stop_loss_pct E ->
   (signal = 1%Z -> stop_loss_pct E < 1) ->
   exists amount,
     TradingBot.position_size E signal price = Some amount
     /\ amount == budget / (price * stop_loss_pct E)
     /\ amount * Qabs (price - TradingBot.stop_loss_for E signal price) == budget)
  /\ (forall fixed,
        config.quantity_btc (trading_config E) = Some fixed -> 0 < fixed ->
        TradingBot.position_size E signal price = Some fixed).
Proof.
  intros budget. split.
  - intros Hfix Hsym Hbudget Hp Hsl Hlt.
    pose proof (Qmult_lt_0_compat _ _ Hp Hsl) as Hpsl.
    pose proof (stop_distance E signal price Hp Hsl) as Hdist.
    pose proof (stop_loss_for_positive E signal price Hp Hsl Hlt) as Hstop.
    assert (Hne : ~ price == TradingBot.stop_loss_for E signal price).
    { intros Heq. rewrite <- Heq in Hdist.
      assert (Hz : price - price == 0) by ring.
      rewrite Hz in Hdist. change (Qabs 0) with 0 in Hdist. lra. }
    pose proof (calculate_position_size_granted (cfg E) (symbol E) price
                  (TradingBot.stop_loss_for E signal price) Hsym Hp Hstop Hne) as Hsize.
    assert (Hamount : budget / Qabs (price - TradingBot.stop_loss_for E signal price)
                      == budget / (price * stop_loss_pct E)) by (by rewrite Hdist).
    assert (Hpos : 0 < budget / (price * stop_loss_pct E)).
    { apply Qlt_shift_div_l; lra. }
    exists (budget / Qabs (price - TradingBot.stop_loss_for E signal price)).
    split; [| split].
    + unfold TradingBot.position_size, TradingBot.calculate_position_size.
      rewrite Hfix, Hsize. fold budget.
      destruct (Py.le _ 0) eqn:Hle; [| done].
      apply Py_le_iff in Hle. lra.
    + exact Hamount.
    + rewrite Hdist. field. lra.
  - intros fixed Hfix Hpos. unfold TradingBot.position_size. rewrite Hfix.
    apply Py_gt_iff in Hpos. by rewrite Hpos.
Qed.

(** The configuration of the source: capital 100000 at 1% risk and a 2%
    stop put 500 units on a price of 100. *)
Lemma size_risks_the_budget_witness :
  exists amount,
    TradingBot.position_size Scenario.one_way_env 1 100 = Some amount
    /\ amount == 1000 / (100 * (2 # 100))
    /\ amount * Qabs (100 - TradingBot.stop_loss_for Scenario.one_way_env 1 100) == 1000.
Proof.
  pose proof (size_risks_the_budget Scenario.one_way_env 1 100) as (Hrisk & _).
  destruct Hrisk as (amount & H1 & H2 & H3).
  - reflexivity.
  - vm_compute. constructor.
  - reflexivity.
  - reflexivity.
  - reflexivity.
  - intros _. reflexivity.
  - exists amount. split; [exact H1 |]. split.
    + rewrite H2. reflexivity.
    + rewrite H3. reflexivity.
Defined.

(** ** The ledger in hedge mode *)

Section HedgeLedger.

Variable E : env.
Hypothesis hedged : config.hedge_mode (trading_config E) = true.

(** Closing one slot: the count drops by one exactly when the close is
    reported, and every other slot keeps what it holds. *)
Lemma close_position_slot_effect sym k st r st' :
  TradingBot.close_position E sym (Some k) st = (r, st') ->
  exists b : bool,
    r = Ret b
    /\ TradingBot.active_count true (positions st')
       = (TradingBot.active_count true (positions st) - (if b then 1 else 0))%Z
    /\ (forall sym' k' p,
          (sym', k') <> (sym, k) -> slot_holds st sym' k' p -> slot_holds st' sym' k' p).
Proof.
  intros Hrun. unfold TradingBot.close_position in Hrun.
  unfold bind at 1, get_positions in Hrun.
  destruct (positions st !! sym) as [v |] eqn:Hv.
  - rewrite hedged in Hrun. destruct v as [d |].
    + destruct (dict_get d k) as [p |] eqn:Hk.
      * destruct (close_hedge_slot_run sym d k p st Hk) as (ok & extra & rest & Hslot).
        cbv zeta in Hslot. rewrite Hslot in Hrun. inversion Hrun; subst r st'; clear Hrun.
        exists ok. split; [done |]. destruct ok.
        -- split.
           ++ rewrite active_count_with_entry. cbn [positions with_sent with_exchange].
              rewrite Hv.
              destruct k; cbn in Hk |- *; rewrite Hk;
                [destruct (slot_short d) | destruct (slot_long d)]; cbn; lia.
           ++ intros sym' k' p' Hne (d0 & Hd0 & Hp0). unfold slot_holds.
              cbn [positions with_entry with_positions with_sent with_exchange].
              destruct (decide (sym' = sym)) as [-> | Hsym].
              ** rewrite lookup_insert_eq. rewrite Hv in Hd0. inversion Hd0; subst d0.
                 exists (dict_set d k None).
                 destruct k, k'; try congruence; cbn in Hp0 |- *; rewrite Hp0;
                   by destruct (slot_long d), (slot_short d).
              ** rewrite lookup_insert_ne by done. by exists d0.
        -- split; [cbn; lia |]. intros sym' k' p' _ H. exact H.
      * unfold TradingBot.close_hedge_slot in Hrun. rewrite Hk in Hrun.
        inversion Hrun; subst. exists false. split; [done |]. split; [lia | auto].
    + cbn in Hrun. inversion Hrun; subst.
      exists false. split; [done |]. split; [lia | auto].
  - inversion Hrun; subst. exists false. split; [done |]. split; [lia | auto].
Qed.

Lemma check_slot_effect price sym d k st r st' :
  TradingBot.check_slot E price sym d k st = (r, st') ->
  exists l,
    r = Ret l
    /\ TradingBot.active_count true (positions st')
       = (TradingBot.active_count true (positions st) - Z.of_nat (length l))%Z
    /\ (forall sym' k' p,
          ((sym', k') = (sym, k) -> dict_get d k = Some p) ->
          TradingBot.exit_trigger p price = None ->
          slot_holds st sym' k' p -> slot_holds st' sym' k' p).
Proof.
  intros Hrun. unfold TradingBot.check_slot in Hrun.
  destruct (dict_get d k) as [p0 |] eqn:Hk;
    [| inversion Hrun; subst; exists []; split; [done |]; split; [cbn; lia | auto]].
  destruct (TradingBot.exit_trigger p0 price) as [t |] eqn:Ht;
    [| inversion Hrun; subst; exists []; split; [done |]; split; [cbn; lia | auto]].
  apply bind_inv in Hrun as [(closed & st1 & Hclose & Hrest) | (e & Hclose & _)].
  - destruct (close_position_slot_effect _ _ _ _ _ Hclose) as (b & Hb & Hcount & Hkeep).
    inversion Hb; subst b. inversion Hrest; subst r st'.
    eexists. split; [reflexivity |]. split.
    + rewrite Hcount. destruct closed; cbn; lia.
    + intros sym' k' p Hsame Hnone Hholds. apply Hkeep; [| done].
      intros Heq. specialize (Hsame Heq). congruence.
  - destruct (close_position_slot_effect _ _ _ _ _ Hclose) as (b & Hb & _). done.
Qed.

Lemma check_symbol_effect price sym st r st' :
  TradingBot.check_symbol E price sym (default None (positions st !! sym)) st = (r, st') ->
  exists l,
    r = Ret l
    /\ TradingBot.active_count true (positions st')
       = (TradingBot.active_count true (positions st) - Z.of_nat (length l))%Z
    /\ (forall sym' k' p,
          TradingBot.exit_trigger p price = None ->
          slot_holds st sym' k' p -> slot_holds st' sym' k' p).
Proof.
  intros Hrun. unfold TradingBot.check_symbol in Hrun.
  destruct (positions st !! sym) as [[d |] |] eqn:Hv; cbn [default] in Hrun;
    [| inversion Hrun; subst; exists []; split; [done |]; split; [cbn; lia | auto] ..].
  unfold id in Hrun. rewrite hedged in Hrun.
  assert (Hd : forall sym' k' p k,
             slot_holds st sym' k' p -> (sym', k') = (sym, k) -> dict_get d k = Some p).
  { intros sym' k' p k (d0 & Hd0 & Hp0) Heq. inversion Heq; subst. congruence. }
  apply bind_inv in Hrun as [(l1 & st1 & H1 & Hrun) | (e & H1 & _)];
    [| destruct (check_slot_effect _ _ _ _ _ _ _ H1) as (? & ? & _); done].
  destruct (check_slot_effect _ _ _ _ _ _ _ H1) as (l1' & Hl1 & Hc1 & Hk1).
  inversion Hl1; subst l1'.
  apply bind_inv in Hrun as [(l2 & st2 & H2 & Hrun) | (e & H2 & _)];
    [| destruct (check_slot_effect _ _ _ _ _ _ _ H2) as (? & ? & _); done].
  destruct (check_slot_effect _ _ _ _ _ _ _ H2) as (l2' & Hl2 & Hc2 & Hk2).
  inversion Hl2; subst l2'. inversion Hrun; subst r st'.
  eexists. split; [reflexivity |]. split.
  - rewrite Hc2, Hc1, length_app. lia.
  - intros sym' k' p Hnone Hholds.
    apply Hk2; [by apply Hd | done |]. apply Hk1; [by apply Hd | done | done].
Qed.

Lemma check_symbols_effect price syms st r st' :
  TradingBot.check_symbols E price syms st = (r, st') ->
  exists l,
    r = Ret l
    /\ TradingBot.active_count true (positions st')
       = (TradingBot.active_count true (positions st) - Z.of_nat (length l))%Z
    /\ (forall sym' k' p,
          TradingBot.exit_trigger p price = None ->
          slot_holds st sym' k' p -> slot_holds st' sym' k' p).
Proof.
  revert st r st'. induction syms as [| sym rest IH]; intros st r st' Hrun;
    cbn [TradingBot.check_symbols] in Hrun.
  - inversion Hrun; subst. exists []. split; [done |]. split; [cbn; lia | auto].
  - unfold bind at 1, get_positions at 1 in Hrun.
    apply bind_inv in Hrun as [(l1 & st1 & H1 & Hrun) | (e & H1 & _)];
      [| destruct (check_symbol_effect _ _ _ _ _ H1) as (? & ? & _); done].
    destruct (check_symbol_effect _ _ _ _ _ H1) as (l1' & Hl1 & Hc1 & Hk1).
    inversion Hl1; subst l1'.
    apply bind_inv in Hrun as [(l2 & st2 & H2 & Hrun) | (e & H2 & _)];
      [| destruct (IH _ _ _ H2) as (? & ? & _); done].
    destruct (IH _ _ _ H2) as (l2' & Hl2 & Hc2 & Hk2).
    inversion Hl2; subst l2'. inversion Hrun; subst r st'.
    eexists. split; [reflexivity |]. split.
    + rewrite Hc2, Hc1, length_app. lia.
    + intros sym' k' p Hnone Hholds. apply Hk2; [done |]. by apply Hk1.
Qed.

Lemma close_all_symbol_effect sym st r st' :
  TradingBotOps.close_all_symbol E sym st = (r, st') ->
  exists n : Z,
    r = Ret n
    /\ TradingBot.active_count true (positions st')
       = (TradingBot.active_count true (positions st) - n)%Z.
Proof.
  intros Hrun. unfold TradingBotOps.close_all_symbol in Hrun.
  unfold bind at 1, get_positions at 1 in Hrun.
  destruct (positions st !! sym) as [[d |] |] eqn:Hv; try rewrite hedged in Hrun;
    [| inversion Hrun; subst; exists 0%Z; split; [done | lia] ..].
  assert (Hstep : forall k st0 r0 st0',
            (if dict_get d k is Some _
             then TradingBot.close_position E sym (Some k) else ret false) st0 = (r0, st0') ->
            exists b : bool,
              r0 = Ret b
              /\ TradingBot.active_count true (positions st0')
                 = (TradingBot.active_count true (positions st0) - (if b then 1 else 0))%Z).
  { intros k st0 r0 st0' H. destruct (dict_get d k).
    - destruct (close_position_slot_effect _ _ _ _ _ H) as (b & Hb & Hc & _). by exists b.
    - inversion H; subst. exists false. split; [done | lia]. }
  apply bind_inv in Hrun as [(b1 & st1 & H1 & Hrun) | (e & H1 & _)];
    [| destruct (Hstep _ _ _ _ H1) as (? & ? & _); done].
  destruct (Hstep _ _ _ _ H1) as (b1' & Hb1 & Hc1). inversion Hb1; subst b1'.
  apply bind_inv in Hrun as [(b2 & st2 & H2 & Hrun) | (e & H2 & _)];
    [| destruct (Hstep _ _ _ _ H2) as (? & ? & _); done].
  destruct (Hstep _ _ _ _ H2) as (b2' & Hb2 & Hc2). inversion Hb2; subst b2'.
  inversion Hrun; subst r st'.
  eexists. split; [reflexivity |]. rewrite Hc2, Hc1. lia.
Qed.

Lemma close_all_symbols_effect syms st r st' :
  TradingBotOps.close_all_symbols E syms st = (r, st') ->
  exists n : Z,
    r = Ret n
    /\ TradingBot.active_count true (positions st')
       = (TradingBot.active_count true (positions st) - n)%Z.
Proof.
  revert st r st'. induction syms as [| sym rest IH]; intros st r st' Hrun;
    cbn [TradingBotOps.close_all_symbols] in Hrun.
  - inversion Hrun; subst. exists 0%Z. split; [done | lia].
  - apply bind_inv in Hrun as [(n1 & st1 & H1 & Hrun) | (e & H1 & _)];
      [| destruct (close_all_symbol_effect _ _ _ _ H1) as (? & ? & _); done].
    destruct (close_all_symbol_effect _ _ _ _ H1) as (n1' & Hn1 & Hc1).
    inversion Hn1; subst n1'.
    apply bind_inv in Hrun as [(n2 & st2 & H2 & Hrun) | (e & H2 & _)];
      [| destruct (IH _ _ _ H2) as (? & ? & _); done].
    destruct (IH _ _ _ H2) as (n2' & Hn2 & Hc2). inversion Hn2; subst n2'.
    inversion Hrun; subst r st'.
    eexists. split; [reflexivity |]. rewrite Hc2, Hc1. lia.
Qed.

End HedgeLedger.

(** X7.  In hedge mode what the closing functions report is what leaves the
    ledger: [close_position] with a side lowers the count of open slots by
    one exactly when it returns [True], the exit monitor lowers it by the
    number of labels it returns, and [close_all_positions] by the number it
    returns. *)
Theorem hedge_closes_are_counted (E : env) :
  config.hedge_mode (trading_config E) = true ->
  (forall sym k st r st',
      TradingBot.close_position E sym (Some k) st = (r, st') ->
      exists b : bool,
        r = Ret b
        /\ TradingBot.active_count true (positions st')
           = (TradingBot.active_count true (positions st) - (if b then 1 else 0))%Z)
  /\ (forall price st r st',
        TradingBot.check_stop_loss_take_profit E price st = (r, st') ->
        exists closed_symbols,
          r = Ret closed_symbols
          /\ TradingBot.active_count true (positions st')
             = (TradingBot.active_count true (positions st)
                - Z.of_nat (length closed_symbols))%Z)
  /\ (forall st r st',
        TradingBotOps.close_all_positions E st = (r, st') ->
        exists closed : Z,
          r = Ret closed
          /\ TradingBot.active_count true (positions st')
             = (TradingBot.active_count true (positions st) - closed)%Z).
Proof.
  intros hedged. split; [| split].
  - intros sym k st r st' Hrun.
    destruct (close_position_slot_effect E hedged _ _ _ _ _ Hrun) as (b & Hb & Hc & _).
    by exists b.
  - intros price st r st' Hrun.
    destruct (check_symbols_effect E hedged _ _ _ _ _ Hrun) as (l & Hl & Hc & _).
    by exists l.
  - intros st r st' Hrun. by apply (close_all_symbols_effect E hedged _ _ _ _ Hrun).
Qed.

(** Two symbols with a long position each and an exchange that fills one
    order and fails the next: one close is reported, one slot is left. *)
Lemma hedge_closes_are_counted_witness :
  let E := Scenario.hedge_env in
  let st := Scenario.two_longs [Filled; Failed] in
  exists closed : Z,
    fst (TradingBotOps.close_all_positions E st) = Ret closed
    /\ TradingBot.active_count true (positions (snd (TradingBotOps.close_all_positions E st)))
       = (TradingBot.active_count true (positions st) - closed)%Z.
Proof.
  intros E st.
  assert (Hh : config.hedge_mode (trading_config E) = true) by reflexivity.
  pose proof (hedge_closes_are_counted E Hh) as (_ & _ & Hall).
  pose proof (Hall st (fst (TradingBotOps.close_all_positions E st))
                (snd (TradingBotOps.close_all_positions E st))) as H.
  destruct H as (closed & Hr & Hc).
  - apply surjective_pairing.
  - exists closed. split; [exact Hr | exact Hc].
Defined.

(** X8.  In hedge mode the exit monitor closes only what its tests select:
    a slot whose position meets neither the stop-loss nor the take-profit
    test at the current price holds the same position afterwards, whatever
    is closed around it, on the same symbol or on others. *)
Theorem hedge_monitor_keeps_untriggered (E : env) (price : Q) (st st' : bot)
    (r : outcome (list TradingBot.closed_label)) (sym : string) (k : side_key)
    (p : position) :
  config.hedge_mode (trading_config E) = true ->
  TradingBot.check_stop_loss_take_profit E price st = (r, st') ->
  slot_holds st sym k p ->
  TradingBot.exit_trigger p price = None ->
  slot_holds st' sym k p.
Proof.
  intros hedged Hrun Hholds Hnone.
  destruct (check_symbols_effect E hedged _ _ _ _ _ Hrun) as (l & _ & _ & Hkeep).
  by apply Hkeep.
Qed.

(** A long and a short position on one symbol, entered at 100: at a price
    of 97 the stop of the long is met and the long is closed, the short
    stays. *)
Lemma hedge_monitor_keeps_untriggered_witness :
  let E := Scenario.hedge_env in
  let d := {| fields := None; slot_long := Some Scenario.long_100;
              slot_short := Some Scenario.short_100 |} in
  let st := Scenario.tracking (Some d) [Filled] in
  slot_holds (snd (TradingBot.check_stop_loss_take_profit E 97 st))
    Scenario.btc short Scenario.short_100
  /\ fst (TradingBot.check_stop_loss_take_profit E 97 st) = Ret [(Scenario.btc, Some long)].
Proof.
  intros E d st. split; [| vm_compute; reflexivity].
  apply (hedge_monitor_keeps_untriggered E 97 st _
           (fst (TradingBot.check_stop_loss_take_profit E 97 st))).
  - reflexivity.
  - apply surjective_pairing.
  - exists d. split; [vm_compute; reflexivity | reflexivity].
  - vm_compute. reflexivity.
Defined.

(** ** A pass of the loop and the kill switch *)

Section Pass.

Variable E : env.

(** The verdict of the drawdown check is the same when it is asked again
    for the same value, in any state with the peak that the first check
    left; the second check changes nothing. *)
Lemma check_global_drawdown_again v st b st1 st2 :
  TradingBot.check_global_drawdown E v st = (Ret b, st1) ->
  peak_portfolio_value st2 = peak_portfolio_value st1 ->
  TradingBot.check_global_drawdown E v st2 = (Ret b, st2).
Proof.
  unfold TradingBot.check_global_drawdown, bind, get_peak, set_peak, ret, raise.
  intros Hrun Hpeak.
  assert (Hgt : Py.gt v (peak_portfolio_value st2) = false).
  { apply Py_gt_false_iff. rewrite Hpeak.
    destruct (Py.gt v (peak_portfolio_value st)) eqn:H0.
    - destruct (Py.eq _ 0); [done |].
      destruct (Py.ge _ _); inversion Hrun; subst; cbn; lra.
    - apply Py_gt_false_iff in H0.
      destruct (Py.eq _ 0); [done |].
      destruct (Py.ge _ _); inversion Hrun; by subst. }
  rewrite Hgt, Hpeak.
  destruct (Py.gt v (peak_portfolio_value st)); cbn [peak_portfolio_value with_peak] in Hrun;
    destruct (Py.eq _ 0) eqn:Hz; try done;
    destruct (Py.ge _ _) eqn:Hge; inversion Hrun; subst;
    cbn [peak_portfolio_value with_peak]; by rewrite Hz, Hge.
Qed.

Lemma monitor_of_pass_peak tk : always peak_kept (monitor_of_pass E tk).
Proof.
  unfold monitor_of_pass. destruct (LiveTradingBot.truthy _) as [price |].
  - apply always_bind; [apply peak_kept_trans | | intros ?; apply always_ret, peak_kept_refl].
    apply peak_kept_frame. intros R a b c d. by apply frame_check_stop_loss_take_profit.
  - apply always_ret, peak_kept_refl.
Qed.

Lemma run_iteration_halted tk v st st1 :
  LiveTradingBot.truthy (LiveTradingBot.portfolio_value tk) = Some v ->
  TradingBot.check_global_drawdown E v st = (Ret true, st1) ->
  LiveTradingBot.run_iteration E tk st = (Ret tt, st1).
Proof.
  intros Hv Hcheck. unfold LiveTradingBot.run_iteration.
  rewrite Hv. unfold bind at 1. by rewrite Hcheck.
Qed.

Lemma run_iteration_checked_twice tk v run signal st st1 :
  LiveTradingBot.truthy (LiveTradingBot.portfolio_value tk) = Some v ->
  TradingBot.check_global_drawdown E v st = (Ret false, st1) ->
  LiveTradingBot.latest_data tk = Some run ->
  LiveTradingBot.get_current_signal run = Some signal ->
  LiveTradingBot.run_iteration E tk st
  = (monitor_of_pass E tk ;;
     TradingBot.execute_signal E signal (LiveTradingBot.current_price tk) None ;;
     ret tt) st1.
Proof.
  intros Hv Hcheck Hdata Hsig. unfold LiveTradingBot.run_iteration.
  rewrite Hv, Hdata, Hsig. unfold bind at 1. rewrite Hcheck.
  fold (monitor_of_pass E tk). unfold bind at 1 3.
  destruct (monitor_of_pass E tk st1) as [[u | e] st2] eqn:Hmon; [| done].
  pose proof (monitor_of_pass_peak tk _ _ _ Hmon) as Hpeak.
  unfold bind. destruct (Z.eq_dec signal 0%Z) as [-> | Hs]; [done |].
  rewrite execute_signal_gate by done.
  by rewrite (check_global_drawdown_again v st false st1 st2 Hcheck Hpeak).
Qed.

Lemma run_iteration_fallback_halts tk run signal st :
  LiveTradingBot.truthy (LiveTradingBot.portfolio_value tk) = None ->
  LiveTradingBot.latest_data tk = Some run ->
  LiveTradingBot.get_current_signal run = Some signal ->
  signal <> 0%Z ->
  0 < peak_portfolio_value st ->
  0 < global_drawdown_limit E ->
  config.TOTAL_PORTFOLIO_CAPITAL_USD (cfg E)
  <= peak_portfolio_value st * (1 - global_drawdown_limit E) ->
  LiveTradingBot.run_iteration E tk st = monitor_of_pass E tk st.
Proof.
  intros Hv Hdata Hsig Hs Hpeak Hlimit Hcap. unfold LiveTradingBot.run_iteration.
  rewrite Hv, Hdata, Hsig. unfold bind at 1. unfold ret at 1.
  fold (monitor_of_pass E tk). unfold bind at 1.
  destruct (monitor_of_pass E tk st) as [[u | e] st2] eqn:Hmon; [| done].
  pose proof (monitor_of_pass_peak tk _ _ _ Hmon) as Hkept. unfold peak_kept in Hkept.
  apply Z.eqb_neq in Hs. rewrite Hs. apply Z.eqb_neq in Hs.
  unfold bind. rewrite execute_signal_gate by done.
  set (cap := config.TOTAL_PORTFOLIO_CAPITAL_USD (cfg E)) in *.
  pose proof (Qmult_lt_0_compat _ _ Hpeak Hlimit) as Hpl.
  assert (Hhalt : TradingBot.check_global_drawdown E cap st2 = (Ret true, st2)).
  { unfold TradingBot.check_global_drawdown, bind, get_peak, set_peak, ret, raise.
    rewrite Hkept.
    assert (H1 : Py.gt cap (peak_portfolio_value st) = false)
      by (apply Py_gt_false_iff; lra).
    rewrite H1, Hkept.
    assert (H2 : Py.eq (peak_portfolio_value st) 0 = false)
      by (apply Py_eq_false_iff; lra).
    rewrite H2.
    assert (H3 : Py.ge ((peak_portfolio_value st - cap) / peak_portfolio_value st)
                   (global_drawdown_limit E) = true).
    { apply Py_ge_iff. apply Qle_shift_div_l; [done | lra]. }
    by rewrite H3. }
  rewrite Hhalt. by destruct u.
Qed.

End Pass.

(** X9.  A pass of the loop and the kill switch.  When the drawdown check
    on the portfolio value halts, the pass ends there: the exit monitor is
    not run and no signal is executed, an exit signal included.  When it
    does not halt, the check that [execute_signal] repeats for the same
    value agrees and changes nothing, so the pass is the exit monitor
    followed by the execution of the signal without a balance.  When the
    portfolio value is unavailable, a directional signal is checked against
    the configured capital instead: once the peak has risen so far that the
    capital is a drawdown of at least the limit, such a pass runs the exit
    monitor and nothing else. *)
Theorem pass_and_kill_switch (E : env) (tk : LiveTradingBot.tick)
    (run : LiveTradingBot.strategy_run) (signal : Z) (st : bot) :
  LiveTradingBot.latest_data tk = Some run ->
  LiveTradingBot.get_current_signal run = Some signal ->
  (forall v st1,
      LiveTradingBot.truthy (LiveTradingBot.portfolio_value tk) = Some v ->
      TradingBot.check_global_drawdown E v st = (Ret true, st1) ->
      LiveTradingBot.run_iteration E tk st = (Ret tt, st1) /\ untouched st st1)
  /\ (forall v st1,
        LiveTradingBot.truthy (LiveTradingBot.portfolio_value tk) = Some v ->
        TradingBot.check_global_drawdown E v st = (Ret false, st1) ->
        LiveTradingBot.run_iteration E tk st
        = (monitor_of_pass E tk ;;
           TradingBot.execute_signal E signal (LiveTradingBot.current_price tk) None ;;
           ret tt) st1)
  /\ (LiveTradingBot.truthy (LiveTradingBot.portfolio_value tk) = None ->
      signal <> 0%Z ->
      0 < peak_portfolio_value st ->
      0 < global_drawdown_limit E ->
      config.TOTAL_PORTFOLIO_CAPITAL_USD (cfg E)
      <= peak_portfolio_value st * (1 - global_drawdown_limit E) ->
      LiveTradingBot.run_iteration E tk st = monitor_of_pass E tk st).
Proof.
  intros Hdata Hsig. split; [| split].
  - intros v st1 Hv Hcheck. split; [by eapply run_iteration_halted |].
    by eapply check_global_drawdown_untouched.
  - intros v st1 Hv Hcheck. by eapply run_iteration_checked_twice.
  - intros Hv Hs Hpeak Hlimit Hcap. by eapply run_iteration_fallback_halts.
Qed.

(** A long position from 100 is tracked in hedge mode and the portfolio is
    worth 70000 against a peak of 100000: the pass is halted, and at a price
    of 90, below the stop at 98, no close order is sent. *)
Lemma pass_and_kill_switch_witness :
  let E := Scenario.hedge_env in
  let df : LiveTradingBot.dataframe := {[ "Signal"%string := [LiveTradingBot.Num 0] ]} in
  let tk := {| LiveTradingBot.portfolio_value := Some 70000;
               LiveTradingBot.latest_data :=
                 Some (LiveTradingBot.StrategyReturns (Some df));
               LiveTradingBot.current_price := Some 90 |} in
  let st := Scenario.tracking (Some Scenario.long_slot) [Filled] in
  LiveTradingBot.run_iteration E tk st = (Ret tt, st) /\ untouched st st.
Proof.
  intros E df tk st.
  pose proof (pass_and_kill_switch E tk (LiveTradingBot.StrategyReturns (Some df)) 0 st)
    as H.
  destruct H as (Hhalt & _); [reflexivity | vm_compute; reflexivity |].
  apply (Hhalt 70000 st); [reflexivity | vm_compute; reflexivity].
Defined.

(** ** Opening and closing a slot in hedge mode *)

Section RoundTrip.

Variable E : env.
Hypothesis hedged : config.hedge_mode (trading_config E) = true.

Lemma place_market_order_filled s amount idx st rest :
  exchange st = Filled :: rest ->
  TradingBot.place_market_order s amount idx st
  = (Ret true, with_sent (sent st ++ [CcxtOrder s amount idx]) (with_exchange rest st)).
Proof.
  intros Hex. unfold TradingBot.place_market_order, bind, next_reply, send.
  by rewrite Hex.
Qed.

Lemma position_idx_of_side_key signal :
  TradingBot.position_idx_of E signal
  = match TradingBot.side_key_of signal with long => idx1 | short => idx2 end.
Proof.
  unfold TradingBot.position_idx_of, TradingBot.side_key_of. rewrite hedged.
  by destruct (signal =? 1)%Z.
Qed.

Lemma close_side_of_opposite signal amount price :
  TradingBot.close_side_of (TradingBot.position_data E signal amount price)
  <> TradingBot.order_side_of signal.
Proof.
  unfold TradingBot.close_side_of, TradingBot.order_side_of. cbn.
  by destruct (signal =? 1)%Z.
Qed.

(** The dict that a directional signal finds or creates under the symbol. *)
Lemma execute_signal_hedge_opens signal price amount st rest :
  signal <> 0%Z ->
  (forall d, positions st !! symbol E = Some (Some d) ->
             dict_get d (TradingBot.side_key_of signal) = None) ->
  (TradingBot.active_count true (positions st) < max_concurrent_trades E)%Z ->
  TradingBot.position_size E signal price = Some amount ->
  exchange st = Filled :: rest ->
  let d0 := match positions st !! symbol E with
            | Some (Some d) => d
            | _ => empty_slots
            end in
  TradingBot.execute_signal E signal (Some price) None st
  = (Ret true,
     with_entry (symbol E)
       (Some (dict_set d0 (TradingBot.side_key_of signal)
                (Some (TradingBot.position_data E signal amount price))))
       (with_sent (sent st ++ [CcxtOrder (TradingBot.order_side_of signal) amount
                                 (TradingBot.position_idx_of E signal)])
          (with_exchange rest st))).
Proof.
  intros Hs Hfree Hcount Hsize Hex d0. apply Z.eqb_neq in Hs.
  unfold TradingBot.execute_signal. rewrite Hs. unfold TradingBot.drawdown_gate.
  unfold bind at 1, ret at 1. unfold bind at 1, get_positions at 1.
  assert (Hopen : forall st0,
            positions st0 !! symbol E = Some (Some d0) ->
            (TradingBot.active_count true (positions st0) < max_concurrent_trades E)%Z ->
            exchange st0 = Filled :: rest ->
            TradingBot.open_position E signal (Some price) st0
            = (Ret true,
               with_entry (symbol E)
                 (Some (dict_set d0 (TradingBot.side_key_of signal)
                          (Some (TradingBot.position_data E signal amount price))))
                 (with_sent (sent st0 ++ [CcxtOrder (TradingBot.order_side_of signal) amount
                                            (TradingBot.position_idx_of E signal)])
                    (with_exchange rest st0)))).
  { intros st0 Hv0 Hc0 Hex0.
    rewrite open_position_permitted by (by rewrite hedged).
    rewrite Hsize. unfold TradingBot.place_and_store. unfold bind at 1.
    rewrite (place_market_order_filled _ _ _ _ _ Hex0).
    unfold bind, get_positions, set_entry, ret, TradingBot.stored_entry.
    cbn [positions with_sent with_exchange]. by rewrite hedged, Hv0. }
  destruct (positions st !! symbol E) as [[d |] |] eqn:Hv.
  - unfold bind at 1, ret at 1. unfold bind at 1, get_positions at 1.
    rewrite Hv. cbn [default]. unfold id. rewrite hedged.
    unfold bind at 1, TradingBot.hedge_branch. rewrite (Hfree d eq_refl).
    unfold ret at 1. by apply Hopen.
  - unfold bind at 1, ret at 1. unfold bind at 1, get_positions at 1.
    rewrite Hv. cbn [default]. unfold id. rewrite hedged.
    unfold bind at 1, TradingBot.hedge_branch. unfold bind at 1, set_entry at 1.
    unfold ret at 1.
    rewrite (Hopen (with_entry (symbol E) (Some empty_slots) st)).
    + f_equal. unfold with_entry, with_positions, with_sent, with_exchange. cbn.
      f_equal. by rewrite insert_insert_eq.
    + cbn. by rewrite lookup_insert_eq.
    + rewrite active_count_with_entry, Hv. cbn. lia.
    + done.
  - rewrite hedged. unfold bind at 1, set_entry at 1.
    unfold bind at 1, get_positions at 1.
    cbn [positions with_entry with_positions]. rewrite lookup_insert_eq. cbn [default].
    unfold id. unfold bind at 1, TradingBot.hedge_branch.
    assert (Hnone : dict_get empty_slots (TradingBot.side_key_of signal) = None)
      by (by destruct (TradingBot.side_key_of signal)).
    rewrite Hnone. unfold ret at 1.
    rewrite (Hopen (with_entry (symbol E) (Some empty_slots) st)).
    + f_equal. unfold with_entry, with_positions, with_sent, with_exchange. cbn.
      f_equal. by rewrite insert_insert_eq.
    + cbn. by rewrite lookup_insert_eq.
    + rewrite active_count_with_entry, Hv. cbn. lia.
    + done.
Qed.

Lemma close_position_hedge_filled sym d k p st rest :
  positions st !! sym = Some (Some d) ->
  dict_get d k = Some p ->
  exchange st = Filled :: rest ->
  TradingBot.close_position E sym (Some k) st
  = (Ret true,
     with_entry sym
       (match dict_get (dict_set d k None) long, dict_get (dict_set d k None) short with
        | None, None => None
        | _, _ => Some (dict_set d k None)
        end)
       (with_sent (sent st ++ [CcxtOrder (TradingBot.close_side_of p) (size p)
                                 (match k with long => idx1 | short => idx2 end)])
          (with_exchange rest st))).
Proof.
  intros Hv Hk Hex. unfold TradingBot.close_position.
  unfold bind at 1, get_positions at 1. rewrite Hv, hedged.
  unfold TradingBot.close_hedge_slot. rewrite Hk. unfold bind at 1.
  rewrite (place_market_order_filled _ _ _ _ _ Hex).
  unfold bind, set_entry, ret.
  destruct (dict_get (dict_set d k None) long), (dict_get (dict_set d k None) short);
    try done.
  unfold with_entry, with_positions. cbn. by rewrite insert_insert_eq.
Qed.

End RoundTrip.

(** X10.  A round trip in hedge mode.  With the slot of the signal's side
    free, room under the concurrency limit, a size for the price and an
    exchange that fills the next two orders: [execute_signal] opens and
    returns [True], [close_position] for that side then closes and returns
    [True]; the two orders sent are of opposite sides, of the same size and
    the same position index; and afterwards every slot of the ledger holds
    what it held before, so the count of open slots is the same. *)
Theorem hedge_round_trip (E : env) (signal : Z) (price amount : Q) (st : bot)
    (rest : list reply) :
  config.hedge_mode (trading_config E) = true ->
  signal <> 0%Z ->
  let k := TradingBot.side_key_of signal in
  (forall d, positions st !! symbol E = Some (Some d) -> dict_get d k = None) ->
  (TradingBot.active_count true (positions st) < max_concurrent_trades E)%Z ->
  TradingBot.position_size E signal price = Some amount ->
  exchange st = Filled :: Filled :: rest ->
  exists st1 st2 close_side,
    TradingBot.execute_signal E signal (Some price) None st = (Ret true, st1)
    /\ TradingBot.close_position E (symbol E) (Some k) st1 = (Ret true, st2)
    /\ close_side <> TradingBot.order_side_of signal
    /\ sent st2
       = sent st ++ [CcxtOrder (TradingBot.order_side_of signal) amount
                       (TradingBot.position_idx_of E signal);
                     CcxtOrder close_side amount (TradingBot.position_idx_of E signal)]
    /\ exchange st2 = rest
    /\ (forall sym' k' p, slot_holds st2 sym' k' p <-> slot_holds st sym' k' p)
    /\ TradingBot.active_count true (positions st2)
       = TradingBot.active_count true (positions st).
Proof.
  intros hedged Hs k Hfree Hcount Hsize Hex.
  pose proof (execute_signal_hedge_opens E hedged signal price amount st _
                Hs Hfree Hcount Hsize Hex) as Hopen.
  cbv zeta in Hopen.
  set (d0 := match positions st !! symbol E with
             | Some (Some d) => d
             | _ => empty_slots
             end) in *.
  set (pd := TradingBot.position_data E signal amount price) in *.
  set (st1 := with_entry (symbol E) (Some (dict_set d0 (TradingBot.side_key_of signal) (Some pd)))
                (with_sent (sent st ++ [CcxtOrder (TradingBot.order_side_of signal) amount
                                          (TradingBot.position_idx_of E signal)])
                   (with_exchange (Filled :: rest) st))) in *.
  assert (Hk1 : dict_get (dict_set d0 k (Some pd)) k = Some pd) by (by destruct k).
  assert (Hfree0 : dict_get d0 k = None).
  { subst d0. destruct (positions st !! symbol E) as [[d |] |] eqn:Hv;
      [by apply Hfree | by destruct k | by destruct k]. }
  assert (Hclose := close_position_hedge_filled E hedged (symbol E)
                      (dict_set d0 k (Some pd)) k pd st1 rest).
  cbn [size] in Hclose.
  assert (Hsize_pd : size pd = amount) by reflexivity. rewrite Hsize_pd in Hclose. clear Hsize_pd.
  specialize (Hclose ltac:(subst st1; cbn; by rewrite lookup_insert_eq) Hk1 eq_refl).
  eexists st1, _, (TradingBot.close_side_of pd).
  split; [exact Hopen |]. split; [exact Hclose |].
  split; [apply close_side_of_opposite |].
  assert (Hslots : forall sym' k' p,
            slot_holds
              (with_entry (symbol E)
                 (match dict_get (dict_set (dict_set d0 k (Some pd)) k None) long,
                        dict_get (dict_set (dict_set d0 k (Some pd)) k None) short with
                  | None, None => None
                  | _, _ => Some (dict_set (dict_set d0 k (Some pd)) k None)
                  end) st) sym' k' p
            <-> slot_holds st sym' k' p).
  { intros sym' k' p. unfold slot_holds. cbn [positions with_entry with_positions].
    destruct (decide (sym' = symbol E)) as [-> | Hne];
      [| by rewrite lookup_insert_ne]. rewrite lookup_insert_eq.
    subst d0. destruct (positions st !! symbol E) as [[d |] |] eqn:Hv.
    - destruct k, k'; cbn in Hfree0 |- *;
        destruct (slot_long d) eqn:Hl, (slot_short d) eqn:Hsh; try done;
        split; intros (d' & Hd' & Hp'); inversion Hd'; subst; cbn in *;
        try congruence; eexists; (split; [reflexivity |]); cbn; congruence.
    - destruct k, k'; cbn; split; intros (d' & Hd' & Hp'); congruence.
    - destruct k, k'; cbn; split; intros (d' & Hd' & Hp'); congruence. }
  split; [| split; [| split]].
  - subst st1. cbn [sent with_entry with_positions with_sent with_exchange].
    rewrite <- app_assoc. cbn [app]. do 3 f_equal.
    fold k. rewrite (position_idx_of_side_key E hedged). by fold k.
  - reflexivity.
  - intros sym' k' p. rewrite <- Hslots. unfold slot_holds, st1.
    cbn [positions with_entry with_positions with_sent with_exchange].
    by rewrite insert_insert_eq.
  - rewrite active_count_with_entry.
    subst st1. cbn [positions with_entry with_positions with_sent with_exchange].
    rewrite lookup_insert_eq.
    change (<[symbol E := Some (dict_set d0 (TradingBot.side_key_of signal) (Some pd))]>
              (positions st))
      with (positions (with_entry (symbol E)
                         (Some (dict_set d0 (TradingBot.side_key_of signal) (Some pd))) st)).
    rewrite active_count_with_entry. fold k.
    subst d0. destruct (positions st !! symbol E) as [[d |] |] eqn:Hv;
      destruct k; cbn in Hfree0 |- *; try rewrite Hfree0;
      try destruct (slot_long d); try destruct (slot_short d); cbn; lia.
Qed.

(** A fresh hedge-mode bot: a long signal at 100 and its close. *)
Lemma hedge_round_trip_witness :
  let E := Scenario.hedge_env in
  let st := TradingBot.init config.source [Filled; Filled] in
  exists st1 st2,
    TradingBot.execute_signal E 1 (Some 100) None st = (Ret true, st1)
    /\ TradingBot.close_position E (symbol E) (Some long) st1 = (Ret true, st2)
    /\ exchange st2 = [].
Proof.
  intros E st.
  assert (Hsize : exists amount, TradingBot.position_size E 1 100 = Some amount)
    by (by eexists).
  destruct Hsize as (amount & Hsize).
  pose proof (hedge_round_trip E 1 100 amount st []) as H.
  destruct H as (st1 & st2 & s & H1 & H2 & _ & _ & H3 & _).
  - reflexivity.
  - discriminate.
  - intros d Hd. vm_compute in Hd. discriminate.
  - vm_compute. reflexivity.
  - exact Hsize.
  - reflexivity.
  - exists st1, st2. split; [exact H1 |]. split; [exact H2 | exact H3].
Defined.

(** ** The trading configuration file *)

Section ConfigFile.

Import TradingConfig.

Lemma merge_defaults_cons k0 v0 items (config : dict) :
  merge_defaults ((k0, v0) :: items) config
  = merge_defaults items (if config !! k0 is Some _ then config else <[k0 := v0]> config).
Proof. reflexivity. Qed.

Lemma assign_known_cons k0 v0 items (current_config : dict) :
  assign_known ((k0, v0) :: items) current_config
  = assign_known items
      (if current_config !! k0 is Some _
       then <[k0 := v0]> current_config else current_config).
Proof. reflexivity. Qed.

Lemma lookup_merge_defaults items (config : dict) k :
  merge_defaults items config !! k
  = match config !! k with
    | Some v => Some v
    | None => (list_to_map items : dict) !! k
    end.
Proof.
  revert config. induction items as [| [k0 v0] items IH]; intros config.
  - cbn. by destruct (config !! k).
  - rewrite merge_defaults_cons, IH, list_to_map_cons.
    destruct (decide (k = k0)) as [-> | Hne].
    + rewrite lookup_insert_eq.
      destruct (config !! k0) as [v |] eqn:Hk0; [by rewrite Hk0 |].
      by rewrite lookup_insert_eq.
    + rewrite lookup_insert_ne by done.
      destruct (config !! k0) as [v |] eqn:Hk0; [done |].
      by rewrite lookup_insert_ne.
Qed.

Lemma merge_defaults_union (config : dict) :
  merge_defaults default_items config = config ∪ default_config.
Proof.
  apply map_eq. intros k. rewrite lookup_merge_defaults, lookup_union.
  unfold default_config.
  by destruct (config !! k), ((list_to_map default_items : dict) !! k).
Qed.

Lemma lookup_assign_known items (current_config : dict) k :
  NoDup items.*1 ->
  assign_known items current_config !! k
  = match current_config !! k with
    | Some old => Some (default old ((list_to_map items : dict) !! k))
    | None => None
    end.
Proof.
  revert current_config. induction items as [| [k0 v0] items IH]; intros c Hnd.
  - cbn. by destruct (c !! k).
  - cbn [fmap list_fmap fst] in Hnd. apply NoDup_cons in Hnd as [Hk0 Hnd].
    rewrite assign_known_cons, IH, list_to_map_cons by done.
    destruct (decide (k = k0)) as [-> | Hne].
    + rewrite lookup_insert_eq.
      rewrite (not_elem_of_list_to_map_1 (M := gmap string) items k0 Hk0).
      destruct (c !! k0) as [old |] eqn:Hc; [by rewrite lookup_insert_eq | by rewrite Hc].
    + rewrite lookup_insert_ne by done.
      destruct (c !! k0) as [old |] eqn:Hc; [by rewrite lookup_insert_ne | done].
Qed.

Lemma lookup_assign_known_kwargs (kwargs current_config : dict) k :
  assign_known (map_to_list kwargs) current_config !! k
  = match current_config !! k with
    | Some old => Some (default old (kwargs !! k))
    | None => None
    end.
Proof.
  rewrite lookup_assign_known by apply NoDup_fst_map_to_list.
  by rewrite list_to_map_to_list.
Qed.

Lemma load_has_defaults f k :
  is_Some (default_config !! k) -> is_Some ((load_trading_config f).1 !! k).
Proof.
  intros Hk. unfold load_trading_config.
  destruct (content f) as [| | c]; cbn [fst]; try done.
  rewrite lookup_merge_defaults. by destruct (c !! k).
Qed.

Lemma merge_defaults_idem (c : dict) :
  (forall k, is_Some (default_config !! k) -> is_Some (c !! k)) ->
  merge_defaults default_items c = c.
Proof.
  intros Hc. apply map_eq. intros k. rewrite lookup_merge_defaults.
  destruct (c !! k) as [v |] eqn:Hk; [done |].
  fold default_config.
  destruct (default_config !! k) as [v |] eqn:Hd; [| done].
  destruct (Hc k) as [v' Hv']; [by rewrite Hd | congruence].
Qed.

Lemma default_config_no_hedge_mode : default_config !! "hedge_mode"%string = None.
Proof. reflexivity. Qed.

Lemma default_config_last_updated :
  default_config !! "last_updated"%string = Some JNull.
Proof. reflexivity. Qed.

Lemma dump_writable c f : writable (dump c f) = writable f.
Proof. unfold dump. by destruct (writable f) eqn:H. Qed.

Lemma load_writable f : writable (load_trading_config f).2 = writable f.
Proof.
  unfold load_trading_config. destruct (content f); cbn [snd]; [| done | done].
  apply dump_writable.
Qed.

Lemma load_again f :
  load_trading_config (load_trading_config f).2
  = ((load_trading_config f).1, (load_trading_config f).2).
Proof.
  unfold load_trading_config at 2 3 4.
  destruct (content f) as [| | c] eqn:Hf; cbn [fst snd].
  - unfold dump. destruct (writable f) eqn:Hw.
    + unfold load_trading_config. cbn [content].
      by rewrite merge_defaults_union, map_union_idemp.
    + unfold load_trading_config, dump. by rewrite Hf, Hw.
  - unfold load_trading_config. by rewrite Hf.
  - unfold load_trading_config. by rewrite Hf.
Qed.

Lemma lookup_update kwargs now f k :
  (update_trading_config kwargs now f).1 !! k
  = if decide (k = "last_updated"%string) then Some (JStr now)
    else match (load_trading_config f).1 !! k with
         | Some old => Some (default old (kwargs !! k))
         | None => None
         end.
Proof.
  unfold update_trading_config.
  destruct (load_trading_config f) as [c0 f1]. cbn [fst].
  destruct (decide (k = "last_updated"%string)) as [-> | Hne].
  - by rewrite lookup_insert_eq.
  - rewrite lookup_insert_ne by done. apply lookup_assign_known_kwargs.
Qed.

Lemma update_keeps_keys kwargs now f k :
  is_Some ((update_trading_config kwargs now f).1 !! k)
  <-> is_Some ((load_trading_config f).1 !! k).
Proof.
  rewrite lookup_update.
  destruct (decide (k = "last_updated"%string)) as [-> | Hne].
  - split; [intros _ | by eexists].
    apply load_has_defaults. by rewrite default_config_last_updated.
  - destruct ((load_trading_config f).1 !! k); [| done].
    split; by eexists.
Qed.

Lemma update_file kwargs now f :
  (update_trading_config kwargs now f).2
  = dump (update_trading_config kwargs now f).1 (load_trading_config f).2.
Proof. unfold update_trading_config. by destruct (load_trading_config f). Qed.

End ConfigFile.

(** X11.  [load_trading_config] returns a dict that has every key of the
    defaults.  When the file holds an object, the result is that object with
    the missing defaults added, the values of the file winning, and the file
    is left as it is; otherwise the result is the defaults, and a missing
    file is created with them when it can be written.  Loading again returns
    the same dict and leaves the file system as the first load left it.
    The defaults have no ['hedge_mode']: hedge mode is on only when the
    file holds an object with a truthy ['hedge_mode']. *)
Theorem load_trading_config_spec (f : TradingConfig.fs) :
  let config := (TradingConfig.load_trading_config f).1 in
  let f' := (TradingConfig.load_trading_config f).2 in
  (forall k, is_Some (TradingConfig.default_config !! k) -> is_Some (config !! k))
  /\ (forall c, TradingConfig.content f = TradingConfig.Object c ->
                config = c ∪ TradingConfig.default_config /\ f' = f)
  /\ (TradingConfig.content f = TradingConfig.Unreadable ->
      config = TradingConfig.default_config /\ f' = f)
  /\ (TradingConfig.content f = TradingConfig.Missing ->
      config = TradingConfig.default_config
      /\ f' = TradingConfig.dump TradingConfig.default_config f)
  /\ TradingConfig.load_trading_config f' = (config, f')
  /\ (TradingConfig.hedge_mode config = true ->
      exists c v, TradingConfig.content f = TradingConfig.Object c
                  /\ c !! "hedge_mode"%string = Some v
                  /\ TradingConfig.truthy v = true).
Proof.
  intros config f'. subst config f'.
  split; [apply load_has_defaults |].
  split; [| split; [| split; [| split]]].
  - intros c Hc. unfold TradingConfig.load_trading_config. rewrite Hc. cbn [fst snd].
    by rewrite merge_defaults_union.
  - intros Hc. unfold TradingConfig.load_trading_config. by rewrite Hc.
  - intros Hc. unfold TradingConfig.load_trading_config. by rewrite Hc.
  - apply load_again.
  - unfold TradingConfig.hedge_mode, TradingConfig.load_trading_config.
    destruct (TradingConfig.content f) as [| | c]; cbn [fst]; try done.
    rewrite lookup_merge_defaults.
    destruct (c !! "hedge_mode"%string) as [v |] eqn:Hv; [| done].
    intros Ht. by exists c, v.
Qed.

(** A file that sets the timeframe and hedge mode: both are kept, the
    strategy comes from the defaults. *)
Lemma load_trading_config_spec_witness :
  let c : TradingConfig.dict :=
    {[ "timeframe"%string := TradingConfig.JStr "4h";
       "hedge_mode"%string := TradingConfig.JBool true ]} in
  let f := {| TradingConfig.content := TradingConfig.Object c;
              TradingConfig.writable := true |} in
  (TradingConfig.load_trading_config f).1 = c ∪ TradingConfig.default_config
  /\ (TradingConfig.load_trading_config f).2 = f
  /\ exists c' v, TradingConfig.content f = TradingConfig.Object c'
                  /\ c' !! "hedge_mode"%string = Some v
                  /\ TradingConfig.truthy v = true.
Proof.
  intros c f.
  pose proof (load_trading_config_spec f) as (_ & Hobj & _ & _ & _ & Hhedge).
  destruct (Hobj c eq_refl) as [H1 H2].
  split; [exact H1 |]. split; [exact H2 |].
  apply Hhedge. vm_compute. reflexivity.
Defined.

(** X12.  [update_trading_config] neither adds nor removes a key: the dict
    it returns has the keys of the loaded configuration.  Its
    ['last_updated'] is the time of the call, whatever the arguments say;
    every other key has the value of the argument of that name if there is
    one, else the loaded value; arguments under other names are dropped.  So
    an update cannot introduce ['hedge_mode'] into a configuration that has
    none.  When the file can be written, it then holds the dict returned,
    and the next load returns that dict; when it cannot, the file system is
    as it was and the next load returns what was loaded before. *)
Theorem update_trading_config_spec (kwargs : TradingConfig.dict) (now : string)
    (f : TradingConfig.fs) :
  let loaded := (TradingConfig.load_trading_config f).1 in
  let config := (TradingConfig.update_trading_config kwargs now f).1 in
  let f' := (TradingConfig.update_trading_config kwargs now f).2 in
  (forall k, is_Some (config !! k) <-> is_Some (loaded !! k))
  /\ config !! "last_updated"%string = Some (TradingConfig.JStr now)
  /\ (forall k, k <> "last_updated"%string ->
        config !! k = match loaded !! k with
                      | Some old => Some (default old (kwargs !! k))
                      | None => None
                      end)
  /\ (loaded !! "hedge_mode"%string = None -> TradingConfig.hedge_mode config = false)
  /\ (TradingConfig.writable f = true ->
      TradingConfig.content f' = TradingConfig.Object config
      /\ (TradingConfig.load_trading_config f').1 = config)
  /\ (TradingConfig.writable f = false ->
      f' = f /\ (TradingConfig.load_trading_config f').1 = loaded).
Proof.
  intros loaded config f'. subst loaded config f'.
  split; [apply update_keeps_keys |].
  split; [by rewrite lookup_update |].
  split; [| split; [| split]].
  - intros k Hk. rewrite lookup_update. by destruct (decide _).
  - intros Hnone. unfold TradingConfig.hedge_mode. rewrite lookup_update.
    cbn [decide]. by rewrite Hnone.
  - intros Hw. rewrite update_file. unfold TradingConfig.dump at 1 2.
    rewrite load_writable, Hw. split; [done |].
    unfold TradingConfig.load_trading_config at 1. cbn [TradingConfig.content fst].
    apply merge_defaults_idem. intros k Hk.
    apply update_keeps_keys. by apply load_has_defaults.
  - intros Hw. rewrite update_file. unfold TradingConfig.dump at 1 2.
    rewrite load_writable, Hw.
    assert (Hsame : (TradingConfig.load_trading_config f).2 = f).
    { unfold TradingConfig.load_trading_config, TradingConfig.dump.
      destruct (TradingConfig.content f); cbn [snd]; by rewrite ?Hw. }
    by rewrite Hsame.
Qed.

(** The default file, updated with a new timeframe and with a
    ['hedge_mode'] that the configuration does not have. *)
Lemma update_trading_config_spec_witness :
  let kwargs : TradingConfig.dict :=
    {[ "timeframe"%string := TradingConfig.JStr "4h";
       "hedge_mode"%string := TradingConfig.JBool true ]} in
  let f := {| TradingConfig.content := TradingConfig.Missing;
              TradingConfig.writable := true |} in
  let config := (TradingConfig.update_trading_config kwargs "2026-01-01T00:00:00" f).1 in
  TradingConfig.hedge_mode config = false
  /\ (TradingConfig.load_trading_config
        (TradingConfig.update_trading_config kwargs "2026-01-01T00:00:00" f).2).1 = config.
Proof.
  intros kwargs f config.
  pose proof (update_trading_config_spec kwargs "2026-01-01T00:00:00" f)
    as (_ & _ & _ & Hhedge & Hsaved & _).
  split; [apply Hhedge; reflexivity |].
  apply Hsaved. reflexivity.
Defined.

(** ** The signals of the strategies *)

Section Signals.

Import LiveTradingBot.


Lemma sig_values r :
  bb_strategy.sig r = 1%Z \/ bb_strategy.sig r = (-1)%Z \/ bb_strategy.sig r = 0%Z.
Proof.
  unfold bb_strategy.sig.
  destruct (pd.lt _ _); [auto |]. destruct (pd.gt _ _); auto.
Qed.

Lemma replace_zero_sig r : bb_strategy.entry_cell (pd.replace_zero (bb_strategy.sig r)).
Proof.
  unfold bb_strategy.entry_cell. destruct (sig_values r) as [-> | [-> | ->]]; cbn; auto.
Qed.

Lemma replace_zero_NaN z : pd.replace_zero z = NaN <-> z = 0%Z.
Proof.
  unfold pd.replace_zero. destruct (Z.eqb_spec z 0); split; done.
Qed.

Lemma ffill_from_entry prev column :
  bb_strategy.entry_cell prev -> Forall bb_strategy.entry_cell column ->
  Forall bb_strategy.entry_cell (pd.ffill_from prev column).
Proof.
  intros Hprev Hcol. revert prev Hprev.
  induction Hcol as [| c rest Hc Hrest IH]; intros prev Hprev; cbn; [constructor |].
  assert (Hv : bb_strategy.entry_cell match c with NaN => prev | Num _ => c end)
    by (by destruct c).
  constructor; [exact Hv | by apply IH].
Qed.

Lemma ffill_from_length prev column :
  length (pd.ffill_from prev column) = length column.
Proof.
  revert prev. induction column as [| c rest IH]; intros prev; cbn; [done |].
  by rewrite IH.
Qed.

(** After a value, no NaN is left. *)
Lemma ffill_from_filled prev column :
  prev <> NaN -> Forall (fun c => c <> NaN) (pd.ffill_from prev column).
Proof.
  revert prev. induction column as [| c rest IH]; intros prev Hprev; cbn; [constructor |].
  assert (Hv : match c with NaN => prev | Num _ => c end <> NaN) by (by destruct c).
  constructor; [exact Hv | by apply IH].
Qed.

Lemma ffill_from_latch prev column i j c c' :
  (i <= j)%nat ->
  pd.ffill_from prev column !! i = Some c -> c <> NaN ->
  pd.ffill_from prev column !! j = Some c' -> c' <> NaN.
Proof.
  revert prev i j. induction column as [| x rest IH]; intros prev i j Hij Hi Hc Hj;
    cbn in Hi, Hj; [done |].
  destruct i as [| i].
  - cbn in Hi. inversion Hi; subst c. destruct j as [| j].
    + cbn in Hj. by inversion Hj; subst.
    + cbn in Hj.
      pose proof (ffill_from_filled _ rest Hc) as Hall.
      rewrite Forall_lookup in Hall. by eapply Hall.
  - destruct j as [| j]; [lia |]. cbn in Hi, Hj.
    eapply (IH _ i j); [lia | exact Hi | exact Hc | exact Hj].
Qed.

(** A NaN takes the value of the row before it. *)
Lemma ffill_from_carry prev column i :
  column !! S i = Some NaN ->
  pd.ffill_from prev column !! S i = pd.ffill_from prev column !! i.
Proof.
  revert prev i. induction column as [| x rest IH]; intros prev i Hi; [done |].
  cbn [pd.ffill_from]. cbn in Hi.
  destruct i as [| i].
  - destruct rest as [| y rest']; [done |]. cbn in Hi. inversion Hi; subst y. done.
  - change ((?v :: ?l) !! S ?n) with (l !! n). by apply IH.
Qed.

(** The last cell is still NaN exactly when there was nothing to carry. *)
Lemma ffill_from_last prev column :
  column <> [] ->
  (last (pd.ffill_from prev column) = Some NaN
   <-> prev = NaN /\ Forall (fun c => c = NaN) column).
Proof.
  revert prev. induction column as [| x rest IH]; intros prev Hne; [done |].
  cbn [pd.ffill_from].
  destruct rest as [| y rest'].
  - cbn. split.
    + intros H. inversion H as [Hx]. destruct x; [| done].
      split; [done | by constructor].
    + intros [-> Hall]. apply Forall_cons in Hall as [-> _]. done.
  - set (v := match x with NaN => prev | Num _ => x end).
    change (last (v :: pd.ffill_from v (y :: rest'))) with (last (pd.ffill_from v (y :: rest'))).
    rewrite IH by done. subst v. split.
    + intros [Hv Hall]. destruct x; [| done]. split; [done | by constructor].
    + intros [-> Hall]. apply Forall_cons in Hall as [-> Hall]. done.
Qed.





End Signals.

(** X13.  The [Signal] column of the Bollinger entry logic has a value for
    every row, each of them 1, -1 or 0 and none NaN.  It latches: it is 1 or
    -1 at the rows where the close is outside a band and repeats the value
    of the row before at the others, so that a value that is not 0 is never
    followed by 0.  So [get_current_signal]
    on such a frame returns 1, -1 or 0, and returns 0, the exit signal,
    exactly when the close is outside the bands at no row of the frame. *)
Theorem bollinger_signal_latches (df : list bb_strategy.row) :
  let Signal := bb_strategy.bollinger_band_entry_logic df in
  length Signal = length df
  /\ Forall (fun c => c = pd.of_int 1 \/ c = pd.of_int (-1) \/ c = pd.of_int 0) Signal
  /\ (forall i r, df !! i = Some r -> bb_strategy.sig r <> 0%Z ->
                  Signal !! i = Some (pd.of_int (bb_strategy.sig r)))
  /\ (forall i r, df !! S i = Some r -> bb_strategy.sig r = 0%Z ->
                  Signal !! S i = Signal !! i)
  /\ (forall i j c c',
        (i <= j)%nat -> Signal !! i = Some c -> c <> pd.of_int 0 ->
        Signal !! j = Some c' -> c' <> pd.of_int 0)
  /\ (forall frame : LiveTradingBot.dataframe,
        frame !! "Signal"%string = Some Signal -> df <> [] ->
        exists s,
          LiveTradingBot.get_current_signal
            (LiveTradingBot.StrategyReturns (Some frame)) = Some s
          /\ (s = 1%Z \/ s = (-1)%Z \/ s = 0%Z)
          /\ (s = 0%Z <-> Forall (fun r => bb_strategy.sig r = 0%Z) df)).
Proof.
  intros Signal. subst Signal. unfold bb_strategy.bollinger_band_entry_logic.
  set (raw := pd.replace_zero <$> (bb_strategy.sig <$> df)).
  assert (Hraw : Forall bb_strategy.entry_cell raw).
  { subst raw. rewrite <- list_fmap_compose. apply Forall_fmap.
    apply Forall_forall. intros r _. apply replace_zero_sig. }
  assert (Hfilled : Forall bb_strategy.entry_cell (pd.ffill raw)).
  { apply ffill_from_entry; [by left | exact Hraw]. }
  assert (Hcell : forall c, bb_strategy.entry_cell c ->
            (match c with LiveTradingBot.NaN => LiveTradingBot.Num 0 | _ => c end
             = pd.of_int 0 <-> c = LiveTradingBot.NaN)).
  { intros c [-> | [-> | ->]]; split; intros H; try done; inversion H. }
  split; [| split; [| split; [| split; [| split]]]].
  - unfold pd.fillna, pd.ffill. rewrite length_fmap, ffill_from_length.
    subst raw. by rewrite !length_fmap.
  - unfold pd.fillna. apply Forall_fmap. eapply Forall_impl; [exact Hfilled |].
    intros c [-> | [-> | ->]]; cbn; auto.
  - intros i r Hi Hsig. unfold pd.fillna. rewrite list_lookup_fmap.
    assert (Hrawi : raw !! i = Some (pd.of_int (bb_strategy.sig r))).
    { subst raw. rewrite !list_lookup_fmap, Hi. cbn. unfold pd.replace_zero.
      apply Z.eqb_neq in Hsig. by rewrite Hsig. }
    assert (Hfill : forall prev column, column !! i = Some (pd.of_int (bb_strategy.sig r)) ->
              pd.ffill_from prev column !! i = Some (pd.of_int (bb_strategy.sig r))).
    { clear. revert i. intros i prev column. revert i prev.
      induction column as [| x rest IH]; intros i prev Hx; [done |].
      destruct i as [| i]; cbn in Hx |- *.
      - inversion Hx; subst. done.
      - by apply IH. }
    unfold pd.ffill. by rewrite (Hfill _ _ Hrawi).
  - intros i r Hi Hsig. unfold pd.fillna, pd.ffill. rewrite !list_lookup_fmap.
    rewrite ffill_from_carry; [done |].
    subst raw. rewrite !list_lookup_fmap, Hi. cbn. by rewrite Hsig.
  - intros i j c c' Hij Hi Hc Hj Hc'. unfold pd.fillna in Hi, Hj.
    rewrite list_lookup_fmap in Hi, Hj.
    destruct (pd.ffill raw !! i) as [x |] eqn:Hx; [| done].
    destruct (pd.ffill raw !! j) as [y |] eqn:Hy; [| done].
    cbn in Hi, Hj. injection Hi as Hi. injection Hj as Hj.
    rewrite <- Hj in Hc'. rewrite <- Hi in Hc. clear Hi Hj.
    rewrite Forall_lookup in Hfilled.
    apply (Hcell y (Hfilled _ _ Hy)) in Hc'.
    apply (ffill_from_latch _ _ i j x y Hij Hx); [| exact Hy | exact Hc'].
    intros Hnan. apply Hc. by apply (Hcell x (Hfilled _ _ Hx)).
  - intros frame Hframe Hne. unfold LiveTradingBot.get_current_signal. rewrite Hframe.
    unfold pd.fillna. rewrite fmap_last.
    assert (Hrawne : raw <> []) by (subst raw; by destruct df).
    pose proof (ffill_from_last LiveTradingBot.NaN raw Hrawne) as Hlast.
    assert (Hzero : Forall (fun c => c = LiveTradingBot.NaN) raw
                    <-> Forall (fun r => bb_strategy.sig r = 0%Z) df).
    { subst raw. rewrite <- list_fmap_compose, Forall_fmap.
      apply Forall_iff. intros r. apply replace_zero_NaN. }
    destruct (last (pd.ffill raw)) as [c |] eqn:Hc.
    + assert (Hin : bb_strategy.entry_cell c).
      { rewrite Forall_forall in Hfilled. apply Hfilled.
        apply last_Some in Hc as [l' ->]. apply elem_of_app. right. by left. }
      cbn. destruct Hin as [-> | [-> | ->]]; cbn.
      * exists 0%Z. split; [done |]. split; [auto |]. split; [intros _ | done].
        apply Hzero, Hlast. done.
      * exists 1%Z. split; [done |]. split; [auto |]. split; [done |].
        intros Hall. apply Hzero in Hall.
        destruct Hlast as [_ Hlast]. specialize (Hlast (conj eq_refl Hall)).
        unfold pd.ffill, pd.of_int in Hc. congruence.
      * exists (-1)%Z. split; [done |]. split; [auto |]. split; [done |].
        intros Hall. apply Hzero in Hall.
        destruct Hlast as [_ Hlast]. specialize (Hlast (conj eq_refl Hall)).
        unfold pd.ffill, pd.of_int in Hc. congruence.
    + exfalso. apply last_None in Hc. unfold pd.ffill in Hc.
      apply (f_equal length) in Hc. rewrite ffill_from_length in Hc.
      by destruct raw.
Qed.

(** Three rows: inside the bands, below the lower band, inside again.  The
    signal is 0, then 1, and stays 1. *)
Lemma bollinger_signal_latches_witness :
  let inside := {| bb_strategy.close := LiveTradingBot.Num 100;
                   bb_strategy.BB_Lower := LiveTradingBot.Num 95;
                   bb_strategy.BB_Upper := LiveTradingBot.Num 105 |} in
  let below := {| bb_strategy.close := LiveTradingBot.Num 90;
                  bb_strategy.BB_Lower := LiveTradingBot.Num 95;
                  bb_strategy.BB_Upper := LiveTradingBot.Num 105 |} in
  let df := [inside; below; inside] in
  bb_strategy.bollinger_band_entry_logic df !! 1%nat = Some (pd.of_int 1)
  /\ forall c', bb_strategy.bollinger_band_entry_logic df !! 2%nat = Some c' ->
                c' <> pd.of_int 0.
Proof.
  intros inside below df.
  pose proof (bollinger_signal_latches df) as (_ & _ & Hat & _ & Hlatch & _).
  assert (H1 : bb_strategy.bollinger_band_entry_logic df !! 1%nat = Some (pd.of_int 1)).
  { apply (Hat 1%nat below); [reflexivity | discriminate]. }
  split; [exact H1 |].
  intros c' H2. apply (Hlatch 1%nat 2%nat (pd.of_int 1) c'); [lia | exact H1 | discriminate | exact H2].
Defined.


